(** * NavGPT-2, [map_nav_src/r2r/env.py]: batched navigation environment

    A shallow embedding of [EnvBatch] and [R2RNavBatch] (minibatch cursor,
    observation assembly, candidate projection, trajectory scoring) together
    with the properties the design document states about them.

    Conventions of the embedding.
    - A Python exception is a value of [pyerr]; a method that may raise
      returns [result].  Attributes that [__init__] assigns only on some
      paths are [attr] fields: reading an unassigned one raises
      [AttributeError].
    - Python [float]s (binary64) are idealised as exact rationals [Q] in the
      evaluator and the observation pipeline.  The candidate projector is
      written over an abstract arithmetic so that it can also be run on the
      kernel's binary64 numbers.
    - The simulator, the feature store, the graph loader, the random module
      and [r2r.eval_utils] are collaborators, gathered in the class
      [Collaborators]. *)

From Stdlib Require Import ZArith QArith Qminmax Lia PrimFloat.
From stdpp Require Import gmap strings list fin_maps pretty.

Local Open Scope Z_scope.

(** ** Python exceptions and the error monad *)

Inductive pyerr : Type :=
| AttributeError (attribute : string)
| NameError (identifier : string)
| KeyError (key : string)
| IndexError
| ZeroDivisionError
| AssertionError (msg : string)
| CollaboratorError (what : string).

Inductive result (A : Type) : Type :=
| Ok (a : A)
| Raise (e : pyerr).
Arguments Ok {A} a.
Arguments Raise {A} e.

Definition rbind {A B} (r : result A) (k : A -> result B) : result B :=
  match r with
  | Ok a => k a
  | Raise e => Raise e
  end.

Notation "x <- c1 ;; c2" := (rbind c1 (fun x => c2))
  (at level 100, c1 at next level, right associativity).

Definition is_ok {A} (r : result A) : bool :=
  match r with Ok _ => true | Raise _ => false end.

(** [for x in l: ...] collecting one value per element, stopping at the
    first exception. *)
Fixpoint traverse {A B} (f : A -> result B) (l : list A) : result (list B) :=
  match l with
  | [] => Ok []
  | x :: rest => y <- f x ;; ys <- traverse f rest ;; Ok (y :: ys)
  end.

(** [for x in l: acc = body(acc, x)] *)
Fixpoint for_each {A S} (body : S -> A -> result S) (l : list A) (acc : S) : result S :=
  match l with
  | [] => Ok acc
  | x :: rest => acc' <- body acc x ;; for_each body rest acc'
  end.

(** What a call into a collaborator yields: its value, or the exception it
    raised, which the caller lets through as [CollaboratorError]. *)
Inductive outcome (A : Type) : Type :=
| Done (a : A)
| Failed (what : string).
Arguments Done {A} a.
Arguments Failed {A} what.

Definition call {A} (o : outcome A) : result A :=
  match o with
  | Done a => Ok a
  | Failed what => Raise (CollaboratorError what)
  end.

(** An attribute of [self] that may not have been assigned yet. *)
Definition attr (A : Type) : Type := option A.

Definition getattr {A} (attribute : string) (a : attr A) : result A :=
  match a with
  | Some v => Ok v
  | None => Raise (AttributeError attribute)
  end.

(** [d[k]] on a dict with string keys. *)
Definition getitem {V} (d : gmap string V) (k : string) : result V :=
  match d !! k with
  | Some v => Ok v
  | None => Raise (KeyError k)
  end.

(** ** Python sequences *)

(** [l[i]] with Python's negative indices. *)
Definition py_index {A} (l : list A) (i : Z) : result A :=
  let n := Z.of_nat (length l) in
  let j := if i <? 0 then i + n else i in
  if (0 <=? j) && (j <? n)
  then match l !! Z.to_nat j with Some x => Ok x | None => Raise IndexError end
  else Raise IndexError.

(** The bound of a slice, as [slice.indices] normalises it for step 1:
    a negative bound counts from the end, then it is clamped to [0, len]. *)
Definition slice_bound (n : Z) (dflt : Z) (b : option Z) : Z :=
  match b with
  | None => dflt
  | Some i => let j := if i <? 0 then i + n else i in Z.max 0 (Z.min n j)
  end.

(** [l[start:stop]] *)
Definition py_slice {A} (l : list A) (start stop : option Z) : list A :=
  let n := Z.of_nat (length l) in
  let lo := slice_bound n 0 start in
  let hi := slice_bound n n stop in
  take (Z.to_nat (hi - lo)) (drop (Z.to_nat lo) l).

(** [range(n)] *)
Definition py_range (n : Z) : list Z := Z.of_nat <$> seq 0 (Z.to_nat n).

(** [enumerate(l)] *)
Definition enumerate {A} (l : list A) : list (Z * A) := zip (py_range (Z.of_nat (length l))) l.

(** Values a JSON field may hold where the code only prints or forwards it. *)
Inductive pyval : Type :=
| PyNone
| PyInt (z : Z)
| PyStr (s : string).

(** [str(v)] *)
Definition py_str (v : pyval) : string :=
  match v with
  | PyNone => "None"
  | PyInt z => pretty z
  | PyStr s => s
  end.

(** [x.get(key)]: an absent key reads as [None]. *)
Definition dict_get (v : option pyval) : pyval := default PyNone v.

(** ** Numbers *)

(** [x < y] on floats, as a boolean. *)
Definition Qltb (x y : Q) : bool := (Qnum x * QDen y <? Qnum y * QDen x)%Z.

(** [float(b)] *)
Definition float_of_bool (b : bool) : Q := if b then 1%Q else 0%Q.

(** [max(a, b)] as the builtin computes it: the first maximal item wins. *)
Definition py_max (a b : Q) : Q := if Qltb a b then b else a.

(** [np.sum(l)] *)
Definition np_sum (l : list Q) : Q := foldr Qplus 0%Q l.

Definition ERROR_MARGIN : Q := 3%Q.

(** ** Data model *)

(** [shortest_distances[scan]]: source viewpoint, then target viewpoint. *)
Abbreviation dist_table := (gmap string (gmap string Q)).
(** [shortest_paths[scan]] *)
Abbreviation path_table := (gmap string (gmap string (list string))).

(** One record of the instruction dataset (a dict with these keys; [objId]
    and [path_id] are read with [.get] and may be absent). *)
Record episode : Type := {
  ep_instr_id : string;
  ep_scan : string;
  ep_path : list string;
  ep_heading : Q;
  ep_instruction : string;
  ep_objId : option pyval;
  ep_path_id : option pyval;
}.

(** One value of the candidate dictionary:
    [[pointId, featureId, distance, heading, elevation, position]]. *)
Record cand_entry (num : Type) : Type := {
  v_pointId : Z;
  v_featureId : Z;
  v_distance : num;
  v_heading : num;
  v_elevation : num;
  v_position : list num;
}.
Arguments v_pointId {num} _.
Arguments v_featureId {num} _.
Arguments v_distance {num} _.
Arguments v_heading {num} _.
Arguments v_elevation {num} _.
Arguments v_position {num} _.

(** The candidates of one [(scan, viewpoint)], in the order of the JSON
    object. *)
Abbreviation cand_table num := (list (string * cand_entry num)).

(** [state.location] *)
Record location : Type := {
  viewpointId : string;
  loc_x : Q;
  loc_y : Q;
  loc_z : Q;
}.

(** The part of a MatterSim state the environment reads. *)
Record sim_state : Type := {
  scanId : string;
  st_location : location;
  viewIndex : Z;
  st_heading : Q;
  st_elevation : Q;
  navigableLocations : list string;
}.

(** The arithmetic [make_candidate] needs: [int] to [float], [*], [-] and
    [math.radians]. *)
Class Arith (num : Type) : Type := {
  of_int : Z -> num;
  mul : num -> num -> num;
  sub : num -> num -> num;
  radians : num -> num;
}.

(** The collaborators of the module: the MatterSim simulator, the graph
    loader of [utils.data] with networkx behind it, [json.load] on the
    candidate file, the [random] module, [math.radians] and the two scoring
    helpers of [r2r.eval_utils]. *)
Class Collaborators : Type := {
  Simulator : Type;
  fvec : Type;
  Graph : Type;
  RandomState : Type;
  Simulator_init : option string -> string -> Z -> Z -> Q -> outcome Simulator;
  sim_newEpisode : Simulator -> string -> string -> Q -> outcome Simulator;
  sim_getState : Simulator -> outcome sim_state;
  sim_makeAction : Simulator -> Z -> Q -> Q -> outcome Simulator;
  load_nav_graphs : string -> gset string -> outcome (gmap string Graph);
  all_pairs_dijkstra_path : Graph -> path_table;
  all_pairs_dijkstra_path_length : Graph -> dist_table;
  json_load : string -> outcome (gmap string (cand_table Q));
  random_seed : Z -> RandomState -> RandomState;
  random_shuffle : RandomState -> list episode -> RandomState * list episode;
  math_radians : Q -> Q;
  cal_dtw : dist_table -> list string -> list string -> Q -> Q -> outcome (gmap string Q);
  cal_cls : dist_table -> list string -> list string -> Q -> outcome Q;
}.

(** Exact rational arithmetic, with the collaborator's [math.radians]. *)
Definition Q_arith `{Collaborators} : Arith Q :=
  {| of_int := inject_Z; mul := Qmult; sub := Qminus; radians := math_radians |}.

(** [float(z)] for an [int] below 2^53 in magnitude, where every step of
    the doubling is exact. *)
Fixpoint float_of_pos (p : positive) : float :=
  match p with
  | xH => PrimFloat.one
  | xO q => PrimFloat.mul PrimFloat.two (float_of_pos q)
  | xI q => PrimFloat.add (PrimFloat.mul PrimFloat.two (float_of_pos q)) PrimFloat.one
  end.

Definition float_of_int (z : Z) : float :=
  match z with
  | Z0 => PrimFloat.zero
  | Zpos p => float_of_pos p
  | Zneg p => PrimFloat.opp (float_of_pos p)
  end.

(** Binary64 arithmetic as CPython computes it: [math.radians(x)] is
    [x * (pi / 180.0)]. *)

Definition binary64_arith : Arith float :=
  {| of_int := float_of_int;
     mul := PrimFloat.mul;
     sub := PrimFloat.sub;
     radians := fun x => PrimFloat.mul x (PrimFloat.div 0x1.921fb54442d18p+1%float 180%float) |}.

(** ** CandidateProjector: the body of [make_candidate] *)

Section Projector.
Context {num : Type} {arith : Arith num} {F : Type}.

(** One element of [candidate_new]. *)
Record candidate : Type := {
  c_heading : num;
  c_elevation : num;
  c_normalized_heading : num;
  c_normalized_elevation : num;
  c_scanId : string;
  c_viewpointId : string;
  c_pointId : Z;
  c_distance : num;
  c_feature : F;
  c_position : list num;
}.

(** [(viewId % 12) * math.radians(30)] *)
Definition base_heading (viewId : Z) : num :=
  mul (of_int (viewId mod 12)) (radians (of_int 30)).

(** [(viewId // 12 - 1) * math.radians(30)] *)
Definition base_elevation (viewId : Z) : num :=
  mul (of_int (viewId / 12 - 1)) (radians (of_int 30)).

(** The dict [c_new] built for one [(key, value)] of the candidate table;
    [feature[value[1]]] is the only step that can raise. *)
Definition c_new (feature : list F) (scan : string) (viewId : Z)
    (key : string) (value : cand_entry num) : result candidate :=
  f <- py_index feature (v_featureId value) ;;
  Ok {| c_heading := sub (v_heading value) (base_heading viewId);
        c_elevation := sub (v_elevation value) (base_elevation viewId);
        c_normalized_heading := v_heading value;
        c_normalized_elevation := v_elevation value;
        c_scanId := scan;
        c_viewpointId := key;
        c_pointId := v_pointId value;
        c_distance := v_distance value;
        c_feature := f;
        c_position := v_position value |}.

(** [for key, value in candidate.items(): candidate_new.append(c_new)] *)
Definition candidate_loop (feature : list F) (scan : string) (viewId : Z)
    (table : cand_table num) : result (list candidate) :=
  traverse (fun kv => c_new feature scan viewId (fst kv) (snd kv)) table.

End Projector.
Arguments candidate : clear implicits.

(** ** EnvBatch *)

Section Environment.
Context {W : Collaborators}.

Record EnvBatch : Type := {
  feat_db : string -> string -> outcome (list fvec);
  image_w : Z;
  image_h : Z;
  vfov : Z;
  sims : list Simulator;
}.

Definition set_sims (e : EnvBatch) (s : list Simulator) : EnvBatch :=
  {| feat_db := feat_db e; image_w := image_w e; image_h := image_h e;
     vfov := vfov e; sims := s |}.

(** [EnvBatch.__init__]: one configured simulator per slot. *)
Definition EnvBatch_init (connectivity_dir : string) (scan_data_dir : option string)
    (view_db : string -> string -> outcome (list fvec)) (batch_size : Z) : result EnvBatch :=
  let w := 640 in
  let h := 480 in
  let fov := 60 in
  s <- traverse (fun _ => call (Simulator_init scan_data_dir connectivity_dir w h
                                  (math_radians (inject_Z fov))))
                (py_range batch_size) ;;
  Ok {| feat_db := view_db; image_w := w; image_h := h; vfov := fov; sims := s |}.

(** [self.sims[i].method(...)], the simulator of slot [i] being updated in place. *)
Definition on_sim (s : list Simulator) (i : Z) (method : Simulator -> outcome Simulator)
    : result (list Simulator) :=
  sim <- py_index s i ;;
  sim' <- call (method sim) ;;
  Ok (<[Z.to_nat i := sim']> s).

Definition newEpisodes (e : EnvBatch) (scanIds viewpointIds : list string) (headings : list Q)
    : result EnvBatch :=
  s <- for_each (fun s (it : Z * (string * (string * Q))) =>
                   let '(i, (scan, (vp, heading))) := it in
                   on_sim s i (fun sim => sim_newEpisode sim scan vp heading))
                (enumerate (zip scanIds (zip viewpointIds headings))) (sims e) ;;
  Ok (set_sims e s).

Definition getStates (e : EnvBatch) : result (list (list fvec * sim_state)) :=
  traverse (fun sim =>
              state <- call (sim_getState sim) ;;
              feature <- call (feat_db e (scanId state) (viewpointId (st_location state))) ;;
              Ok (feature, state))
           (sims e).

Definition makeActions (e : EnvBatch) (actions : list (Z * Q * Q)) : result EnvBatch :=
  s <- for_each (fun s (it : Z * (Z * Q * Q)) =>
                   let '(i, (index, heading, elevation)) := it in
                   on_sim s i (fun sim => sim_makeAction sim index heading elevation))
                (enumerate actions) (sims e) ;;
  Ok (set_sims e s).

End Environment.

(** ** R2RNavBatch: state and construction *)

(** One element of the list [_get_obs] returns. *)
Record observation {W : Collaborators} : Type := {
  ob_instr_id : string;
  ob_scan : string;
  ob_viewpoint : string;
  ob_viewIndex : Z;
  ob_position : Q * Q * Q;
  ob_heading : Q;
  ob_elevation : Q;
  ob_feature : list fvec;
  ob_candidate : list (candidate Q fvec);
  ob_navigableLocations : list string;
  ob_instruction : string;
  ob_gt_path : list string;
  ob_path_id : pyval;
  ob_distance : Q;
}.

Section NavBatch.
Context {W : Collaborators}.

(** The attributes of an [R2RNavBatch].  Those below [server_path] are
    assigned by [__init__] only outside real-world mode; [batch] is assigned
    by [_next_minibatch]; [obj2vps] is read by [_eval_item] and assigned by
    no method of the class. *)
Record R2RNavBatch : Type := {
  env : EnvBatch;
  data : list episode;
  scans : gset string;
  connectivity_dir : string;
  batch_size : Z;
  angle_feat_size : Z;
  name : pyval;
  real_world : bool;
  server_path : pyval;
  gt_trajs : attr (gmap string (string * list string * pyval));
  seed : attr Z;
  ix : attr Z;
  graphs : attr (gmap string Graph);
  shortest_paths : attr (gmap string path_table);
  shortest_distances : attr (gmap string dist_table);
  candidates_dict : attr (gmap string (cand_table Q));
  batch : attr (list episode);
  obj2vps : attr (option (gmap string (list string)));
}.

(** [self.env = e] *)
Definition set_env (self : R2RNavBatch) (e : EnvBatch) : R2RNavBatch :=
  {| env := e; data := data self; scans := scans self;
     connectivity_dir := connectivity_dir self; batch_size := batch_size self;
     angle_feat_size := angle_feat_size self; name := name self;
     real_world := real_world self; server_path := server_path self;
     gt_trajs := gt_trajs self; seed := seed self; ix := ix self;
     graphs := graphs self; shortest_paths := shortest_paths self;
     shortest_distances := shortest_distances self;
     candidates_dict := candidates_dict self; batch := batch self;
     obj2vps := obj2vps self |}.

(** [self.data = d; self.ix = i] *)
Definition set_cursor (self : R2RNavBatch) (d : list episode) (i : Z) : R2RNavBatch :=
  {| env := env self; data := d; scans := scans self;
     connectivity_dir := connectivity_dir self; batch_size := batch_size self;
     angle_feat_size := angle_feat_size self; name := name self;
     real_world := real_world self; server_path := server_path self;
     gt_trajs := gt_trajs self; seed := seed self; ix := Some i;
     graphs := graphs self; shortest_paths := shortest_paths self;
     shortest_distances := shortest_distances self;
     candidates_dict := candidates_dict self; batch := batch self;
     obj2vps := obj2vps self |}.

(** [self.batch = b] *)
Definition set_batch (self : R2RNavBatch) (b : list episode) : R2RNavBatch :=
  {| env := env self; data := data self; scans := scans self;
     connectivity_dir := connectivity_dir self; batch_size := batch_size self;
     angle_feat_size := angle_feat_size self; name := name self;
     real_world := real_world self; server_path := server_path self;
     gt_trajs := gt_trajs self; seed := seed self; ix := ix self;
     graphs := graphs self; shortest_paths := shortest_paths self;
     shortest_distances := shortest_distances self;
     candidates_dict := candidates_dict self; batch := Some b;
     obj2vps := obj2vps self |}.

(** [self.graphs], [self.shortest_paths], [self.shortest_distances] *)
Definition set_tables (self : R2RNavBatch) (g : gmap string Graph) : R2RNavBatch :=
  {| env := env self; data := data self; scans := scans self;
     connectivity_dir := connectivity_dir self; batch_size := batch_size self;
     angle_feat_size := angle_feat_size self; name := name self;
     real_world := real_world self; server_path := server_path self;
     gt_trajs := gt_trajs self; seed := seed self; ix := ix self;
     graphs := Some g;
     shortest_paths := Some (all_pairs_dijkstra_path <$> g);
     shortest_distances := Some (all_pairs_dijkstra_path_length <$> g);
     candidates_dict := candidates_dict self; batch := batch self;
     obj2vps := obj2vps self |}.

(** The dict comprehension of [_get_gt_trajs]: a later record with the same
    [instr_id] replaces an earlier one. *)
Definition _get_gt_trajs (rw : bool) (d : list episode)
    : gmap string (string * list string * pyval) :=
  if rw then ∅
  else foldl (fun m x => <[ep_instr_id x := (ep_scan x, ep_path x, dict_get (ep_objId x))]> m) ∅ d.

Definition _load_nav_graphs (self : R2RNavBatch) : result R2RNavBatch :=
  if real_world self then Ok self
  else
    g <- call (load_nav_graphs (connectivity_dir self) (scans self)) ;;
    Ok (set_tables self g).

(** The validation split [self.data[start_idx: end_idx]]. *)
Definition split_data (d : list episode) (sel_data_idxs : option (Z * Z)) : result (list episode) :=
  match sel_data_idxs with
  | None => Ok d
  | Some (t_split, n_splits) =>
      if n_splits =? 0 then Raise ZeroDivisionError
      else
        let ndata_per_split := Z.of_nat (length d) / n_splits in
        let start_idx := ndata_per_split * t_split in
        let end_idx := if t_split =? n_splits - 1 then None
                       else Some (start_idx + ndata_per_split) in
        Ok (py_slice d (Some start_idx) end_idx)
  end.

(** [R2RNavBatch.__init__]; [g] is the state of the [random] module. *)
Definition init (g : RandomState) (view_db : string -> string -> outcome (list fvec))
    (instr_data : list episode) (conn_dir candidate_file_dir : string)
    (bsize afs sd : Z) (nm : pyval) (sel_data_idxs : option (Z * Z))
    (rw : bool) (sp : pyval) : result (RandomState * R2RNavBatch) :=
  e <- EnvBatch_init conn_dir None view_db bsize ;;
  let self0 :=
    {| env := e; data := instr_data; scans := list_to_set (ep_scan <$> instr_data);
       connectivity_dir := conn_dir; batch_size := bsize; angle_feat_size := afs;
       name := nm; real_world := rw; server_path := sp;
       gt_trajs := None; seed := None; ix := None; graphs := None;
       shortest_paths := None; shortest_distances := None;
       candidates_dict := None; batch := None; obj2vps := None |} in
  if negb rw then
    let trajs := _get_gt_trajs rw instr_data in
    d <- split_data instr_data sel_data_idxs ;;
    let gd := random_shuffle (random_seed sd g) d in
    let self1 :=
      {| env := e; data := snd gd; scans := scans self0;
         connectivity_dir := conn_dir; batch_size := bsize; angle_feat_size := afs;
         name := nm; real_world := rw; server_path := sp;
         gt_trajs := Some trajs; seed := Some sd; ix := Some 0; graphs := None;
         shortest_paths := None; shortest_distances := None;
         candidates_dict := None; batch := None; obj2vps := None |} in
    self2 <- _load_nav_graphs self1 ;;
    c <- call (json_load candidate_file_dir) ;;
    Ok (fst gd,
        {| env := env self2; data := data self2; scans := scans self2;
           connectivity_dir := connectivity_dir self2; batch_size := batch_size self2;
           angle_feat_size := angle_feat_size self2; name := name self2;
           real_world := real_world self2; server_path := server_path self2;
           gt_trajs := gt_trajs self2; seed := seed self2; ix := ix self2;
           graphs := graphs self2; shortest_paths := shortest_paths self2;
           shortest_distances := shortest_distances self2;
           candidates_dict := Some c; batch := batch self2;
           obj2vps := obj2vps self2 |})
  else Ok (g, self0).

(** ** BatchedEpisodeOrchestrator: cursor, observations, reset and step *)

(** [_next_minibatch(batch_size=None)]; returns the state of [random] and
    the updated object. *)
Definition _next_minibatch (g : RandomState) (self : R2RNavBatch) (requested : option Z)
    : result (RandomState * R2RNavBatch) :=
  let bs := match requested with None => batch_size self | Some b => b end in
  let bs := if real_world self then 1 else bs in
  i <- getattr "ix" (ix self) ;;
  let b := py_slice (data self) (Some i) (Some (i + bs)) in
  if Z.of_nat (length b) <? bs then
    let gd := random_shuffle g (data self) in
    let i' := bs - Z.of_nat (length b) in
    let b' := b ++ py_slice (snd gd) None (Some i') in
    Ok (fst gd, set_batch (set_cursor self (snd gd) i') b')
  else
    Ok (g, set_batch (set_cursor self (data self) (i + bs)) b).

Definition reset_epoch (g : RandomState) (self : R2RNavBatch) (shuffle : bool)
    : RandomState * R2RNavBatch :=
  let gd := if shuffle then random_shuffle g (data self) else (g, data self) in
  (fst gd, set_cursor self (snd gd) 0).

(** [make_candidate(feature, scanId, viewpointId, viewId)] *)
Definition make_candidate (self : R2RNavBatch) (feature : list fvec)
    (scan vp : string) (viewId : Z) : result (list (candidate Q fvec)) :=
  let long_id := scan +:+ "_" +:+ vp in
  cd <- getattr "candidates_dict" (candidates_dict self) ;;
  table <- getitem cd long_id ;;
  candidate_loop (arith := Q_arith) feature scan viewId table.

(** The body of the loop of [_get_obs] for slot [i]. *)
Definition get_ob (self : R2RNavBatch) (i : Z) (feature : list fvec) (state : sim_state)
    : result observation :=
  b <- getattr "batch" (batch self) ;;
  item <- py_index b i ;;
  cands <- make_candidate self feature (scanId state) (viewpointId (st_location state))
             (viewIndex state) ;;
  trajs <- getattr "gt_trajs" (gt_trajs self) ;;
  d <- (if bool_decide (is_Some (trajs !! ep_instr_id item)) then
          all <- getattr "shortest_distances" (shortest_distances self) ;;
          sd <- getitem all (scanId state) ;;
          row <- getitem sd (viewpointId (st_location state)) ;;
          goal <- py_index (ep_path item) (-1) ;;
          getitem row goal
        else Ok 0%Q) ;;
  Ok {| ob_instr_id := ep_instr_id item;
        ob_scan := scanId state;
        ob_viewpoint := viewpointId (st_location state);
        ob_viewIndex := viewIndex state;
        ob_position := (loc_x (st_location state), loc_y (st_location state),
                        loc_z (st_location state));
        ob_heading := st_heading state;
        ob_elevation := st_elevation state;
        ob_feature := feature;
        ob_candidate := cands;
        ob_navigableLocations := navigableLocations state;
        ob_instruction := ep_instruction item;
        ob_gt_path := ep_path item;
        ob_path_id := dict_get (ep_path_id item);
        ob_distance := d |}.

(** [_get_obs]: in real-world mode the first statement evaluates the
    undefined name [passf]. *)
Definition _get_obs (self : R2RNavBatch) : result (list observation) :=
  _ <- (if real_world self then Raise (NameError "passf") else Ok tt) ;;
  states <- getStates (env self) ;;
  traverse (fun it : Z * (list fvec * sim_state) =>
              get_ob self (fst it) (fst (snd it)) (snd (snd it)))
           (enumerate states).

(** [reset] with its keyword arguments, [requested] being [batch_size] if given. *)
Definition reset (g : RandomState) (self : R2RNavBatch) (requested : option Z)
    : result (RandomState * R2RNavBatch * list observation) :=
  gs <- _next_minibatch g self requested ;;
  let self1 := snd gs in
  b <- getattr "batch" (batch self1) ;;
  let scanIds := ep_scan <$> b in
  viewpointIds <- traverse (fun item => py_index (ep_path item) 0) b ;;
  let headings := ep_heading <$> b in
  e <- newEpisodes (env self1) scanIds viewpointIds headings ;;
  let self2 := set_env self1 e in
  obs <- _get_obs self2 ;;
  Ok (fst gs, self2, obs).

Definition step (self : R2RNavBatch) (actions : list (Z * Q * Q))
    : result (R2RNavBatch * list observation) :=
  e <- makeActions (env self) actions ;;
  let self1 := set_env self e in
  obs <- _get_obs self1 ;;
  Ok (self1, obs).

(** ** TrajectoryEvaluator *)

(** [shortest_distances[a][b]] *)
Definition dist (sd : dist_table) (a b : string) : result Q :=
  row <- getitem sd a ;;
  getitem row b.

(** The loop of [_get_nearest]: a strictly smaller distance replaces the
    point kept so far. *)
Fixpoint nearest_loop (sd : dist_table) (goal_id : string) (path : list string)
    (near_id : string) (near_d : Q) : result string :=
  match path with
  | [] => Ok near_id
  | item :: rest =>
      d <- dist sd item goal_id ;;
      if Qltb d near_d then nearest_loop sd goal_id rest item d
      else nearest_loop sd goal_id rest near_id near_d
  end.

Definition _get_nearest (sd : dist_table) (goal_id : string) (path : list string)
    : result string :=
  near_id <- py_index path 0 ;;
  near_d <- dist sd near_id goal_id ;;
  nearest_loop sd goal_id path near_id near_d.

(** [np.sum([sd[a][b] for a, b in zip(p[:-1], p[1:])])] *)
Definition path_length (sd : dist_table) (p : list string) : result Q :=
  ds <- traverse (fun ab : string * string => dist sd (fst ab) (snd ab))
          (zip (py_slice p None (Some (-1))) (py_slice p (Some 1) None)) ;;
  Ok (np_sum ds).

Definition start_msg : string := "Result trajectories should include the start position".

(** What [_eval_item] has computed when it reaches the choice of the success
    policy: the scan's table, the flattened path, the scores so far and
    [gt_lengths]. *)
Record partial_eval : Type := {
  pe_sd : dist_table;
  pe_path : list string;
  pe_scores : gmap string Q;
  pe_gt_lengths : Q;
}.

(** [_eval_item] up to [gt_lengths]: table lookup, flattening, the start
    assertion and the distance scores. *)
Definition distance_scores (self : R2RNavBatch) (scan : string)
    (pred_path : list (list string)) (gt_path : list string) : result partial_eval :=
  all <- getattr "shortest_distances" (shortest_distances self) ;;
  sd <- getitem all scan ;;
  let path := concat pred_path in
  g0 <- py_index gt_path 0 ;;
  p0 <- py_index path 0 ;;
  if negb (bool_decide (g0 = p0)) then Raise (AssertionError start_msg)
  else
    goal <- py_index gt_path (-1) ;;
    nearest_position <- _get_nearest sd goal path ;;
    last <- py_index path (-1) ;;
    nav_error <- dist sd last goal ;;
    oracle_error <- dist sd nearest_position goal ;;
    trajectory_lengths <- path_length sd path ;;
    gt_lengths <- path_length sd gt_path ;;
    Ok {| pe_sd := sd;
          pe_path := path;
          pe_scores :=
            <["trajectory_lengths" := trajectory_lengths]>
              (<["trajectory_steps" := inject_Z (Z.of_nat (length path) - 1)]>
                 (<["action_steps" := inject_Z (Z.of_nat (length pred_path) - 1)]>
                    (<["oracle_error" := oracle_error]>
                       (<["nav_error" := nav_error]> ∅))));
          pe_gt_lengths := gt_lengths |}.

(** The [if self.obj2vps is None: ... else: ...] of [_eval_item]. *)
Definition success_scores (self : R2RNavBatch) (scan : string) (gt_objid : pyval)
    (path : list string) (scores : gmap string Q) : result (gmap string Q) :=
  o <- getattr "obj2vps" (obj2vps self) ;;
  match o with
  | None =>
      nav_error <- getitem scores "nav_error" ;;
      let scores1 := <["success" := float_of_bool (Qltb nav_error ERROR_MARGIN)]> scores in
      oracle_error <- getitem scores1 "oracle_error" ;;
      Ok (<["oracle_success" := float_of_bool (Qltb oracle_error ERROR_MARGIN)]> scores1)
  | Some table =>
      let key := scan +:+ "_" +:+ py_str gt_objid in
      vps <- getitem table key ;;
      let goal_viewpoints : gset string := list_to_set vps in
      if negb (0 <? size goal_viewpoints)%nat then Raise (AssertionError key)
      else
        last <- py_index path (-1) ;;
        let scores1 :=
          <["success" := float_of_bool (bool_decide (last ∈ goal_viewpoints))]> scores in
        Ok (<["oracle_success" :=
                float_of_bool (existsb (fun x => bool_decide (x ∈ goal_viewpoints)) path)]>
              scores1)
  end.

(** [success * gt_lengths / max(trajectory_lengths, gt_lengths, 0.01)] *)
Definition spl_of (success trajectory_lengths gt_lengths : Q) : Q :=
  (success * gt_lengths / py_max (py_max trajectory_lengths gt_lengths) (1 # 100))%Q.

Definition _eval_item (self : R2RNavBatch) (scan : string)
    (pred_path : list (list string)) (gt_path : list string) (gt_objid : pyval)
    : result (gmap string Q) :=
  pe <- distance_scores self scan pred_path gt_path ;;
  scores <- success_scores self scan gt_objid (pe_path pe) (pe_scores pe) ;;
  success <- getitem scores "success" ;;
  trajectory_lengths <- getitem scores "trajectory_lengths" ;;
  let scores1 := <["spl" := spl_of success trajectory_lengths (pe_gt_lengths pe)]> scores in
  success' <- getitem scores1 "success" ;;
  dtw <- call (cal_dtw (pe_sd pe) (pe_path pe) gt_path success' ERROR_MARGIN) ;;
  let scores2 := dtw ∪ scores1 in
  cls <- call (cal_cls (pe_sd pe) (pe_path pe) gt_path ERROR_MARGIN) ;;
  Ok (<["CLS" := cls]> scores2).

(** [np.mean(l)]: [None] stands for the [nan] numpy returns on an empty list. *)
Definition np_mean (l : list Q) : option Q :=
  match l with
  | [] => None
  | _ => Some (np_sum l / inject_Z (Z.of_nat (length l)))%Q
  end.

(** [metrics[k].append(v)] for every [(k, v)] of one item's scores, [metrics]
    being a [defaultdict(list)]. *)
Definition append_scores (metrics : gmap string (list Q)) (scores : gmap string Q)
    : gmap string (list Q) :=
  merge (fun ol ov => match ov with
                      | Some v => Some (default [] ol ++ [v])
                      | None => ol
                      end) metrics scores.

(** One element of [preds]. *)
Record prediction : Type := {
  pr_instr_id : string;
  pr_trajectory : list (list string);
}.

(** The loop of [eval_metrics]; the ['instr_id'] list is kept beside the
    numeric lists. *)
Definition eval_loop (self : R2RNavBatch) (preds : list prediction)
    : result (gmap string (list Q) * list string) :=
  for_each (fun (acc : gmap string (list Q) * list string) item =>
              trajs <- getattr "gt_trajs" (gt_trajs self) ;;
              gt <- getitem trajs (pr_instr_id item) ;;
              let '(scan, gt_traj, gt_objid) := gt in
              traj_scores <- _eval_item self scan (pr_trajectory item) gt_traj gt_objid ;;
              Ok (append_scores (fst acc) traj_scores, snd acc ++ [pr_instr_id item]))
           preds (∅, []).

(** [np.mean(metrics[k])] and [np.mean(metrics[k]) * 100] *)
Definition mean_of (metrics : gmap string (list Q)) (k : string) : option Q :=
  np_mean (default [] (metrics !! k)).

Definition rate_of (metrics : gmap string (list Q)) (k : string) : option Q :=
  (fun m => (m * 100)%Q) <$> mean_of metrics k.

Definition eval_metrics (self : R2RNavBatch) (preds : list prediction)
    : result (gmap string (option Q) * (gmap string (list Q) * list string)) :=
  metrics <- eval_loop self preds ;;
  let m := fst metrics in
  let avg_metrics : gmap string (option Q) :=
    <["CLS" := rate_of m "CLS"]>
      (<["SDTW" := rate_of m "SDTW"]>
         (<["nDTW" := rate_of m "nDTW"]>
            (<["spl" := rate_of m "spl"]>
               (<["oracle_sr" := rate_of m "oracle_success"]>
                  (<["sr" := rate_of m "success"]>
                     (<["oracle_error" := mean_of m "oracle_error"]>
                        (<["nav_error" := mean_of m "nav_error"]>
                           (<["lengths" := mean_of m "trajectory_lengths"]>
                              (<["steps" := mean_of m "trajectory_steps"]>
                                 (<["action_steps" := mean_of m "action_steps"]> ∅)))))))))) in
  Ok (avg_metrics, metrics).

End NavBatch.

(** ** Notions used in the statements *)

Section Notions.
Context {W : Collaborators}.

(** A caller's [env.obj2vps = v] from outside the class: [None] selects the
    single-goal policy, a table the multi-goal one. *)
Definition assign_obj2vps (self : R2RNavBatch) (v : option (gmap string (list string)))
    : R2RNavBatch :=
  {| env := env self; data := data self; scans := scans self;
     connectivity_dir := connectivity_dir self; batch_size := batch_size self;
     angle_feat_size := angle_feat_size self; name := name self;
     real_world := real_world self; server_path := server_path self;
     gt_trajs := gt_trajs self; seed := seed self; ix := ix self;
     graphs := graphs self; shortest_paths := shortest_paths self;
     shortest_distances := shortest_distances self;
     candidates_dict := candidates_dict self; batch := batch self;
     obj2vps := Some v |}.

(** The states an [R2RNavBatch] goes through when only the methods of the
    class act on it, from its construction on. *)
Inductive reachable : R2RNavBatch -> Prop :=
| reach_init g view_db instr_data conn cand bsize afs sd nm sel rw sp g' self :
    init g view_db instr_data conn cand bsize afs sd nm sel rw sp = Ok (g', self) ->
    reachable self
| reach_load_nav_graphs self self' :
    reachable self -> _load_nav_graphs self = Ok self' -> reachable self'
| reach_next_minibatch g self requested g' self' :
    reachable self -> _next_minibatch g self requested = Ok (g', self') -> reachable self'
| reach_reset_epoch g self shuffle :
    reachable self -> reachable (snd (reset_epoch g self shuffle))
| reach_reset g self requested g' self' obs :
    reachable self -> reset g self requested = Ok (g', self', obs) -> reachable self'
| reach_step self actions self' obs :
    reachable self -> step self actions = Ok (self', obs) -> reachable self'.

(** The path length as the design document words it: the sum of the
    shortest-path distances between consecutive viewpoints. *)
Fixpoint consecutive_sum (sd : dist_table) (p : list string) : result Q :=
  match p with
  | a :: (b :: _) as rest =>
      d <- dist sd a b ;;
      s <- consecutive_sum sd rest ;;
      Ok (d + s)%Q
  | _ => Ok 0%Q
  end.

(** The keys [_eval_item] has written before it merges the result of
    [cal_dtw] into [scores]. *)
Definition own_keys : list string :=
  ["nav_error"; "oracle_error"; "action_steps"; "trajectory_steps";
   "trajectory_lengths"; "success"; "oracle_success"; "spl"].

(** [cal_dtw] returns DTW scores only: none of the keys already in [scores]. *)
Definition dtw_keys_fresh : Prop :=
  forall sd p g s t m k, cal_dtw sd p g s t = Done m -> k ∈ own_keys -> m !! k = None.

(** Every distance of the scan's table is non-negative, as Dijkstra's
    algorithm yields on non-negative edge weights. *)
Definition nonneg_distances (self : R2RNavBatch) (scan : string) : Prop :=
  forall all sd a row b d,
    shortest_distances self = Some all -> all !! scan = Some sd ->
    sd !! a = Some row -> row !! b = Some d -> (0 <= d)%Q.

(** [random.shuffle] permutes its argument. *)
Definition shuffle_permutes : Prop :=
  forall g l, snd (random_shuffle g l) ≡ₚ l.

End Notions.

(** ** Further notions of the statements *)

(** [dv] is the distance of position [i] to the goal, it is minimal among
    the first [n] positions of [path] and strictly smaller than every
    position before [i]. *)
Definition first_min_upto (sd : dist_table) (goal : string) (path : list string)
    (n i : nat) (dv : Q) : Prop :=
  forall j x dx, (j < n)%nat -> path !! j = Some x -> dist sd x goal = Ok dx ->
    (dv <= dx)%Q /\ ((j < i)%nat -> (dv < dx)%Q).

(** Does [s] contain the character [c]? *)
Fixpoint has_char (c : Ascii.ascii) (s : string) : bool :=
  match s with
  | EmptyString => false
  | String c' rest => Ascii.eqb c c' || has_char c rest
  end.

(** Every pair of the listed viewpoints has a distance in the table. *)
Definition covers (sd : dist_table) (vs : list string) : Prop :=
  forall a b, a ∈ vs -> b ∈ vs -> exists d, dist sd a b = Ok d.

(** The batch size [_next_minibatch] works with. *)
Definition effective_batch_size {W : Collaborators} (self : R2RNavBatch)
    (requested : option Z) : Z :=
  if real_world self then 1 else default (batch_size self) requested.

(** [n] successive [_next_minibatch] calls, with the batches they stored. *)
Fixpoint draw {W : Collaborators} (n : nat) (g : RandomState) (self : R2RNavBatch)
    (requested : option Z) : result (RandomState * R2RNavBatch * list (list episode)) :=
  match n with
  | O => Ok (g, self, [])
  | S n' =>
      gs <- _next_minibatch g self requested ;;
      b <- getattr "batch" (batch (snd gs)) ;;
      r <- draw n' (fst gs) (snd gs) requested ;;
      Ok (fst (fst r), snd (fst r), b :: snd r)
  end.

(** ** A small world to run the model in *)

Module Demo.

(** A simulator that teleports: its state is the pose of the last episode
    started, action [index] moves to the viewpoint named by the caller's
    table [moves]. *)
Definition pose (scan vp : string) (heading : Q) : sim_state :=
  {| scanId := scan;
     st_location := {| viewpointId := vp; loc_x := 0; loc_y := 0; loc_z := 0 |};
     viewIndex := 12; st_heading := heading; st_elevation := 0;
     navigableLocations := [] |}.

Definition world (tables : gmap string dist_table)
    (cands : gmap string (cand_table Q)) : Collaborators :=
  {| Simulator := sim_state;
     fvec := Z;
     Graph := dist_table;
     RandomState := unit;
     Simulator_init := fun _ _ _ _ _ => Done (pose "" "" 0);
     sim_newEpisode := fun _ scan vp heading => Done (pose scan vp heading);
     sim_getState := fun s => Done s;
     sim_makeAction := fun s _ heading elevation => Done s;
     load_nav_graphs := fun _ _ => Done tables;
     all_pairs_dijkstra_path := fun _ => ∅;
     all_pairs_dijkstra_path_length := fun g => g;
     json_load := fun _ => Done cands;
     random_seed := fun _ g => g;
     random_shuffle := fun g l => (g, rev l);
     math_radians := fun x => (x * (355 # 113) / 180)%Q;
     cal_dtw := fun _ _ _ success _ => Done {[ "nDTW" := 1%Q; "SDTW" := success ]};
     cal_cls := fun _ _ _ _ => Done 1%Q |}.

(** Scan S1: viewpoints A - B - C in a line, both edges of weight 1. *)
Definition line : dist_table :=
  {[ "A" := {[ "A" := 0%Q; "B" := 1%Q; "C" := 2%Q ]};
     "B" := {[ "A" := 1%Q; "B" := 0%Q; "C" := 1%Q ]};
     "C" := {[ "A" := 2%Q; "B" := 1%Q; "C" := 0%Q ]} ]}.

(** Scan S2: A - B of weight 3. *)
Definition far : dist_table :=
  {[ "A" := {[ "A" := 0%Q; "B" := 3%Q ]};
     "B" := {[ "A" := 3%Q; "B" := 0%Q ]} ]}.

(** Scan S3: A - B of weight 0.005. *)
Definition close : dist_table :=
  {[ "A" := {[ "A" := 0%Q; "B" := (1 # 200)%Q ]};
     "B" := {[ "A" := (1 # 200)%Q; "B" := 0%Q ]} ]}.

Definition tables : gmap string dist_table :=
  {[ "S1" := line; "S2" := far; "S3" := close ]}.

Definition entry (point feat : Z) (h e : Q) : cand_entry Q :=
  {| v_pointId := point; v_featureId := feat; v_distance := 1%Q;
     v_heading := h; v_elevation := e; v_position := [0%Q; 0%Q; 0%Q] |}.

Definition cands : gmap string (cand_table Q) :=
  {[ "S1_A" := [("B", entry 13 1 (1 # 2)%Q 0%Q)];
     "S1_B" := [("A", entry 19 2 3%Q 0%Q); ("C", entry 13 0 (1 # 10)%Q (1 # 5)%Q)];
     "S1_C" := [("B", entry 19 1 3%Q 0%Q)];
     "S2_A" := [("B", entry 12 0 0%Q 0%Q)];
     "S2_B" := [("A", entry 18 0 3%Q 0%Q)];
     "S3_A" := [("B", entry 12 0 0%Q 0%Q)];
     "S3_B" := [("A", entry 18 0 3%Q 0%Q)] ]}.

#[export] Instance demo_world : Collaborators := world tables cands.

Definition view_db (scan vp : string) : outcome (list Z) := Done [100; 101; 102].

Definition record (id scan : string) (p : list string) (obj : option pyval) : episode :=
  {| ep_instr_id := id; ep_scan := scan; ep_path := p; ep_heading := 0;
     ep_instruction := "go"; ep_objId := obj; ep_path_id := None |}.

Definition dataset : list episode :=
  [record "r1" "S1" ["A"; "B"; "C"] None;
   record "r2" "S2" ["A"; "B"] None;
   record "r3" "S3" ["A"; "B"] (Some (PyInt 7))].

(** [R2RNavBatch(view_db, dataset, ..., batch_size=bsize, real_world=rw)] *)
Definition construct (d : list episode) (bsize : Z) (rw : bool)
    : result (unit * R2RNavBatch) :=
  init tt view_db d "connectivity" "candidates.json" bsize 4 0 PyNone None rw PyNone.

End Demo.

(** ** Running the model *)

(** A boolean check of [nonneg_distances] on one table. *)
Definition nonneg_table (sd : dist_table) : bool :=
  forallb (fun a_row : string * gmap string Q =>
             forallb (fun b_d : string * Q => Qle_bool 0 (snd b_d)) (map_to_list (snd a_row)))
          (map_to_list sd).

(** The value of a result known to be there, [d] otherwise. *)
Definition value {A} (d : A) (r : result A) : A :=
  match r with Ok a => a | Raise _ => d end.

Module Run.
Import Demo.

Definition blank : R2RNavBatch :=
  {| env := {| feat_db := view_db; image_w := 0; image_h := 0; vfov := 0; sims := [] |};
     data := []; scans := ∅; connectivity_dir := ""; batch_size := 0;
     angle_feat_size := 0; name := PyNone; real_world := false; server_path := PyNone;
     gt_trajs := None; seed := None; ix := None; graphs := None;
     shortest_paths := None; shortest_distances := None;
     candidates_dict := None; batch := None; obj2vps := None |}.

(** The object [construct d bsize rw] returns. *)
Definition built (d : list episode) (bsize : Z) (rw : bool) : R2RNavBatch :=
  match construct d bsize rw with Ok (_, s) => s | Raise _ => blank end.

(** A fresh simulated instance over the three-record dataset, and the same
    after a caller's [obj2vps = None] or [obj2vps = goals]. *)
Definition fresh : R2RNavBatch := built dataset 2 false.
Definition single_goal : R2RNavBatch := assign_obj2vps fresh None.
Definition goals : gmap string (list string) :=
  {[ "S1_7" := ["C"; "D"]; "S1_None" := [] ]}.
Definition multi_goal : R2RNavBatch := assign_obj2vps fresh (Some goals).

(** Ten records on scan S1. *)
Definition ten : list episode :=
  (fun k : nat => record ("t" +:+ pretty k) "S1" ["A"; "B"] None) <$> seq 0 10.

(** The scores of one evaluation, empty when it raised. *)
Definition scores_of (self : R2RNavBatch) (scan : string) (pred_path : list (list string))
    (gt_path : list string) (gt_objid : pyval) : gmap string Q :=
  value ∅ (_eval_item self scan pred_path gt_path gt_objid).

(** Three successive [reset] calls, with the number of observations of each. *)
Definition three_resets (self : R2RNavBatch) : result (list nat * attr Z) :=
  r1 <- reset tt self None ;;
  r2 <- reset tt (snd (fst r1)) None ;;
  r3 <- reset tt (snd (fst r2)) None ;;
  Ok ([length (snd r1); length (snd r2); length (snd r3)], ix (snd (fst r3))).

(** A candidate entry in binary64: heading 0.1 (the nearest double) and
    elevation 0.5. *)
Definition float_entry : cand_entry float :=
  {| v_pointId := 12; v_featureId := 0; v_distance := 1%float;
     v_heading := 0x1.999999999999ap-4%float; v_elevation := 0.5%float;
     v_position := [] |}.

End Run.

(** ** Methods and notions of the further properties *)

(** The character ['_'] that joins the two parts of an id. *)
Definition underscore : Ascii.ascii := Ascii.Ascii true true true true true false true false.

(** [EnvBatch._make_id(scanId, viewpointId)] *)
Definition _make_id (scan vp : string) : string := scan +:+ "_" +:+ vp.

(** [R2RNavBatch.size()], named so as not to hide stdpp's [size]. *)
Definition R2RNavBatch_size {W : Collaborators} (self : R2RNavBatch) : Z :=
  Z.of_nat (length (data self)).

(** The validation splits [0, ..., n_splits - 1] of one dataset, as
    [__init__] cuts them in the processes of one evaluation. *)
Definition all_splits (d : list episode) (n_splits : Z) : result (list (list episode)) :=
  traverse (fun t_split => split_data d (Some (t_split, n_splits))) (py_range n_splits).

(** What [_get_gt_trajs] stores for one record. *)
Definition gt_entry (x : episode) : string * list string * pyval :=
  (ep_scan x, ep_path x, dict_get (ep_objId x)).

(** Sequences of calls of the public methods on a constructed instance. *)
Inductive calls {W : Collaborators} : R2RNavBatch -> R2RNavBatch -> Prop :=
| calls_none self : calls self self
| calls_next_minibatch g self0 self requested g' self' :
    calls self0 self -> _next_minibatch g self requested = Ok (g', self') -> calls self0 self'
| calls_reset_epoch g self0 self shuffle :
    calls self0 self -> calls self0 (snd (reset_epoch g self shuffle))
| calls_reset g self0 self requested g' self' obs :
    calls self0 self -> reset g self requested = Ok (g', self', obs) -> calls self0 self'
| calls_step self0 self actions self' obs :
    calls self0 self -> step self actions = Ok (self', obs) -> calls self0 self'.

(** Every record of the dataset and of the current batch has its
    ground-truth trajectory stored. *)
Definition ids_known {W : Collaborators} (self : R2RNavBatch) : Prop :=
  forall trajs, gt_trajs self = Some trajs ->
    (forall x, x ∈ data self -> is_Some (trajs !! ep_instr_id x)) /\
    (forall b x, batch self = Some b -> x ∈ b -> is_Some (trajs !! ep_instr_id x)).

(** [-len(l) <= i < len(l)]: the indices Python accepts on [l]. *)
Definition index_in_range {A} (l : list A) (i : Z) : Prop :=
  - Z.of_nat (length l) <= i < Z.of_nat (length l).

(** ** Further runs of the small world *)

Module Play.
Import Demo.

(** Two idle simulators behind the demo feature store. *)
Definition slots : EnvBatch :=
  {| feat_db := view_db; image_w := 640; image_h := 480; vfov := 60;
     sims := [pose "" "" 0; pose "" "" 0] |}.

(** The first [reset] of the fresh instance: the instance and the
    observations it leaves. *)
Definition first_reset : unit * R2RNavBatch * list observation :=
  value (tt, Run.blank, []) (reset tt Run.fresh None).
Definition after_reset : R2RNavBatch := snd (fst first_reset).
Definition first_obs : list observation := snd first_reset.

(** Two predictions on the three-record dataset: the reference path of
    [r1], and an agent that never leaves the start of [r2]. *)
Definition preds : list prediction :=
  [{| pr_instr_id := "r1"; pr_trajectory := [["A"]; ["B"; "C"]] |};
   {| pr_instr_id := "r2"; pr_trajectory := [["A"]] |}].

End Play.

(** ** Proof steps *)

(** Membership in [own_keys], and lookups in a dict built by assignments to
    distinct literal keys. *)
Ltac own_key := unfold own_keys; repeat constructor.
Ltac map_lookup :=
  repeat first [ rewrite lookup_insert_eq | rewrite lookup_insert_ne by discriminate ].
Ltac map_lookup_in H :=
  repeat first [ rewrite lookup_insert_eq in H | rewrite lookup_insert_ne in H by discriminate ].

(** The statements that cannot raise an assertion. *)
Create HintDb no_assert.

(** * Properties *)

(** ** The error monad and the Python primitives *)

Lemma rbind_ok {A B} (r : result A) (k : A -> result B) (b : B) :
  rbind r k = Ok b <-> exists a, r = Ok a /\ k a = Ok b.
Proof.
  destruct r as [a|e]; simpl; split.
  - intros Hk. exists a. auto.
  - intros (a' & Ha & Hk). congruence.
  - discriminate.
  - intros (a' & Ha & _). discriminate.
Qed.

Lemma rbind_raise {A B} (r : result A) (k : A -> result B) (e : pyerr) :
  rbind r k = Raise e <-> r = Raise e \/ exists a, r = Ok a /\ k a = Raise e.
Proof.
  destruct r as [a|e']; simpl; split.
  - intros Hk. right. exists a. auto.
  - intros [Hr | (a' & Ha & Hk)]; congruence.
  - intros [= ->]. left. reflexivity.
  - intros [[= ->] | (a' & Ha & _)]; [reflexivity | discriminate].
Qed.

Lemma getattr_ok {A} (n : string) (a : attr A) (v : A) :
  getattr n a = Ok v <-> a = Some v.
Proof. destruct a; simpl; split; congruence. Qed.

Lemma getitem_ok {V} (d : gmap string V) (k : string) (v : V) :
  getitem d k = Ok v <-> d !! k = Some v.
Proof. unfold getitem. destruct (d !! k); split; congruence. Qed.

Lemma call_ok {A} (o : outcome A) (a : A) : call o = Ok a <-> o = Done a.
Proof. destruct o; simpl; split; congruence. Qed.

Lemma call_raise {A} (o : outcome A) (e : pyerr) :
  call o = Raise e -> exists what, e = CollaboratorError what.
Proof. destruct o; simpl; [discriminate|]. intros [= <-]. eauto. Qed.

Lemma py_index_first {A} (l : list A) (x : A) :
  py_index l 0 = Ok x <-> head l = Some x.
Proof.
  unfold py_index. destruct l as [|y l]; simpl.
  - split; discriminate.
  - split; congruence.
Qed.

Lemma py_index_last {A} (l : list A) (x : A) :
  py_index l (-1) = Ok x <-> last l = Some x.
Proof.
  unfold py_index. change (-1 <? 0) with true. cbv iota.
  destruct (decide (l = [])) as [->|Hne].
  - simpl. split; discriminate.
  - assert (Hlen : (0 < length l)%nat) by (destruct l; simpl; [congruence | lia]).
    replace ((0 <=? -1 + Z.of_nat (length l)) && (-1 + Z.of_nat (length l) <? Z.of_nat (length l)))
      with true by (symmetry; apply andb_true_iff; split; [apply Z.leb_le | apply Z.ltb_lt]; lia).
    replace (Z.to_nat (-1 + Z.of_nat (length l))) with (pred (length l)) by lia.
    rewrite <- last_lookup.
    destruct (last l); split; congruence.
Qed.

Lemma py_index_nonempty {A} (l : list A) (i : Z) (x : A) :
  py_index l i = Ok x -> l <> [].
Proof. intros H ->. unfold py_index in H. simpl in H. destruct (i <? 0), i; discriminate. Qed.

Lemma py_index_elem {A} (l : list A) (i : Z) (x : A) :
  py_index l i = Ok x -> x ∈ l.
Proof.
  unfold py_index. intros H.
  destruct ((0 <=? _) && _); [|discriminate].
  destruct (l !! _) eqn:Hl; [|discriminate].
  injection H as <-. eapply list_elem_of_lookup_2. exact Hl.
Qed.

Lemma Qltb_lt (x y : Q) : Qltb x y = true <-> (x < y)%Q.
Proof. unfold Qltb, Qlt. apply Z.ltb_lt. Qed.

Lemma Qltb_ge (x y : Q) : Qltb x y = false <-> (y <= x)%Q.
Proof. unfold Qltb, Qle. apply Z.ltb_ge. Qed.

Lemma traverse_length {A B} (f : A -> result B) (l : list A) (ys : list B) :
  traverse f l = Ok ys -> length ys = length l.
Proof.
  revert ys. induction l as [|x l IH]; simpl; intros ys H.
  - injection H as <-. reflexivity.
  - apply rbind_ok in H. destruct H as (y & Hy & H).
    apply rbind_ok in H. destruct H as (ys' & Hys & H).
    injection H as <-. simpl. f_equal. eauto.
Qed.

Lemma traverse_lookup {A B} (f : A -> result B) (l : list A) (ys : list B) (i : nat) (x : A) :
  traverse f l = Ok ys -> l !! i = Some x -> exists y, ys !! i = Some y /\ f x = Ok y.
Proof.
  revert ys i. induction l as [|x' l IH]; simpl; intros ys i H Hi.
  - discriminate.
  - apply rbind_ok in H. destruct H as (y & Hy & H).
    apply rbind_ok in H. destruct H as (ys' & Hys & H).
    injection H as <-. destruct i as [|i]; simpl in *.
    + injection Hi as ->. eauto.
    + eauto.
Qed.

Lemma traverse_total {A B} (f : A -> result B) (l : list A) :
  (forall x, x ∈ l -> exists y, f x = Ok y) -> exists ys, traverse f l = Ok ys.
Proof.
  induction l as [|x l IH]; simpl; intros Hf.
  - eauto.
  - destruct (Hf x) as [y Hy]; [left|].
    destruct IH as [ys Hys]; [intros z Hz; apply Hf; right; exact Hz|].
    rewrite Hy, Hys. simpl. eauto.
Qed.

(** ** Nearest point on a path *)

Section Nearest.
Context (sd : dist_table) (goal : string).

Lemma nearest_loop_spec (rest pre : list string) (near_id : string) (near_d : Q) (i : nat) :
  (forall x, x ∈ rest -> exists d, dist sd x goal = Ok d) ->
  (pre ++ rest) !! i = Some near_id ->
  dist sd near_id goal = Ok near_d ->
  (i <= length pre)%nat ->
  first_min_upto sd goal (pre ++ rest) (length pre) i near_d ->
  exists i' v dv,
    nearest_loop sd goal rest near_id near_d = Ok v /\
    (pre ++ rest) !! i' = Some v /\
    dist sd v goal = Ok dv /\
    first_min_upto sd goal (pre ++ rest) (length (pre ++ rest)) i' dv.
Proof.
  revert pre near_id near_d i.
  induction rest as [|item rest IH]; intros pre near_id near_d i Hdef Hi Hd Hle Hmin.
  - exists i, near_id, near_d. rewrite app_nil_r in *. simpl. auto.
  - destruct (Hdef item) as [d Hitem]; [left|].
    simpl. rewrite Hitem. simpl.
    assert (Hsplit : pre ++ item :: rest = (pre ++ [item]) ++ rest)
      by (rewrite <- app_assoc; reflexivity).
    assert (Hat : (pre ++ item :: rest) !! length pre = Some item)
      by (rewrite lookup_app_r, Nat.sub_diag by lia; reflexivity).
    rewrite Hsplit in *.
    assert (Hrest : forall x, x ∈ rest -> exists d', dist sd x goal = Ok d')
      by (intros x Hx; apply Hdef; right; exact Hx).
    destruct (Qltb d near_d) eqn:Hlt.
    + apply Qltb_lt in Hlt.
      apply (IH (pre ++ [item]) item d (length pre)); auto.
      * rewrite length_app. simpl. lia.
      * intros j x dx Hj Hx Hdx. rewrite length_app in Hj. simpl in Hj.
        destruct (decide (j = length pre)) as [->|Hne].
        -- rewrite Hat in Hx. injection Hx as <-.
           rewrite Hitem in Hdx. injection Hdx as <-.
           split; [apply Qle_refl | lia].
        -- destruct (Hmin j x dx) as [Hle' _]; [lia | exact Hx | exact Hdx |].
           assert (d < dx)%Q by (eapply Qlt_le_trans; eauto).
           split; [apply Qlt_le_weak|]; auto.
    + apply Qltb_ge in Hlt.
      apply (IH (pre ++ [item]) near_id near_d i); auto.
      * rewrite length_app. simpl. lia.
      * intros j x dx Hj Hx Hdx. rewrite length_app in Hj. simpl in Hj.
        destruct (decide (j = length pre)) as [->|Hne].
        -- rewrite Hat in Hx. injection Hx as <-.
           rewrite Hitem in Hdx. injection Hdx as <-.
           split; [exact Hlt | lia].
        -- apply (Hmin j x dx); [lia | exact Hx | exact Hdx].
Qed.

End Nearest.

(** C8. For a non-empty path all of whose viewpoints have a distance to the
    goal in the scan's table, [_get_nearest] returns a viewpoint [v] of the
    path, at some position [i], whose distance to the goal is at most that
    of every viewpoint of the path and strictly below that of every
    viewpoint before position [i]: the first occurrence of the minimum. *)
Theorem get_nearest_first_minimum (sd : dist_table) (goal : string) (path : list string) :
  path <> [] ->
  (forall x, x ∈ path -> exists d, dist sd x goal = Ok d) ->
  exists i v dv,
    _get_nearest sd goal path = Ok v /\
    path !! i = Some v /\
    dist sd v goal = Ok dv /\
    forall j x dx, path !! j = Some x -> dist sd x goal = Ok dx ->
      (dv <= dx)%Q /\ ((j < i)%nat -> (dv < dx)%Q).
Proof.
  intros Hne Hdef.
  destruct path as [|p0 rest]; [congruence|].
  destruct (Hdef p0) as [d0 Hd0]; [left|].
  destruct (nearest_loop_spec sd goal (p0 :: rest) [] p0 d0 0%nat) as (i & v & dv & Hrun & Hi & Hdv & Hmin);
    auto.
  - intros j x dx Hj. simpl in Hj. lia.
  - exists i, v, dv. unfold _get_nearest.
    assert (H0 : py_index (p0 :: rest) 0 = Ok p0) by (apply py_index_first; reflexivity).
    rewrite H0. simpl rbind. rewrite Hd0. simpl rbind.
    simpl app in *.
    split; [revert Hrun; simpl; rewrite Hd0; simpl; auto|].
    split; [exact Hi|]. split; [exact Hdv|].
    intros j x dx Hx Hdx. apply (Hmin j x dx); auto.
    apply lookup_lt_Some in Hx. exact Hx.
Qed.

(** ** Path lengths *)

Lemma py_slice_from_1 {A} (p : list A) : py_slice p (Some 1) None = drop 1 p.
Proof.
  unfold py_slice, slice_bound. change (1 <? 0) with false. cbv iota zeta.
  destruct p as [|a p]; [reflexivity|].
  replace (Z.max 0 (Z.min (Z.of_nat (length (a :: p))) 1)) with 1
    by (simpl length; lia).
  change (Z.to_nat 1) with 1%nat.
  apply take_ge. rewrite length_drop. simpl length. lia.
Qed.

Lemma py_slice_to_last {A} (p : list A) :
  py_slice p None (Some (-1)) = take (length p - 1) p.
Proof.
  unfold py_slice, slice_bound. change (-1 <? 0) with true. cbv iota zeta.
  change (Z.to_nat 0) with 0%nat. rewrite drop_0. f_equal. lia.
Qed.

(** [zip(p[:-1], p[1:])] pairs every viewpoint with its successor. *)
Lemma consecutive_pairs {A} (p : list A) :
  zip (py_slice p None (Some (-1))) (py_slice p (Some 1) None) = zip p (drop 1 p).
Proof.
  rewrite py_slice_from_1, py_slice_to_last.
  apply zip_with_take_l'. rewrite length_drop. lia.
Qed.

(** The code's path length is the sum of consecutive distances. *)
Lemma path_length_consecutive (sd : dist_table) (p : list string) :
  path_length sd p = consecutive_sum sd p.
Proof.
  unfold path_length. rewrite consecutive_pairs.
  induction p as [|a p IH]; [reflexivity|].
  destruct p as [|b p]; [reflexivity|].
  change (consecutive_sum sd (a :: b :: p))
    with (d <- dist sd a b ;; s <- consecutive_sum sd (b :: p) ;; Ok (d + s)%Q).
  rewrite <- IH.
  change (drop 1 (a :: b :: p)) with (b :: p).
  change (zip (a :: b :: p) (b :: p)) with ((a, b) :: zip (b :: p) (drop 1 (b :: p))).
  cbn [traverse fst snd].
  destruct (dist sd a b) as [d|e]; [|reflexivity]. cbn [rbind].
  destruct (traverse _ (zip (b :: p) (drop 1 (b :: p)))) as [ds|e]; reflexivity.
Qed.

Lemma consecutive_sum_single (sd : dist_table) (a : string) :
  consecutive_sum sd [a] = Ok 0%Q.
Proof. reflexivity. Qed.

(** ** The evaluation of one item, step by step *)

Section EvalItem.
Context {W : Collaborators}.

(** What a successful [distance_scores] has established. *)
Lemma distance_scores_ok (self : R2RNavBatch) (scan : string)
    (pred_path : list (list string)) (gt_path : list string) (pe : partial_eval) :
  distance_scores self scan pred_path gt_path = Ok pe ->
  exists all start goal near last_vp nav orc tl,
    shortest_distances self = Some all /\
    all !! scan = Some (pe_sd pe) /\
    pe_path pe = concat pred_path /\
    head gt_path = Some start /\ head (concat pred_path) = Some start /\
    last gt_path = Some goal /\ last (concat pred_path) = Some last_vp /\
    _get_nearest (pe_sd pe) goal (concat pred_path) = Ok near /\
    dist (pe_sd pe) last_vp goal = Ok nav /\
    dist (pe_sd pe) near goal = Ok orc /\
    consecutive_sum (pe_sd pe) (concat pred_path) = Ok tl /\
    consecutive_sum (pe_sd pe) gt_path = Ok (pe_gt_lengths pe) /\
    pe_scores pe =
      <["trajectory_lengths" := tl]>
        (<["trajectory_steps" := inject_Z (Z.of_nat (length (concat pred_path)) - 1)]>
           (<["action_steps" := inject_Z (Z.of_nat (length pred_path) - 1)]>
              (<["oracle_error" := orc]> (<["nav_error" := nav]> ∅)))).
Proof.
  unfold distance_scores. intros H.
  apply rbind_ok in H. destruct H as (all & Hall & H).
  apply rbind_ok in H. destruct H as (sd & Hsd & H).
  apply rbind_ok in H. destruct H as (g0 & Hg0 & H).
  apply rbind_ok in H. destruct H as (p0 & Hp0 & H).
  destruct (bool_decide (g0 = p0)) eqn:Heq; simpl in H; [|discriminate].
  apply bool_decide_eq_true in Heq. subst p0.
  apply rbind_ok in H. destruct H as (goal & Hgoal & H).
  apply rbind_ok in H. destruct H as (near & Hnear & H).
  apply rbind_ok in H. destruct H as (l & Hl & H).
  apply rbind_ok in H. destruct H as (nav & Hnav & H).
  apply rbind_ok in H. destruct H as (orc & Horc & H).
  apply rbind_ok in H. destruct H as (tl & Htl & H).
  apply rbind_ok in H. destruct H as (gl & Hgl & H).
  injection H as <-. simpl.
  exists all, g0, goal, near, l, nav, orc, tl.
  rewrite path_length_consecutive in Htl, Hgl.
  apply getattr_ok in Hall. apply getitem_ok in Hsd.
  apply py_index_first in Hg0, Hp0. apply py_index_last in Hgoal, Hl.
  repeat split; assumption || reflexivity.
Qed.

Lemma distance_scores_lookups (self : R2RNavBatch) (scan : string)
    (pred_path : list (list string)) (gt_path : list string) (pe : partial_eval) :
  distance_scores self scan pred_path gt_path = Ok pe ->
  exists nav orc tl,
    pe_scores pe !! "nav_error" = Some nav /\
    pe_scores pe !! "oracle_error" = Some orc /\
    pe_scores pe !! "trajectory_lengths" = Some tl /\
    pe_scores pe !! "success" = None /\
    pe_scores pe !! "oracle_success" = None /\
    pe_scores pe !! "spl" = None.
Proof.
  intros H. apply distance_scores_ok in H.
  destruct H as (all & start & goal & near & l & nav & orc & tl & H).
  destruct H as (_ & _ & _ & _ & _ & _ & _ & _ & _ & _ & _ & _ & ->).
  exists nav, orc, tl. repeat split; reflexivity.
Qed.

(** The single-goal branch. *)
Lemma success_scores_single (self : R2RNavBatch) (scan : string) (gt_objid : pyval)
    (path : list string) (scores sc : gmap string Q) :
  obj2vps self = Some None ->
  success_scores self scan gt_objid path scores = Ok sc ->
  exists nav orc,
    scores !! "nav_error" = Some nav /\
    scores !! "oracle_error" = Some orc /\
    sc = <["oracle_success" := float_of_bool (Qltb orc ERROR_MARGIN)]>
           (<["success" := float_of_bool (Qltb nav ERROR_MARGIN)]> scores).
Proof.
  unfold success_scores. intros -> H. simpl in H.
  apply rbind_ok in H. destruct H as (nav & Hnav & H).
  apply rbind_ok in H. destruct H as (orc & Horc & H).
  injection H as <-.
  apply getitem_ok in Hnav, Horc.
  rewrite lookup_insert_ne in Horc by discriminate.
  eauto.
Qed.

(** The multi-goal branch. *)
Lemma success_scores_multi (self : R2RNavBatch) (scan : string) (gt_objid : pyval)
    (path : list string) (scores sc : gmap string Q) (table : gmap string (list string)) :
  obj2vps self = Some (Some table) ->
  success_scores self scan gt_objid path scores = Ok sc ->
  exists vps last_vp,
    table !! (scan +:+ "_" +:+ py_str gt_objid) = Some vps /\
    vps <> [] /\
    last path = Some last_vp /\
    sc = <["oracle_success" :=
             float_of_bool (existsb (fun x => bool_decide (x ∈ (list_to_set vps : gset string))) path)]>
           (<["success" := float_of_bool (bool_decide (last_vp ∈ (list_to_set vps : gset string)))]>
              scores).
Proof.
  unfold success_scores. intros -> H. simpl in H.
  apply rbind_ok in H. destruct H as (vps & Hvps & H).
  destruct (0 <? size (list_to_set vps : gset string))%nat eqn:Hsz; simpl in H; [|discriminate].
  apply rbind_ok in H. destruct H as (l & Hl & H).
  injection H as <-.
  apply getitem_ok in Hvps. apply py_index_last in Hl.
  exists vps, l. repeat split; auto.
  intros ->. simpl in Hsz. discriminate.
Qed.

(** An empty goal-viewpoint set stops the multi-goal branch at its assertion. *)
Lemma success_scores_empty_goal (self : R2RNavBatch) (scan : string) (gt_objid : pyval)
    (path : list string) (scores : gmap string Q) (table : gmap string (list string)) :
  obj2vps self = Some (Some table) ->
  table !! (scan +:+ "_" +:+ py_str gt_objid) = Some [] ->
  success_scores self scan gt_objid path scores
  = Raise (AssertionError (scan +:+ "_" +:+ py_str gt_objid)).
Proof.
  unfold success_scores. intros -> Hk. simpl.
  apply getitem_ok in Hk. rewrite Hk. reflexivity.
Qed.

(** An unassigned [obj2vps] stops [_eval_item] at the test of the policy. *)
Lemma success_scores_unassigned (self : R2RNavBatch) (scan : string) (gt_objid : pyval)
    (path : list string) (scores : gmap string Q) :
  obj2vps self = None ->
  success_scores self scan gt_objid path scores = Raise (AttributeError "obj2vps").
Proof. unfold success_scores. intros ->. reflexivity. Qed.

(** What a successful [_eval_item] went through. *)
Lemma eval_item_ok (self : R2RNavBatch) (scan : string) (pred_path : list (list string))
    (gt_path : list string) (gt_objid : pyval) (scores : gmap string Q) :
  _eval_item self scan pred_path gt_path gt_objid = Ok scores ->
  exists pe sc success tl dtw cls,
    distance_scores self scan pred_path gt_path = Ok pe /\
    success_scores self scan gt_objid (pe_path pe) (pe_scores pe) = Ok sc /\
    sc !! "success" = Some success /\
    sc !! "trajectory_lengths" = Some tl /\
    cal_dtw (pe_sd pe) (pe_path pe) gt_path success ERROR_MARGIN = Done dtw /\
    cal_cls (pe_sd pe) (pe_path pe) gt_path ERROR_MARGIN = Done cls /\
    scores = <["CLS" := cls]> (dtw ∪ <["spl" := spl_of success tl (pe_gt_lengths pe)]> sc).
Proof.
  unfold _eval_item. intros H.
  apply rbind_ok in H. destruct H as (pe & Hpe & H).
  apply rbind_ok in H. destruct H as (sc & Hsc & H).
  apply rbind_ok in H. destruct H as (s & Hs & H).
  apply rbind_ok in H. destruct H as (tl & Htl & H).
  apply rbind_ok in H. destruct H as (s' & Hs' & H).
  apply rbind_ok in H. destruct H as (dtw & Hdtw & H).
  apply rbind_ok in H. destruct H as (cls & Hcls & H).
  injection H as <-.
  apply getitem_ok in Hs, Htl, Hs'.
  rewrite lookup_insert_ne in Hs' by discriminate.
  assert (s' = s) by congruence. subst s'.
  apply call_ok in Hdtw, Hcls.
  exists pe, sc, s, tl, dtw, cls. repeat split; assumption.
Qed.

(** The keys written by [_eval_item] itself survive the merge of the DTW
    scores and the final ['CLS'] entry. *)
Lemma own_key_kept (sd : dist_table) (p g : list string) (s t cls : Q)
    (dtw m : gmap string Q) (k : string) :
  dtw_keys_fresh ->
  cal_dtw sd p g s t = Done dtw ->
  k ∈ own_keys ->
  (<["CLS" := cls]> (dtw ∪ m)) !! k = m !! k.
Proof.
  intros Hfresh Hdtw Hk.
  assert (Hne : "CLS" <> k).
  { intros <-. unfold own_keys in Hk.
    repeat (apply elem_of_cons in Hk; destruct Hk as [Hk|Hk]; [discriminate|]).
    apply elem_of_nil in Hk. exact Hk. }
  rewrite lookup_insert_ne by exact Hne.
  apply lookup_union_r. eapply Hfresh; eauto.
Qed.

End EvalItem.

(** ** Success policies *)

Lemma float_of_bool_one (b : bool) : float_of_bool b = 1%Q <-> b = true.
Proof. destruct b; simpl; split; congruence. Qed.

Lemma float_of_bool_zero (b : bool) : float_of_bool b = 0%Q <-> b = false.
Proof. destruct b; simpl; split; congruence. Qed.

(** C3. Under the single-goal policy ([obj2vps] is [None]) every evaluated
    item has [success = 1.0] exactly when [nav_error < 3.0] and
    [oracle_success = 1.0] exactly when [oracle_error < 3.0], the two scores
    being 0.0 otherwise; [nav_error] is the table distance from the last
    predicted viewpoint to the last reference viewpoint, [oracle_error] that
    of the nearest point of the path.  At [nav_error == 3.0], [success] is
    0.0. *)
Theorem single_goal_success_iff_below_margin {W : Collaborators} (self : R2RNavBatch)
    (scan : string) (pred_path : list (list string)) (gt_path : list string)
    (gt_objid : pyval) (scores : gmap string Q) :
  dtw_keys_fresh ->
  obj2vps self = Some None ->
  _eval_item self scan pred_path gt_path gt_objid = Ok scores ->
  exists all sd last_vp goal near nav orc success oracle_success,
    shortest_distances self = Some all /\ all !! scan = Some sd /\
    last (concat pred_path) = Some last_vp /\ last gt_path = Some goal /\
    _get_nearest sd goal (concat pred_path) = Ok near /\
    dist sd last_vp goal = Ok nav /\ dist sd near goal = Ok orc /\
    scores !! "nav_error" = Some nav /\
    scores !! "oracle_error" = Some orc /\
    scores !! "success" = Some success /\
    scores !! "oracle_success" = Some oracle_success /\
    (success = 1%Q <-> (nav < 3)%Q) /\
    (success = 0%Q <-> (3 <= nav)%Q) /\
    (oracle_success = 1%Q <-> (orc < 3)%Q) /\
    (oracle_success = 0%Q <-> (3 <= orc)%Q) /\
    ((nav == 3)%Q -> success = 0%Q).
Proof.
  intros Hfresh Hpol H.
  destruct (eval_item_ok _ _ _ _ _ _ H)
    as (pe & sc & s & tl & dtw & cls & Hpe & Hsc & Hs & Htl & Hdtw & Hcls & ->).
  destruct (success_scores_single _ _ _ _ _ _ Hpol Hsc) as (nav & orc & Hnav & Horc & ->).
  destruct (distance_scores_ok _ _ _ _ _ Hpe)
    as (all & start & goal & near & l & nav' & orc' & tl' & Hall & Hsd & Hpath & Hg0 & Hp0
        & Hgoal & Hl & Hnear & Hdnav & Hdorc & Htl' & Hgl & Hscores).
  rewrite Hscores in Hnav, Horc. map_lookup_in Hnav. map_lookup_in Horc.
  injection Hnav as ->. injection Horc as ->.
  map_lookup_in Hs. injection Hs as <-.
  exists all, (pe_sd pe), l, goal, near, nav, orc,
    (float_of_bool (Qltb nav ERROR_MARGIN)), (float_of_bool (Qltb orc ERROR_MARGIN)).
  rewrite !(own_key_kept _ _ _ _ _ _ _ _ _ Hfresh Hdtw) by own_key.
  rewrite Hscores. map_lookup.
  rewrite !float_of_bool_one, !float_of_bool_zero, !Qltb_lt, !Qltb_ge.
  change ERROR_MARGIN with 3%Q.
  repeat split; auto.
  intros Heq. rewrite Heq. apply Qle_refl.
Qed.

Lemma goal_flag_one (x : string) (vps : list string) :
  float_of_bool (bool_decide (x ∈ (list_to_set vps : gset string))) = 1%Q <-> x ∈ vps.
Proof.
  rewrite float_of_bool_one. split.
  - intros H. apply bool_decide_eq_true in H. apply elem_of_list_to_set in H. exact H.
  - intros H. apply bool_decide_eq_true, elem_of_list_to_set. exact H.
Qed.

Lemma goal_flag_zero (x : string) (vps : list string) :
  float_of_bool (bool_decide (x ∈ (list_to_set vps : gset string))) = 0%Q <-> x ∉ vps.
Proof.
  rewrite float_of_bool_zero. split.
  - intros H Hin. apply bool_decide_eq_false in H. apply H, elem_of_list_to_set. exact Hin.
  - intros H. apply bool_decide_eq_false. intros Hin. apply H.
    apply elem_of_list_to_set in Hin. exact Hin.
Qed.

Lemma any_goal_true (path vps : list string) :
  existsb (fun x => bool_decide (x ∈ (list_to_set vps : gset string))) path = true
  <-> exists x, x ∈ path /\ x ∈ vps.
Proof.
  rewrite existsb_exists. split.
  - intros (x & Hx & Hin). apply bool_decide_eq_true in Hin.
    apply elem_of_list_to_set in Hin. apply list_elem_of_In in Hx. eauto.
  - intros (x & Hx & Hin). exists x. split; [apply list_elem_of_In; exact Hx|].
    apply bool_decide_eq_true, elem_of_list_to_set. exact Hin.
Qed.

Lemma any_goal_flag_one (path vps : list string) :
  float_of_bool (existsb (fun x => bool_decide (x ∈ (list_to_set vps : gset string))) path) = 1%Q
  <-> exists x, x ∈ path /\ x ∈ vps.
Proof. rewrite float_of_bool_one. apply any_goal_true. Qed.

Lemma any_goal_flag_zero (path vps : list string) :
  float_of_bool (existsb (fun x => bool_decide (x ∈ (list_to_set vps : gset string))) path) = 0%Q
  <-> forall x, x ∈ path -> x ∉ vps.
Proof.
  rewrite float_of_bool_zero. split.
  - intros H x Hx Hin.
    pose proof (proj2 (any_goal_true path vps) (ex_intro _ x (conj Hx Hin))) as Ht.
    rewrite H in Ht. discriminate.
  - intros H. destruct (existsb _ path) eqn:Hex; [|reflexivity].
    apply any_goal_true in Hex. destruct Hex as (x & Hx & Hin).
    exfalso. exact (H x Hx Hin).
Qed.

(** C5. Under the multi-goal policy ([obj2vps] is a table keyed by
    [scan_objid]) every evaluated item has [success = 1.0] exactly when the
    last viewpoint of the flattened path is a goal viewpoint and
    [oracle_success = 1.0] exactly when some viewpoint of the flattened path
    is one, the goal list being non-empty; when the list is empty,
    [_eval_item] stops at the assertion carrying the key, once the distance
    scores have been computed. *)
Theorem multi_goal_success_iff_goal_member {W : Collaborators} (self : R2RNavBatch)
    (scan : string) (pred_path : list (list string)) (gt_path : list string)
    (gt_objid : pyval) (table : gmap string (list string)) :
  dtw_keys_fresh ->
  obj2vps self = Some (Some table) ->
  (forall scores,
     _eval_item self scan pred_path gt_path gt_objid = Ok scores ->
     exists vps last_vp success oracle_success,
       table !! (scan +:+ "_" +:+ py_str gt_objid) = Some vps /\ vps <> [] /\
       last (concat pred_path) = Some last_vp /\
       scores !! "success" = Some success /\
       scores !! "oracle_success" = Some oracle_success /\
       (success = 1%Q <-> last_vp ∈ vps) /\
       (success = 0%Q <-> last_vp ∉ vps) /\
       (oracle_success = 1%Q <-> exists x, x ∈ concat pred_path /\ x ∈ vps) /\
       (oracle_success = 0%Q <-> forall x, x ∈ concat pred_path -> x ∉ vps)) /\
  (forall pe,
     distance_scores self scan pred_path gt_path = Ok pe ->
     table !! (scan +:+ "_" +:+ py_str gt_objid) = Some [] ->
     _eval_item self scan pred_path gt_path gt_objid
     = Raise (AssertionError (scan +:+ "_" +:+ py_str gt_objid))).
Proof.
  intros Hfresh Hpol. split.
  - intros scores H.
    destruct (eval_item_ok _ _ _ _ _ _ H)
      as (pe & sc & s & tl & dtw & cls & Hpe & Hsc & Hs & Htl & Hdtw & Hcls & ->).
    destruct (success_scores_multi _ _ _ _ _ _ _ Hpol Hsc) as (vps & l & Hvps & Hne & Hl & ->).
    destruct (distance_scores_ok _ _ _ _ _ Hpe)
      as (all & start & goal & near & l' & nav' & orc' & tl' & Hall & Hsd & Hpath & _).
    rewrite Hpath in *.
    exists vps, l, (float_of_bool (bool_decide (l ∈ (list_to_set vps : gset string)))),
      (float_of_bool (existsb (fun x => bool_decide (x ∈ (list_to_set vps : gset string)))
                        (concat pred_path))).
    rewrite !(own_key_kept _ _ _ _ _ _ _ _ _ Hfresh Hdtw) by own_key.
    map_lookup.
    split; [exact Hvps|]. split; [exact Hne|]. split; [exact Hl|].
    split; [reflexivity|]. split; [reflexivity|].
    split; [apply goal_flag_one|]. split; [apply goal_flag_zero|].
    split; [apply any_goal_flag_one | apply any_goal_flag_zero].
  - intros pe Hpe Hempty. unfold _eval_item. rewrite Hpe. simpl rbind.
    rewrite (success_scores_empty_goal _ _ _ _ _ _ Hpol Hempty). reflexivity.
Qed.

(** ** Success-weighted path length *)

Lemma py_max_Qmax (a b : Q) : (py_max a b == Qmax a b)%Q.
Proof.
  unfold py_max. destruct (Qltb a b) eqn:H.
  - apply Qltb_lt in H. symmetry. apply Q.max_r. apply Qlt_le_weak. exact H.
  - apply Qltb_ge in H. symmetry. apply Q.max_l. exact H.
Qed.

Lemma py_max_ge_l (a b : Q) : (a <= py_max a b)%Q.
Proof.
  unfold py_max. destruct (Qltb a b) eqn:H.
  - apply Qltb_lt in H. apply Qlt_le_weak. exact H.
  - apply Qle_refl.
Qed.

Lemma py_max_ge_r (a b : Q) : (b <= py_max a b)%Q.
Proof.
  unfold py_max. destruct (Qltb a b) eqn:H.
  - apply Qle_refl.
  - apply Qltb_ge in H. exact H.
Qed.

(** The denominator of [spl]: at least 0.01 and at least both lengths. *)
Lemma spl_denominator (tl gl : Q) :
  ((1 # 100) <= py_max (py_max tl gl) (1 # 100))%Q /\
  (0 < py_max (py_max tl gl) (1 # 100))%Q /\
  (gl <= py_max (py_max tl gl) (1 # 100))%Q /\
  (tl <= py_max (py_max tl gl) (1 # 100))%Q.
Proof.
  pose proof (py_max_ge_r (py_max tl gl) (1 # 100)) as He.
  pose proof (py_max_ge_l (py_max tl gl) (1 # 100)) as Hm.
  pose proof (py_max_ge_l tl gl) as Ht.
  pose proof (py_max_ge_r tl gl) as Hg.
  repeat split.
  - exact He.
  - eapply Qlt_le_trans; [|exact He]. reflexivity.
  - eapply Qle_trans; eauto.
  - eapply Qle_trans; eauto.
Qed.

Lemma consecutive_sum_short (sd : dist_table) (p : list string) (s : Q) :
  (length p <= 1)%nat -> consecutive_sum sd p = Ok s -> s = 0%Q.
Proof.
  destruct p as [|a [|b p]]; simpl; intros Hlen H; try (injection H as <-; reflexivity).
  lia.
Qed.

Lemma success_is_flag {W : Collaborators} (self : R2RNavBatch) (scan : string)
    (gt_objid : pyval) (path : list string) (scores sc : gmap string Q) (s : Q) :
  success_scores self scan gt_objid path scores = Ok sc ->
  sc !! "success" = Some s ->
  s = 1%Q \/ s = 0%Q.
Proof.
  intros Hsc Hs. destruct (obj2vps self) as [[table|]|] eqn:Hpol.
  - destruct (success_scores_multi _ _ _ _ _ _ _ Hpol Hsc) as (vps & l & _ & _ & _ & ->).
    clear Hsc. map_lookup_in Hs. injection Hs as <-. destruct (bool_decide _); auto.
  - destruct (success_scores_single _ _ _ _ _ _ Hpol Hsc) as (nav & orc & _ & _ & ->).
    clear Hsc. map_lookup_in Hs. injection Hs as <-. destruct (Qltb nav ERROR_MARGIN); auto.
  - rewrite (success_scores_unassigned _ _ _ _ _ Hpol) in Hsc. discriminate.
Qed.

(** The scores [_eval_item] returns for [success], [trajectory_lengths] and
    [spl], in terms of the two path lengths. *)
Lemma eval_item_spl {W : Collaborators} (self : R2RNavBatch)
    (scan : string) (pred_path : list (list string)) (gt_path : list string)
    (gt_objid : pyval) (scores : gmap string Q) :
  dtw_keys_fresh ->
  _eval_item self scan pred_path gt_path gt_objid = Ok scores ->
  exists all sd s tl gl,
    shortest_distances self = Some all /\ all !! scan = Some sd /\
    consecutive_sum sd (concat pred_path) = Ok tl /\
    consecutive_sum sd gt_path = Ok gl /\
    scores !! "success" = Some s /\
    scores !! "trajectory_lengths" = Some tl /\
    scores !! "spl" = Some (spl_of s tl gl) /\
    (s = 1%Q \/ s = 0%Q).
Proof.
  intros Hfresh H.
  destruct (eval_item_ok _ _ _ _ _ _ H)
    as (pe & sc & s & tl & dtw & cls & Hpe & Hsc & Hs & Htl & Hdtw & Hcls & ->).
  destruct (distance_scores_ok _ _ _ _ _ Hpe)
    as (all & start & goal & near & l & nav & orc & tl' & Hall & Hsd & Hpath & Hg0 & Hp0
        & Hgoal & Hl & Hnear & Hdnav & Hdorc & Htl' & Hgl & Hscores).
  pose proof (success_is_flag _ _ _ _ _ _ _ Hsc Hs) as Hflag.
  assert (tl' = tl) as ->.
  { unfold success_scores in Hsc.
    apply rbind_ok in Hsc. destruct Hsc as (o & _ & Hsc).
    destruct o as [table|].
    - apply rbind_ok in Hsc. destruct Hsc as (vps & _ & Hsc).
      destruct (negb _); [discriminate|].
      apply rbind_ok in Hsc. destruct Hsc as (lv & _ & Hsc). injection Hsc as <-.
      rewrite Hscores in Htl. map_lookup_in Htl. congruence.
    - apply rbind_ok in Hsc. destruct Hsc as (n & _ & Hsc).
      apply rbind_ok in Hsc. destruct Hsc as (o & _ & Hsc). injection Hsc as <-.
      rewrite Hscores in Htl. map_lookup_in Htl. congruence. }
  exists all, (pe_sd pe), s, tl, (pe_gt_lengths pe).
  rewrite !(own_key_kept _ _ _ _ _ _ _ _ _ Hfresh Hdtw) by own_key.
  map_lookup.
  repeat split; auto.
Qed.

(** C6. For every evaluated item, [spl] is
    [success * gt_length / max(predicted_length, gt_length, 0.01)], where
    [predicted_length] (the score [trajectory_lengths]) and [gt_length] are
    the sums of the distances between consecutive viewpoints of the
    flattened predicted path and of the reference path; the denominator is
    at least 0.01, hence never zero, and both lengths are 0 on single-point
    paths. *)
Theorem spl_is_success_weighted_length_ratio {W : Collaborators} (self : R2RNavBatch)
    (scan : string) (pred_path : list (list string)) (gt_path : list string)
    (gt_objid : pyval) (scores : gmap string Q) :
  dtw_keys_fresh ->
  _eval_item self scan pred_path gt_path gt_objid = Ok scores ->
  exists all sd success predicted_length gt_length spl,
    shortest_distances self = Some all /\ all !! scan = Some sd /\
    consecutive_sum sd (concat pred_path) = Ok predicted_length /\
    consecutive_sum sd gt_path = Ok gt_length /\
    scores !! "success" = Some success /\
    scores !! "trajectory_lengths" = Some predicted_length /\
    scores !! "spl" = Some spl /\
    spl = spl_of success predicted_length gt_length /\
    (spl == success * gt_length / Qmax (Qmax predicted_length gt_length) (1 # 100))%Q /\
    ((1 # 100) <= Qmax (Qmax predicted_length gt_length) (1 # 100))%Q /\
    ~ (Qmax (Qmax predicted_length gt_length) (1 # 100) == 0)%Q /\
    ((length (concat pred_path) <= 1)%nat -> predicted_length = 0%Q) /\
    ((length gt_path <= 1)%nat -> gt_length = 0%Q).
Proof.
  intros Hfresh H.
  destruct (eval_item_spl _ _ _ _ _ _ Hfresh H)
    as (all & sd & s & tl & gl & Hall & Hsd & Htl & Hgl & Hs & Hstl & Hspl & Hflag).
  exists all, sd, s, tl, gl, (spl_of s tl gl).
  destruct (spl_denominator tl gl) as (Hfloor & Hpos & _ & _).
  assert (Hmax : (py_max (py_max tl gl) (1 # 100) == Qmax (Qmax tl gl) (1 # 100))%Q).
  { rewrite py_max_Qmax. rewrite (py_max_Qmax tl). reflexivity. }
  repeat split; auto.
  - unfold spl_of. rewrite Hmax. reflexivity.
  - rewrite <- Hmax. exact Hfloor.
  - rewrite <- Hmax. intros Hz. rewrite Hz in Hpos. discriminate.
  - intros Hlen. eapply consecutive_sum_short; eauto.
  - intros Hlen. eapply consecutive_sum_short; eauto.
Qed.

Lemma consecutive_sum_nonneg (sd : dist_table) (p : list string) (s : Q) :
  (forall a row b d, sd !! a = Some row -> row !! b = Some d -> (0 <= d)%Q) ->
  consecutive_sum sd p = Ok s -> (0 <= s)%Q.
Proof.
  intros Hpos. revert s. induction p as [|a p IH]; intros s H.
  - injection H as <-. apply Qle_refl.
  - destruct p as [|b p].
    + injection H as <-. apply Qle_refl.
    + change (consecutive_sum sd (a :: b :: p))
        with (d <- dist sd a b ;; s <- consecutive_sum sd (b :: p) ;; Ok (d + s)%Q) in H.
      apply rbind_ok in H. destruct H as (d & Hd & H).
      apply rbind_ok in H. destruct H as (s' & Hs' & H). injection H as <-.
      unfold dist in Hd. apply rbind_ok in Hd. destruct Hd as (row & Hrow & Hd).
      apply getitem_ok in Hrow, Hd.
      pose proof (Hpos _ _ _ _ Hrow Hd). pose proof (IH _ Hs').
      change 0%Q with (0 + 0)%Q. apply Qplus_le_compat; assumption.
Qed.

(** The ratio [s * g / m] for a flag [s], a length [0 <= g <= m] and [0 < m]. *)
Lemma flag_ratio_bounds (s g m : Q) :
  s = 1%Q \/ s = 0%Q -> (0 <= g)%Q -> (g <= m)%Q -> (0 < m)%Q ->
  (0 <= s * g / m)%Q /\ (s * g / m <= 1)%Q.
Proof.
  intros Hs Hg Hgm Hm. split.
  - apply Qle_shift_div_l; [exact Hm|]. rewrite Qmult_0_l.
    apply Qmult_le_0_compat; [destruct Hs as [->| ->]; discriminate | exact Hg].
  - apply Qle_shift_div_r; [exact Hm|]. rewrite Qmult_1_l.
    destruct Hs as [->| ->].
    + rewrite Qmult_1_l. exact Hgm.
    + rewrite Qmult_0_l. apply Qlt_le_weak. exact Hm.
Qed.

(** C7, as the code has it. With non-negative table distances, for every
    evaluated item [spl] lies in [0, 1]; the predicted length (the score
    [trajectory_lengths]) and the ground-truth length being the sums of
    consecutive distances in the table of the item's scan, when the two are
    equal [spl] is [success * gt_length / max(gt_length, 0.01)], which is
    [success] itself as soon as that length is at least 0.01 (or [success]
    is 0). *)
Theorem spl_in_unit_interval {W : Collaborators} (self : R2RNavBatch)
    (scan : string) (pred_path : list (list string)) (gt_path : list string)
    (gt_objid : pyval) (scores : gmap string Q) :
  dtw_keys_fresh ->
  nonneg_distances self scan ->
  _eval_item self scan pred_path gt_path gt_objid = Ok scores ->
  exists all sd success predicted_length gt_length spl,
    shortest_distances self = Some all /\ all !! scan = Some sd /\
    consecutive_sum sd (concat pred_path) = Ok predicted_length /\
    consecutive_sum sd gt_path = Ok gt_length /\
    scores !! "trajectory_lengths" = Some predicted_length /\
    scores !! "success" = Some success /\
    scores !! "spl" = Some spl /\
    (success = 1%Q \/ success = 0%Q) /\
    (0 <= spl)%Q /\ (spl <= 1)%Q /\
    ((predicted_length == gt_length)%Q ->
       (spl == success * gt_length / Qmax gt_length (1 # 100))%Q) /\
    ((predicted_length == gt_length)%Q -> ((1 # 100) <= gt_length)%Q -> (spl == success)%Q) /\
    (success = 0%Q -> (spl == 0)%Q).
Proof.
  intros Hfresh Hnonneg H.
  destruct (eval_item_spl _ _ _ _ _ _ Hfresh H)
    as (all & sd & s & tl & gl & Hall & Hsd & Htl & Hgl & Hs & Hstl & Hspl & Hflag).
  assert (Hpos : forall a row b d, sd !! a = Some row -> row !! b = Some d -> (0 <= d)%Q)
    by (intros a row b d; apply (Hnonneg all sd a row b d Hall Hsd)).
  pose proof (consecutive_sum_nonneg _ _ _ Hpos Htl) as Htl0.
  pose proof (consecutive_sum_nonneg _ _ _ Hpos Hgl) as Hgl0.
  destruct (spl_denominator tl gl) as (Hfloor & Hm & Hgm & Htm).
  destruct (flag_ratio_bounds s gl _ Hflag Hgl0 Hgm Hm) as [Hlo Hhi].
  exists all, sd, s, tl, gl, (spl_of s tl gl).
  assert (Heq : (tl == gl)%Q ->
                (spl_of s tl gl == s * gl / Qmax gl (1 # 100))%Q).
  { intros Hlen. unfold spl_of. rewrite py_max_Qmax, (py_max_Qmax tl), Hlen.
    rewrite Q.max_id. reflexivity. }
  repeat split; auto.
  - intros Hlen Hge. rewrite (Heq Hlen). rewrite Q.max_l by exact Hge.
    field. intros Hz. rewrite Hz in Hge. apply (Qle_not_lt _ _ Hge). reflexivity.
  - intros ->. unfold spl_of. unfold Qdiv. rewrite !Qmult_0_l. reflexivity.
Qed.

(** ** Which statements can raise an assertion *)

Lemma getattr_no_assert {A} (n : string) (a : attr A) (m : string) :
  getattr n a = Raise (AssertionError m) -> False.
Proof. destruct a; discriminate. Qed.

Lemma getitem_no_assert {V} (d : gmap string V) (k m : string) :
  getitem d k = Raise (AssertionError m) -> False.
Proof. unfold getitem. destruct (d !! k); discriminate. Qed.

Lemma py_index_no_assert {A} (l : list A) (i : Z) (m : string) :
  py_index l i = Raise (AssertionError m) -> False.
Proof.
  unfold py_index. destruct ((0 <=? _) && _); [|discriminate].
  destruct (l !! _); discriminate.
Qed.

Lemma call_no_assert {A} (o : outcome A) (m : string) :
  call o = Raise (AssertionError m) -> False.
Proof. destruct o; discriminate. Qed.

Lemma dist_no_assert (sd : dist_table) (a b m : string) :
  dist sd a b = Raise (AssertionError m) -> False.
Proof.
  unfold dist. intros H. apply rbind_raise in H.
  destruct H as [H | (row & _ & H)]; eapply getitem_no_assert; eauto.
Qed.

Lemma traverse_raise {A B} (f : A -> result B) (l : list A) (e : pyerr) :
  traverse f l = Raise e -> exists x, x ∈ l /\ f x = Raise e.
Proof.
  induction l as [|x l IH]; simpl; intros H; [discriminate|].
  apply rbind_raise in H. destruct H as [H | (y & Hy & H)].
  - exists x. split; [left | exact H].
  - apply rbind_raise in H. destruct H as [H | (ys & Hys & H)]; [|discriminate].
    destruct (IH H) as (z & Hz & Hfz). exists z. split; [right; exact Hz | exact Hfz].
Qed.

Lemma path_length_no_assert (sd : dist_table) (p : list string) (m : string) :
  path_length sd p = Raise (AssertionError m) -> False.
Proof.
  unfold path_length. intros H. apply rbind_raise in H.
  destruct H as [H | (ds & _ & H)]; [|discriminate].
  apply traverse_raise in H. destruct H as ([a b] & _ & H).
  eapply dist_no_assert; eauto.
Qed.

Lemma nearest_loop_no_assert (sd : dist_table) (goal : string) (path : list string)
    (near_id : string) (near_d : Q) (m : string) :
  nearest_loop sd goal path near_id near_d = Raise (AssertionError m) -> False.
Proof.
  revert near_id near_d. induction path as [|item rest IH]; simpl; intros near_id near_d H.
  - discriminate.
  - apply rbind_raise in H. destruct H as [H | (d & _ & H)].
    + eapply dist_no_assert; eauto.
    + destruct (Qltb d near_d); eapply IH; eauto.
Qed.

Lemma get_nearest_no_assert (sd : dist_table) (goal : string) (path : list string) (m : string) :
  _get_nearest sd goal path = Raise (AssertionError m) -> False.
Proof.
  unfold _get_nearest. intros H.
  apply rbind_raise in H. destruct H as [H | (n & _ & H)];
    [eapply py_index_no_assert; eauto|].
  apply rbind_raise in H. destruct H as [H | (d & _ & H)];
    [eapply dist_no_assert; eauto|].
  eapply nearest_loop_no_assert; eauto.
Qed.

(** A sequence of statements raises no assertion when none of them does. *)
Lemma rbind_no_assert {A B} (r : result A) (k : A -> result B) (m : string) :
  (r = Raise (AssertionError m) -> False) ->
  (forall a, k a = Raise (AssertionError m) -> False) ->
  rbind r k = Raise (AssertionError m) -> False.
Proof.
  intros Hr Hk H. apply rbind_raise in H.
  destruct H as [H | (a & _ & H)]; [exact (Hr H) | exact (Hk a H)].
Qed.

#[local] Hint Resolve getattr_no_assert getitem_no_assert py_index_no_assert
  dist_no_assert path_length_no_assert get_nearest_no_assert call_no_assert : no_assert.

Section Assertions.
Context {W : Collaborators}.

(** [distance_scores] raises an assertion only at the start check. *)
Lemma distance_scores_assert (self : R2RNavBatch) (scan : string)
    (pred_path : list (list string)) (gt_path : list string) (m : string) :
  distance_scores self scan pred_path gt_path = Raise (AssertionError m) ->
  m = start_msg /\
  exists all sd g0 p0,
    shortest_distances self = Some all /\ all !! scan = Some sd /\
    head gt_path = Some g0 /\ head (concat pred_path) = Some p0 /\ g0 <> p0.
Proof.
  unfold distance_scores. intros H.
  apply rbind_raise in H. destruct H as [H | (all & Hall & H)];
    [exfalso; eapply getattr_no_assert; eassumption|].
  apply rbind_raise in H. destruct H as [H | (sd & Hsd & H)];
    [exfalso; eapply getitem_no_assert; eassumption|].
  apply rbind_raise in H. destruct H as [H | (g0 & Hg0 & H)];
    [exfalso; eapply py_index_no_assert; eassumption|].
  apply rbind_raise in H. destruct H as [H | (p0 & Hp0 & H)];
    [exfalso; eapply py_index_no_assert; eassumption|].
  destruct (bool_decide (g0 = p0)) eqn:Heq; simpl in H.
  - exfalso. revert H.
    repeat (apply rbind_no_assert; [eauto with no_assert | intros ?; cbv beta]).
    discriminate.
  - injection H as <-. split; [reflexivity|].
    apply bool_decide_eq_false in Heq.
    apply getattr_ok in Hall. apply getitem_ok in Hsd.
    apply py_index_first in Hg0, Hp0.
    exists all, sd, g0, p0. auto.
Qed.

(** The start check fails whenever it is reached with different starts. *)
Lemma distance_scores_start_differs (self : R2RNavBatch) (scan : string)
    (pred_path : list (list string)) (gt_path : list string)
    (all : gmap string dist_table) (sd : dist_table) (g0 p0 : string) :
  shortest_distances self = Some all -> all !! scan = Some sd ->
  head gt_path = Some g0 -> head (concat pred_path) = Some p0 -> g0 <> p0 ->
  distance_scores self scan pred_path gt_path = Raise (AssertionError start_msg).
Proof.
  intros Hall Hsd Hg0 Hp0 Hne. unfold distance_scores.
  rewrite Hall. simpl rbind. apply getitem_ok in Hsd. rewrite Hsd. simpl rbind.
  apply py_index_first in Hg0, Hp0. rewrite Hg0, Hp0. simpl rbind.
  rewrite bool_decide_eq_false_2 by exact Hne. reflexivity.
Qed.

(** [success_scores] raises an assertion only on an empty goal list, and
    then with the key as its message. *)
Lemma success_scores_assert (self : R2RNavBatch) (scan : string) (gt_objid : pyval)
    (path : list string) (scores : gmap string Q) (m : string) :
  success_scores self scan gt_objid path scores = Raise (AssertionError m) ->
  m = scan +:+ "_" +:+ py_str gt_objid.
Proof.
  unfold success_scores. intros H.
  apply rbind_raise in H. destruct H as [H | (o & Ho & H)];
    [exfalso; eapply getattr_no_assert; eassumption|].
  destruct o as [table|].
  - apply rbind_raise in H. destruct H as [H | (vps & Hvps & H)];
      [exfalso; eapply getitem_no_assert; eassumption|].
    destruct (negb _).
    + injection H as <-. reflexivity.
    + exfalso. revert H.
      repeat (apply rbind_no_assert; [eauto with no_assert | intros ?; cbv beta]).
      discriminate.
  - exfalso. revert H.
    repeat (apply rbind_no_assert; [eauto with no_assert | intros ?; cbv beta]).
    discriminate.
Qed.

End Assertions.

Lemma has_char_app (c : Ascii.ascii) (a b : string) :
  has_char c (a +:+ b) = has_char c a || has_char c b.
Proof.
  induction a as [|c' a IH]; simpl; [reflexivity|].
  rewrite IH. apply orb_assoc.
Qed.

(** The message of the goal-set assertion is never that of the start check. *)
Lemma goal_key_not_start_msg (scan suffix : string) :
  scan +:+ "_" +:+ suffix <> start_msg.
Proof.
  intros H.
  apply (f_equal (has_char (Ascii.Ascii true true true true true false true false))) in H.
  rewrite has_char_app in H. simpl in H. rewrite orb_true_r in H. discriminate.
Qed.

Lemma get_nearest_total (sd : dist_table) (goal : string) (path : list string) :
  path <> [] ->
  (forall x, x ∈ path -> exists d, dist sd x goal = Ok d) ->
  exists v, _get_nearest sd goal path = Ok v /\ v ∈ path.
Proof.
  intros Hne Hdef.
  destruct path as [|p0 rest]; [congruence|].
  destruct (Hdef p0) as [d0 Hd0]; [left|].
  destruct (nearest_loop_spec sd goal (p0 :: rest) [] p0 d0 0%nat)
    as (i & v & dv & Hrun & Hi & _); auto.
  - intros j x dx Hj. simpl in Hj. lia.
  - exists v. split.
    + unfold _get_nearest.
      assert (H0 : py_index (p0 :: rest) 0 = Ok p0) by (apply py_index_first; reflexivity).
      rewrite H0. simpl rbind. rewrite Hd0. simpl rbind.
      revert Hrun. simpl. rewrite Hd0. simpl. auto.
    + eapply list_elem_of_lookup_2. exact Hi.
Qed.

Lemma consecutive_sum_total (sd : dist_table) (p : list string) :
  covers sd p -> exists s, consecutive_sum sd p = Ok s.
Proof.
  induction p as [|a p IH]; intros Hc; [simpl; eauto|].
  destruct p as [|b p]; [simpl; eauto|].
  destruct (Hc a b) as [d Hd]; [left | right; left |].
  destruct IH as [s Hs]; [intros x y Hx Hy; apply Hc; right; assumption|].
  change (consecutive_sum sd (a :: b :: p))
    with (d <- dist sd a b ;; s <- consecutive_sum sd (b :: p) ;; Ok (d + s)%Q).
  rewrite Hd, Hs. simpl. eauto.
Qed.

Lemma head_last_defined {A} (l : list A) (x : A) :
  head l = Some x -> exists y, last l = Some y /\ y ∈ l.
Proof.
  intros H. destruct (last l) as [y|] eqn:Hl.
  - exists y. split; [reflexivity|]. rewrite last_lookup in Hl.
    eapply list_elem_of_lookup_2. exact Hl.
  - apply last_None in Hl. subst l. discriminate.
Qed.

Section Proceeds.
Context {W : Collaborators}.

(** With equal starts and a table covering both paths, the distance scores
    are all computed. *)
Lemma distance_scores_total (self : R2RNavBatch) (scan : string)
    (pred_path : list (list string)) (gt_path : list string)
    (all : gmap string dist_table) (sd : dist_table) (v : string) :
  shortest_distances self = Some all -> all !! scan = Some sd ->
  head gt_path = Some v -> head (concat pred_path) = Some v ->
  covers sd (concat pred_path ++ gt_path) ->
  exists pe, distance_scores self scan pred_path gt_path = Ok pe.
Proof.
  intros Hall Hsd Hg0 Hp0 Hc. unfold distance_scores.
  rewrite Hall. simpl rbind. apply getitem_ok in Hsd. rewrite Hsd. simpl rbind.
  destruct (head_last_defined _ _ Hg0) as (goal & Hgoal & Hgin).
  destruct (head_last_defined _ _ Hp0) as (l & Hl & Hlin).
  assert (Hpne : concat pred_path <> []) by (intros E; rewrite E in Hp0; discriminate).
  apply py_index_first in Hg0, Hp0. rewrite Hg0, Hp0. simpl rbind.
  rewrite bool_decide_eq_true_2 by reflexivity. simpl negb. cbv iota.
  apply py_index_last in Hgoal, Hl. rewrite Hgoal. simpl rbind.
  destruct (get_nearest_total sd goal (concat pred_path) Hpne) as (near & Hnear & Hnin).
  { intros x Hx. apply Hc; apply elem_of_app; auto. }
  rewrite Hnear. simpl rbind. rewrite Hl. simpl rbind.
  destruct (Hc l goal) as [nav Hnav]; [apply elem_of_app; auto ..|].
  destruct (Hc near goal) as [orc Horc]; [apply elem_of_app; auto ..|].
  rewrite Hnav. simpl rbind. rewrite Horc. simpl rbind.
  rewrite !path_length_consecutive.
  destruct (consecutive_sum_total sd (concat pred_path)) as [tl Htl].
  { intros x y Hx Hy. apply Hc; apply elem_of_app; auto. }
  destruct (consecutive_sum_total sd gt_path) as [gl Hgl].
  { intros x y Hx Hy. apply Hc; apply elem_of_app; auto. }
  rewrite Htl. simpl rbind. rewrite Hgl. simpl rbind. eauto.
Qed.

End Proceeds.

(** C9. [_eval_item] fails with the start-position assertion exactly when
    the scan's table is there and the first viewpoint of the flattened
    predicted path differs from the first viewpoint of the reference path:
    no score is returned then.  When the two are equal the assertion passes
    and, the table covering both paths, the distance scores are computed. *)
Theorem start_assertion_iff_starts_differ {W : Collaborators} (self : R2RNavBatch)
    (scan : string) (pred_path : list (list string)) (gt_path : list string)
    (gt_objid : pyval) :
  (_eval_item self scan pred_path gt_path gt_objid = Raise (AssertionError start_msg) <->
   exists all sd g0 p0,
     shortest_distances self = Some all /\ all !! scan = Some sd /\
     head gt_path = Some g0 /\ head (concat pred_path) = Some p0 /\ g0 <> p0) /\
  (forall all sd v,
     shortest_distances self = Some all -> all !! scan = Some sd ->
     head gt_path = Some v -> head (concat pred_path) = Some v ->
     _eval_item self scan pred_path gt_path gt_objid <> Raise (AssertionError start_msg) /\
     (covers sd (concat pred_path ++ gt_path) ->
      exists pe nav,
        distance_scores self scan pred_path gt_path = Ok pe /\
        pe_scores pe !! "nav_error" = Some nav)).
Proof.
  assert (Hiff : _eval_item self scan pred_path gt_path gt_objid
                 = Raise (AssertionError start_msg) <->
                 exists all sd g0 p0,
                   shortest_distances self = Some all /\ all !! scan = Some sd /\
                   head gt_path = Some g0 /\ head (concat pred_path) = Some p0 /\ g0 <> p0).
  { split.
    - unfold _eval_item. intros H.
      apply rbind_raise in H. destruct H as [H | (pe & Hpe & H)].
      + apply distance_scores_assert in H. tauto.
      + exfalso.
        apply rbind_raise in H. destruct H as [H | (sc & Hsc & H)].
        * apply success_scores_assert in H. symmetry in H.
          exact (goal_key_not_start_msg _ _ H).
        * revert H.
          repeat (apply rbind_no_assert; [eauto with no_assert | intros ?; cbv beta]).
          discriminate.
    - intros (all & sd & g0 & p0 & Hall & Hsd & Hg0 & Hp0 & Hne).
      unfold _eval_item.
      rewrite (distance_scores_start_differs _ _ _ _ _ _ _ _ Hall Hsd Hg0 Hp0 Hne).
      reflexivity. }
  split; [exact Hiff|].
  intros all sd v Hall Hsd Hg0 Hp0. split.
  - intros H. apply Hiff in H.
    destruct H as (all' & sd' & g0 & p0 & _ & _ & Hg0' & Hp0' & Hne). congruence.
  - intros Hc.
    destruct (distance_scores_total _ _ _ _ _ _ _ Hall Hsd Hg0 Hp0 Hc) as [pe Hpe].
    destruct (distance_scores_lookups _ _ _ _ _ Hpe) as (nav & _ & _ & Hnav & _).
    exists pe, nav. auto.
Qed.

(** ** The attribute [obj2vps] *)

Section Obj2vps.
Context {W : Collaborators}.

Lemma load_nav_graphs_obj2vps (self self' : R2RNavBatch) :
  _load_nav_graphs self = Ok self' -> obj2vps self' = obj2vps self.
Proof.
  unfold _load_nav_graphs. destruct (real_world self).
  - intros [= <-]. reflexivity.
  - intros H. apply rbind_ok in H. destruct H as (g & _ & H). injection H as <-. reflexivity.
Qed.

Lemma init_obj2vps g view_db instr_data conn cand bsize afs sd nm sel rw sp g' self :
  init g view_db instr_data conn cand bsize afs sd nm sel rw sp = Ok (g', self) ->
  obj2vps self = None.
Proof.
  unfold init. intros H.
  apply rbind_ok in H. destruct H as (e & _ & H).
  destruct rw; simpl in H.
  - injection H as _ <-. reflexivity.
  - apply rbind_ok in H. destruct H as (d & _ & H).
    apply rbind_ok in H. destruct H as (self2 & Hload & H).
    apply rbind_ok in H. destruct H as (c & _ & H).
    injection H as _ <-. simpl.
    apply load_nav_graphs_obj2vps in Hload. exact Hload.
Qed.

Lemma next_minibatch_obj2vps g self requested g' self' :
  _next_minibatch g self requested = Ok (g', self') -> obj2vps self' = obj2vps self.
Proof.
  unfold _next_minibatch. intros H.
  apply rbind_ok in H. destruct H as (i & _ & H).
  destruct (_ <? _); injection H as _ <-; reflexivity.
Qed.

Lemma reset_obj2vps g self requested g' self' obs :
  reset g self requested = Ok (g', self', obs) -> obj2vps self' = obj2vps self.
Proof.
  unfold reset. intros H.
  apply rbind_ok in H. destruct H as ([g1 self1] & Hnext & H).
  apply rbind_ok in H. destruct H as (b & _ & H).
  apply rbind_ok in H. destruct H as (vps & _ & H).
  apply rbind_ok in H. destruct H as (e & _ & H).
  apply rbind_ok in H. destruct H as (o & _ & H).
  injection H as _ <- _. simpl.
  apply next_minibatch_obj2vps in Hnext. exact Hnext.
Qed.

Lemma step_obj2vps self actions self' obs :
  step self actions = Ok (self', obs) -> obj2vps self' = obj2vps self.
Proof.
  unfold step. intros H.
  apply rbind_ok in H. destruct H as (e & _ & H).
  apply rbind_ok in H. destruct H as (o & _ & H).
  injection H as <- _. reflexivity.
Qed.

(** No method of the class assigns [obj2vps]. *)
Lemma reachable_obj2vps (self : R2RNavBatch) : reachable self -> obj2vps self = None.
Proof.
  induction 1 as [ ? ? ? ? ? ? ? ? ? ? ? ? ? ? Hinit
                 | ? ? ? IH Hload
                 | ? ? ? ? ? ? IH Hnext
                 | ? ? ? ? IH
                 | ? ? ? ? ? ? ? IH Hreset
                 | ? ? ? ? ? IH Hstep ].
  - eapply init_obj2vps; eauto.
  - rewrite (load_nav_graphs_obj2vps _ _ Hload). exact IH.
  - rewrite (next_minibatch_obj2vps _ _ _ _ _ Hnext). exact IH.
  - unfold reset_epoch. simpl. exact IH.
  - rewrite (reset_obj2vps _ _ _ _ _ _ Hreset). exact IH.
  - rewrite (step_obj2vps _ _ _ _ Hstep). exact IH.
Qed.

(** Without [obj2vps], [_eval_item] returns no scores; it stops at the
    attribute as soon as the distance scores are through. *)
Lemma eval_item_unassigned (self : R2RNavBatch) (scan : string)
    (pred_path : list (list string)) (gt_path : list string) (gt_objid : pyval) :
  obj2vps self = None ->
  is_ok (_eval_item self scan pred_path gt_path gt_objid) = false /\
  (forall pe, distance_scores self scan pred_path gt_path = Ok pe ->
     _eval_item self scan pred_path gt_path gt_objid = Raise (AttributeError "obj2vps")).
Proof.
  intros Hnone. unfold _eval_item.
  destruct (distance_scores self scan pred_path gt_path) as [pe|e] eqn:Hpe; simpl.
  - rewrite (success_scores_unassigned _ _ _ _ _ Hnone). simpl.
    split; [reflexivity|]. intros pe' _. reflexivity.
  - split; [reflexivity|]. intros pe' [=].
Qed.

(** The loop of [eval_metrics] stops at its first item unless that item is
    scored. *)
Lemma eval_loop_first (self : R2RNavBatch) (item : prediction) (rest : list prediction)
    (r : gmap string (list Q) * list string) :
  eval_loop self (item :: rest) = Ok r ->
  exists trajs scan gt_traj gt_objid scores,
    gt_trajs self = Some trajs /\
    trajs !! pr_instr_id item = Some (scan, gt_traj, gt_objid) /\
    _eval_item self scan (pr_trajectory item) gt_traj gt_objid = Ok scores.
Proof.
  unfold eval_loop. simpl. intros H.
  apply rbind_ok in H. destruct H as (acc & Hacc & _).
  apply rbind_ok in Hacc. destruct Hacc as (trajs & Htrajs & Hacc).
  apply rbind_ok in Hacc. destruct Hacc as ([[scan gt_traj] gt_objid] & Hgt & Hacc).
  apply rbind_ok in Hacc. destruct Hacc as (scores & Hscores & _).
  apply getattr_ok in Htrajs. apply getitem_ok in Hgt.
  exists trajs, scan, gt_traj, gt_objid, scores. auto.
Qed.

End Obj2vps.

(** C2, as the code has it. On every instance built by [__init__] and acted
    on by the methods of the class only, [obj2vps] is unassigned.  Then no
    call of [_eval_item] returns scores: it raises the [AttributeError] on
    [obj2vps] once the table lookups and the start assertion before the
    policy test are through, and whatever those raise otherwise;
    [eval_metrics] returns only for an empty list of predictions, and raises
    the same [AttributeError] when its first item gets that far.  After a
    caller's [obj2vps = None] the policy test passes. *)
Theorem unassigned_obj2vps_stops_evaluation {W : Collaborators} (self : R2RNavBatch) :
  reachable self ->
  obj2vps self = None /\
  (forall scan pred_path gt_path gt_objid,
     is_ok (_eval_item self scan pred_path gt_path gt_objid) = false /\
     (forall pe, distance_scores self scan pred_path gt_path = Ok pe ->
        _eval_item self scan pred_path gt_path gt_objid = Raise (AttributeError "obj2vps") /\
        is_ok (success_scores (assign_obj2vps self None) scan gt_objid
                 (pe_path pe) (pe_scores pe)) = true)) /\
  (forall preds, is_ok (eval_metrics self preds) = true <-> preds = []) /\
  (forall item rest trajs scan gt_traj gt_objid pe,
     gt_trajs self = Some trajs ->
     trajs !! pr_instr_id item = Some (scan, gt_traj, gt_objid) ->
     distance_scores self scan (pr_trajectory item) gt_traj = Ok pe ->
     eval_metrics self (item :: rest) = Raise (AttributeError "obj2vps")).
Proof.
  intros Hreach. pose proof (reachable_obj2vps self Hreach) as Hnone.
  split; [exact Hnone|]. split; [|split].
  - intros scan pred_path gt_path gt_objid.
    destruct (eval_item_unassigned self scan pred_path gt_path gt_objid Hnone) as [Hno Hattr].
    split; [exact Hno|]. intros pe Hpe. split; [apply Hattr with pe; exact Hpe|].
    destruct (distance_scores_lookups _ _ _ _ _ Hpe) as (nav & orc & _ & Hnav & Horc & _).
    unfold success_scores, assign_obj2vps. simpl.
    apply getitem_ok in Hnav. rewrite Hnav. simpl.
    unfold getitem. rewrite lookup_insert_ne by discriminate. rewrite Horc. reflexivity.
  - intros preds. split.
    + destruct preds as [|item rest]; [reflexivity|]. intros Hok. exfalso.
      unfold eval_metrics in Hok.
      destruct (eval_loop self (item :: rest)) as [r|e] eqn:Hloop; [|discriminate].
      destruct (eval_loop_first _ _ _ _ Hloop)
        as (trajs & scan & gt_traj & gt_objid & scores & _ & _ & Hscores).
      destruct (eval_item_unassigned self scan (pr_trajectory item) gt_traj gt_objid Hnone)
        as [Hno _].
      rewrite Hscores in Hno. discriminate.
    + intros ->. reflexivity.
  - intros item rest trajs scan gt_traj gt_objid pe Htrajs Hgt Hpe.
    destruct (eval_item_unassigned self scan (pr_trajectory item) gt_traj gt_objid Hnone)
      as [_ Hattr].
    unfold eval_metrics, eval_loop. simpl.
    rewrite Htrajs. simpl. apply getitem_ok in Hgt. rewrite Hgt. simpl.
    rewrite (Hattr pe Hpe). reflexivity.
Qed.

(** ** The minibatch cursor *)

Lemma py_slice_window {A} (l : list A) (i k : Z) :
  0 <= i <= Z.of_nat (length l) -> 0 <= k ->
  py_slice l (Some i) (Some (i + k)) = take (Z.to_nat k) (drop (Z.to_nat i) l).
Proof.
  intros Hi Hk. unfold py_slice, slice_bound.
  replace (i <? 0) with false by (symmetry; apply Z.ltb_ge; lia).
  replace (i + k <? 0) with false by (symmetry; apply Z.ltb_ge; lia).
  cbv iota zeta.
  replace (Z.max 0 (Z.min (Z.of_nat (length l)) i)) with i by lia.
  destruct (Z_le_gt_dec (i + k) (Z.of_nat (length l))) as [Hfit|Hover].
  - replace (Z.max 0 (Z.min (Z.of_nat (length l)) (i + k))) with (i + k) by lia.
    f_equal. lia.
  - replace (Z.max 0 (Z.min (Z.of_nat (length l)) (i + k))) with (Z.of_nat (length l)) by lia.
    rewrite !take_ge; [reflexivity | rewrite length_drop; lia | rewrite length_drop; lia].
Qed.

Lemma py_slice_prefix {A} (l : list A) (k : Z) :
  0 <= k -> py_slice l None (Some k) = take (Z.to_nat k) l.
Proof.
  intros Hk. unfold py_slice, slice_bound.
  replace (k <? 0) with false by (symmetry; apply Z.ltb_ge; lia).
  cbv iota zeta. change (Z.to_nat 0) with 0%nat. rewrite drop_0.
  destruct (Z_le_gt_dec k (Z.of_nat (length l))) as [Hfit|Hover].
  - f_equal. lia.
  - replace (Z.max 0 (Z.min (Z.of_nat (length l)) k) - 0) with (Z.of_nat (length l)) by lia.
    rewrite !take_ge; [reflexivity | lia | lia].
Qed.

Section Cursor.
Context {W : Collaborators}.

(** One call of [_next_minibatch] with a batch size within the dataset. *)
Lemma next_minibatch_spec (g : RandomState) (self : R2RNavBatch) (requested : option Z) (i : Z) :
  shuffle_permutes ->
  ix self = Some i ->
  0 <= i <= Z.of_nat (length (data self)) ->
  0 <= effective_batch_size self requested <= Z.of_nat (length (data self)) ->
  exists g' self' b i',
    _next_minibatch g self requested = Ok (g', self') /\
    batch self' = Some b /\
    Z.of_nat (length b) = effective_batch_size self requested /\
    ix self' = Some i' /\
    0 <= i' <= Z.of_nat (length (data self')) /\
    data self' ≡ₚ data self /\
    real_world self' = real_world self /\ batch_size self' = batch_size self /\
    (if decide (i + effective_batch_size self requested <= Z.of_nat (length (data self)))
     then g' = g /\ data self' = data self /\
          i' = i + effective_batch_size self requested /\
          b = take (Z.to_nat (effective_batch_size self requested)) (drop (Z.to_nat i) (data self))
     else (g', data self') = random_shuffle g (data self) /\
          i' = effective_batch_size self requested - (Z.of_nat (length (data self)) - i) /\
          b = drop (Z.to_nat i) (data self) ++ take (Z.to_nat i') (data self')).
Proof.
  intros Hperm Hix Hi Hbs. unfold _next_minibatch.
  fold (effective_batch_size self requested) in *.
  change (if real_world self then 1
          else match requested with Some b => b | None => batch_size self end)
    with (effective_batch_size self requested).
  set (bs := effective_batch_size self requested) in *.
  rewrite Hix. simpl rbind.
  rewrite (py_slice_window (data self) i bs) by lia.
  set (n := Z.of_nat (length (data self))) in *.
  assert (Hlen : Z.of_nat (length (take (Z.to_nat bs) (drop (Z.to_nat i) (data self))))
                 = Z.min bs (n - i)).
  { rewrite length_take, length_drop. subst n. lia. }
  rewrite Hlen.
  destruct (decide (i + bs <= n)) as [Hfit|Hover].
  - replace (Z.min bs (n - i) <? bs) with false by (symmetry; apply Z.ltb_ge; lia).
    eexists _, _, _, _. split; [reflexivity|]. simpl.
    repeat split; try reflexivity; try lia.
  - replace (Z.min bs (n - i) <? bs) with true by (symmetry; apply Z.ltb_lt; lia).
    pose proof (Hperm g (data self)) as Hp.
    assert (Hn : length (snd (random_shuffle g (data self))) = length (data self))
      by (apply Permutation_length; exact Hp).
    rewrite (py_slice_prefix (snd (random_shuffle g (data self)))) by lia.
    replace (Z.min bs (n - i)) with (n - i) by lia.
    assert (Htake : take (Z.to_nat bs) (drop (Z.to_nat i) (data self))
                    = drop (Z.to_nat i) (data self))
      by (apply take_ge; rewrite length_drop; subst n; lia).
    rewrite Htake.
    eexists _, _, _, _. split; [reflexivity|]. simpl.
    repeat split; try reflexivity; try lia; try exact Hp.
    + rewrite length_app, length_drop, length_take, Hn. subst n. lia.
    + destruct (random_shuffle g (data self)); reflexivity.
Qed.

End Cursor.

Section Batches.
Context {W : Collaborators}.

Lemma reset_batch g self requested g' self' obs :
  reset g self requested = Ok (g', self', obs) ->
  exists g1 self1,
    _next_minibatch g self requested = Ok (g1, self1) /\
    batch self' = batch self1 /\ ix self' = ix self1 /\ data self' = data self1.
Proof.
  unfold reset. intros H.
  apply rbind_ok in H. destruct H as ([g1 self1] & Hnext & H).
  apply rbind_ok in H. destruct H as (b & _ & H).
  apply rbind_ok in H. destruct H as (vps & _ & H).
  apply rbind_ok in H. destruct H as (e & _ & H).
  apply rbind_ok in H. destruct H as (o & _ & H).
  injection H as _ <- _. simpl. exists g1, self1. auto.
Qed.

(** Three draws of four from ten records: the third one wraps. *)
Lemma draw_three_of_ten (g : RandomState) (self : R2RNavBatch) :
  shuffle_permutes ->
  length (data self) = 10%nat -> real_world self = false -> ix self = Some 0 ->
  exists g' self' b1 b2 b3,
    draw 3 g self (Some 4) = Ok (g', self', [b1; b2; b3]) /\
    length b1 = 4%nat /\ length b2 = 4%nat /\ length b3 = 4%nat /\
    length (b1 ++ b2 ++ b3) = 12%nat /\
    b1 = take 4 (data self) /\ b2 = take 4 (drop 4 (data self)) /\
    (g', data self') = random_shuffle g (data self) /\
    b3 = drop 8 (data self) ++ take 2 (data self') /\
    ix self' = Some 2.
Proof.
  intros Hperm Hlen Hrw Hix.
  assert (Hbs : forall s, real_world s = false -> effective_batch_size s (Some 4) = 4)
    by (intros s Hs; unfold effective_batch_size; rewrite Hs; reflexivity).
  destruct (next_minibatch_spec g self (Some 4) 0 Hperm Hix)
    as (g1 & s1 & b1 & i1 & Hrun1 & Hb1 & Hl1 & Hix1 & _ & Hp1 & Hrw1 & _ & Hcase1);
    [rewrite ?Hbs, Hlen by exact Hrw; lia ..|].
  rewrite Hbs, Hlen in Hcase1 by exact Hrw.
  destruct (decide _) as [_|Hbad] in Hcase1; [|exfalso; lia].
  destruct Hcase1 as (-> & Hd1 & -> & ->).
  rewrite Hrw in Hrw1. rewrite Hbs in Hl1 by exact Hrw.
  destruct (next_minibatch_spec g s1 (Some 4) (0 + 4) Hperm Hix1)
    as (g2 & s2 & b2 & i2 & Hrun2 & Hb2 & Hl2 & Hix2 & _ & Hp2 & Hrw2 & _ & Hcase2);
    [rewrite ?Hbs, Hd1, Hlen by exact Hrw1; lia ..|].
  rewrite Hbs, Hd1, Hlen in Hcase2 by exact Hrw1.
  destruct (decide _) as [_|Hbad] in Hcase2; [|exfalso; lia].
  destruct Hcase2 as (-> & Hd2 & -> & ->).
  rewrite Hrw1 in Hrw2. rewrite Hbs in Hl2 by exact Hrw1.
  destruct (next_minibatch_spec g s2 (Some 4) (0 + 4 + 4) Hperm Hix2)
    as (g3 & s3 & b3 & i3 & Hrun3 & Hb3 & Hl3 & Hix3 & _ & Hp3 & Hrw3 & _ & Hcase3);
    [rewrite ?Hbs, Hd2, Hlen by exact Hrw2; lia ..|].
  rewrite Hbs, Hd2, Hlen in Hcase3 by exact Hrw2.
  destruct (decide _) as [Hbad|_] in Hcase3; [exfalso; lia|].
  destruct Hcase3 as (Hshuf & -> & ->).
  rewrite Hbs in Hl3 by exact Hrw2.
  exists g3, s3, (take 4 (data self)), (take 4 (drop 4 (data self))),
    (drop 8 (data self) ++ take 2 (data s3)).
  simpl draw. rewrite Hrun1. simpl rbind. rewrite Hb1. simpl rbind.
  rewrite Hrun2. simpl rbind. rewrite Hb2. simpl rbind.
  rewrite Hrun3. simpl rbind. rewrite Hb3. simpl rbind.
  split; [reflexivity|].
  assert (Hn3 : length (data s3) = 10%nat)
    by (rewrite (Permutation_length Hp3), Hd2; exact Hlen).
  assert (H1 : length (take 4 (data self)) = 4%nat)
    by (rewrite length_take, Hlen; reflexivity).
  assert (H2 : length (take 4 (drop 4 (data self))) = 4%nat)
    by (rewrite length_take, length_drop, Hlen; reflexivity).
  assert (H3 : length (drop 8 (data self) ++ take 2 (data s3)) = 4%nat)
    by (rewrite length_app, length_drop, length_take, Hlen, Hn3; reflexivity).
  repeat split; auto.
  rewrite (length_app (take 4 _)), (length_app (take 4 (drop 4 _))), H1, H2, H3.
  reflexivity.
Qed.

End Batches.

(** C4, as the code has it. When the batch size does not exceed the size of
    the dataset (and the cursor lies within it), [_next_minibatch] stores a
    batch of exactly that size, reached through [reset] as well: either the
    next records past the cursor, or, when fewer remain, the remainder
    followed by a prefix of the reshuffled dataset, the cursor being set
    behind that prefix.  With ten records and batches of four, three
    successive draws take twelve record slots and the third one wraps. *)
Theorem minibatch_has_batch_size {W : Collaborators} (g : RandomState)
    (self : R2RNavBatch) (requested : option Z) (i : Z) :
  shuffle_permutes ->
  ix self = Some i ->
  0 <= i <= Z.of_nat (length (data self)) ->
  0 <= effective_batch_size self requested <= Z.of_nat (length (data self)) ->
  (exists g' self' b i',
     _next_minibatch g self requested = Ok (g', self') /\
     batch self' = Some b /\
     Z.of_nat (length b) = effective_batch_size self requested /\
     ix self' = Some i' /\ 0 <= i' <= Z.of_nat (length (data self')) /\
     data self' ≡ₚ data self /\
     (if decide (i + effective_batch_size self requested <= Z.of_nat (length (data self)))
      then data self' = data self /\
           i' = i + effective_batch_size self requested /\
           b = take (Z.to_nat (effective_batch_size self requested))
                 (drop (Z.to_nat i) (data self))
      else (g', data self') = random_shuffle g (data self) /\
           i' = effective_batch_size self requested - (Z.of_nat (length (data self)) - i) /\
           b = drop (Z.to_nat i) (data self) ++ take (Z.to_nat i') (data self'))) /\
  (forall g' self' obs,
     reset g self requested = Ok (g', self', obs) ->
     exists b, batch self' = Some b /\
               Z.of_nat (length b) = effective_batch_size self requested) /\
  (length (data self) = 10%nat -> real_world self = false -> i = 0 ->
   exists g' self' b1 b2 b3,
     draw 3 g self (Some 4) = Ok (g', self', [b1; b2; b3]) /\
     length (b1 ++ b2 ++ b3) = 12%nat /\
     length b1 = 4%nat /\ length b2 = 4%nat /\ length b3 = 4%nat /\
     b3 = drop 8 (data self) ++ take 2 (data self') /\
     ix self' = Some 2).
Proof.
  intros Hperm Hix Hi Hbs.
  destruct (next_minibatch_spec g self requested i Hperm Hix Hi Hbs)
    as (g1 & s1 & b & i' & Hrun & Hb & Hl & Hix' & Hi' & Hp & _ & _ & Hcase).
  split; [|split].
  - exists g1, s1, b, i'. repeat split; try assumption; try lia.
    destruct (decide _); tauto.
  - intros g' self' obs Hreset.
    destruct (reset_batch _ _ _ _ _ _ Hreset) as (g2 & s2 & Hrun' & Hbatch & _).
    rewrite Hrun in Hrun'. injection Hrun' as <- <-.
    exists b. rewrite Hbatch. auto.
  - intros Hlen Hrw ->.
    destruct (draw_three_of_ten g self Hperm Hlen Hrw Hix)
      as (g' & self' & b1 & b2 & b3 & Hd & H1 & H2 & H3 & H12 & _ & _ & _ & Hb3 & Hix3).
    exists g', self', b1, b2, b3. repeat split; assumption.
Qed.

(** ** Real-world mode *)

Lemma py_range_length (n : Z) : length (py_range n) = Z.to_nat n.
Proof. unfold py_range. rewrite length_fmap, length_seq. reflexivity. Qed.

(** C1, what the code does. An instance built with [real_world=True] has no
    graphs and no shortest-path or distance tables, no cursor and no
    ground-truth trajectories, while its simulator batch still has
    [batch_size] slots and [_next_minibatch] would work with a batch of 1.
    [reset] raises the [AttributeError] on the cursor [ix], which only the
    other mode assigns; [_get_obs] raises the [NameError] on [passf], so
    [step] never returns observations either. *)
Theorem real_world_reset_and_step_raise {W : Collaborators} g view_db instr_data conn cand
    bsize afs sd nm sel sp g' (self : R2RNavBatch) :
  init g view_db instr_data conn cand bsize afs sd nm sel true sp = Ok (g', self) ->
  real_world self = true /\
  graphs self = None /\ shortest_paths self = None /\ shortest_distances self = None /\
  ix self = None /\ gt_trajs self = None /\
  length (sims (env self)) = Z.to_nat bsize /\
  (forall requested, effective_batch_size self requested = 1) /\
  (forall g1 requested, reset g1 self requested = Raise (AttributeError "ix")) /\
  _get_obs self = Raise (NameError "passf") /\
  (forall actions, is_ok (step self actions) = false) /\
  (forall actions e, makeActions (env self) actions = Ok e ->
     step self actions = Raise (NameError "passf")).
Proof.
  unfold init. intros H.
  apply rbind_ok in H. destruct H as (e & He & H). simpl in H.
  injection H as _ Hself.
  assert (Hrw : real_world self = true) by (rewrite <- Hself; reflexivity).
  assert (Hix : ix self = None) by (rewrite <- Hself; reflexivity).
  assert (Henv : env self = e) by (rewrite <- Hself; reflexivity).
  assert (Hobs : forall e', _get_obs (set_env self e') = Raise (NameError "passf"))
    by (intros e'; unfold _get_obs; simpl; rewrite Hrw; reflexivity).
  split; [exact Hrw|].
  split; [rewrite <- Hself; reflexivity|].
  split; [rewrite <- Hself; reflexivity|].
  split; [rewrite <- Hself; reflexivity|].
  split; [exact Hix|].
  split; [rewrite <- Hself; reflexivity|].
  split.
  { rewrite Henv. unfold EnvBatch_init in He.
    apply rbind_ok in He. destruct He as (s & Hs & He).
    injection He as <-. simpl.
    rewrite (traverse_length _ _ _ Hs). apply py_range_length. }
  split; [intros requested; unfold effective_batch_size; rewrite Hrw; reflexivity|].
  split; [intros g1 requested; unfold reset, _next_minibatch; rewrite Hix; reflexivity|].
  split; [unfold _get_obs; rewrite Hrw; reflexivity|].
  split.
  - intros actions. unfold step.
    destruct (makeActions (env self) actions) as [e'|err]; simpl rbind; [|reflexivity].
    rewrite Hobs. reflexivity.
  - intros actions e' Hact. unfold step. rewrite Hact. simpl rbind.
    rewrite Hobs. reflexivity.
Qed.

(** ** Candidate projection *)

Section Candidates.
Context {W : Collaborators}.

Lemma make_candidate_ok (self : R2RNavBatch) (feature : list fvec) (scan vp : string)
    (viewId : Z) (cs : list (candidate Q fvec)) :
  make_candidate self feature scan vp viewId = Ok cs ->
  exists cd table,
    candidates_dict self = Some cd /\
    cd !! (scan +:+ "_" +:+ vp) = Some table /\
    traverse (fun kv => c_new (arith := Q_arith) feature scan viewId (fst kv) (snd kv)) table
    = Ok cs.
Proof.
  unfold make_candidate, candidate_loop. intros H.
  apply rbind_ok in H. destruct H as (cd & Hcd & H).
  apply rbind_ok in H. destruct H as (table & Htable & H).
  apply getattr_ok in Hcd. apply getitem_ok in Htable. eauto.
Qed.

(** With the table of the viewpoint there and every feature index within
    the feature batch, [make_candidate] returns a list. *)
Lemma make_candidate_total (self : R2RNavBatch) (feature : list fvec) (scan vp : string)
    (viewId : Z) (cd : gmap string (cand_table Q)) (table : cand_table Q) :
  candidates_dict self = Some cd ->
  cd !! (scan +:+ "_" +:+ vp) = Some table ->
  (forall kv, kv ∈ table -> exists f, py_index feature (v_featureId (snd kv)) = Ok f) ->
  exists cs, make_candidate self feature scan vp viewId = Ok cs.
Proof.
  intros Hcd Htable Hfeat. unfold make_candidate, candidate_loop.
  rewrite Hcd. simpl rbind. apply getitem_ok in Htable. rewrite Htable. simpl rbind.
  apply traverse_total. intros kv Hkv. destruct (Hfeat kv Hkv) as [f Hf].
  unfold c_new. rewrite Hf. simpl. eauto.
Qed.

End Candidates.

(** C10, in exact arithmetic. For every view index and every entry
    [(key, value)] of the candidate table of the viewpoint, the candidate
    built at the same position has relative heading
    [value[3] - (viewId % 12) * radians(30)] and relative elevation
    [value[4] - (viewId // 12 - 1) * radians(30)], carries [value[3]] and
    [value[4]] unchanged as its normalized heading and elevation, so that
    adding the base offsets back gives these, and has the feature
    [feature[value[1]]]. *)
Theorem candidate_angles_relative_to_view {W : Collaborators} (self : R2RNavBatch)
    (feature : list fvec) (scan vp : string) (viewId : Z) (cs : list (candidate Q fvec)) :
  make_candidate self feature scan vp viewId = Ok cs ->
  exists cd table,
    candidates_dict self = Some cd /\
    cd !! (scan +:+ "_" +:+ vp) = Some table /\
    length cs = length table /\
    forall (i : nat) key value,
      table !! i = Some (key, value) ->
      exists c,
        cs !! i = Some c /\
        c_viewpointId c = key /\ c_scanId c = scan /\
        c_pointId c = v_pointId value /\ c_distance c = v_distance value /\
        c_heading c
          = (v_heading value - inject_Z (viewId mod 12) * math_radians (inject_Z 30))%Q /\
        c_elevation c
          = (v_elevation value - inject_Z (viewId / 12 - 1) * math_radians (inject_Z 30))%Q /\
        c_normalized_heading c = v_heading value /\
        c_normalized_elevation c = v_elevation value /\
        (c_heading c + base_heading (arith := Q_arith) viewId == c_normalized_heading c)%Q /\
        (c_elevation c + base_elevation (arith := Q_arith) viewId
           == c_normalized_elevation c)%Q /\
        py_index feature (v_featureId value) = Ok (c_feature c).
Proof.
  intros H. destruct (make_candidate_ok _ _ _ _ _ _ H) as (cd & table & Hcd & Htable & Hloop).
  exists cd, table. split; [exact Hcd|]. split; [exact Htable|].
  split; [eapply traverse_length; exact Hloop|].
  intros i key value Hi.
  destruct (traverse_lookup _ _ _ _ _ Hloop Hi) as (c & Hc & Hnew).
  exists c. split; [exact Hc|].
  unfold c_new in Hnew. simpl fst in Hnew. simpl snd in Hnew.
  apply rbind_ok in Hnew. destruct Hnew as (f & Hf & Hnew).
  injection Hnew as <-. simpl.
  repeat split; try reflexivity; try exact Hf.
  - unfold base_heading. simpl. ring.
  - unfold base_elevation. simpl. ring.
Qed.

(** * Further properties *)

(** ** Ids *)

(** The key [make_candidate] looks up is the id [_make_id] builds. *)
Lemma make_candidate_key {W : Collaborators} (self : R2RNavBatch) (feature : list fvec)
    (scan vp : string) (viewId : Z) :
  make_candidate self feature scan vp viewId
  = (cd <- getattr "candidates_dict" (candidates_dict self) ;;
     table <- getitem cd (_make_id scan vp) ;;
     candidate_loop (arith := Q_arith) feature scan viewId table).
Proof. reflexivity. Qed.

(** X1. The id [scanId + '_' + viewpointId], which is also the key of the
    candidate dictionary, determines the scan and the viewpoint it was built
    from as long as scan ids contain no ['_']: two different pairs never
    share an id. *)
Theorem make_id_determines_pair (scan vp scan' vp' : string) :
  has_char underscore scan = false -> has_char underscore scan' = false ->
  _make_id scan vp = _make_id scan' vp' -> scan = scan' /\ vp = vp'.
Proof.
  unfold _make_id. revert scan'.
  induction scan as [|c scan IH]; intros [|c' scan'] Hs Hs' H.
  - change (String underscore vp = String underscore vp') in H.
    injection H as ->. auto.
  - change (String underscore vp = String c' (scan' +:+ "_" +:+ vp')) in H.
    injection H as <- _. simpl in Hs'. discriminate.
  - change (String c (scan +:+ "_" +:+ vp) = String underscore vp') in H.
    injection H as -> _. simpl in Hs. discriminate.
  - change (String c (scan +:+ "_" +:+ vp) = String c' (scan' +:+ "_" +:+ vp')) in H.
    simpl in Hs, Hs'. injection H as -> H.
    apply orb_false_iff in Hs, Hs'.
    destruct (IH scan' (proj2 Hs) (proj2 Hs') H) as [-> ->]. auto.
Qed.

(** With a ['_'] in the scan id two pairs can collide. *)
Example make_id_collision : _make_id "a_b" "c" = _make_id "a" "b_c".
Proof. reflexivity. Qed.

(** ** Ground-truth trajectories *)

Lemma gt_fold_absent (d : list episode) (m : gmap string (string * list string * pyval))
    (k : string) :
  (forall x, x ∈ d -> ep_instr_id x <> k) ->
  foldl (fun m x => <[ep_instr_id x := (ep_scan x, ep_path x, dict_get (ep_objId x))]> m) m d
    !! k = m !! k.
Proof.
  revert m. induction d as [|x d IH]; intros m Hd; simpl; [reflexivity|].
  rewrite IH by (intros y Hy; apply Hd; right; exact Hy).
  apply lookup_insert_ne. apply Hd. left.
Qed.

Lemma gt_fold_present (d : list episode) (m : gmap string (string * list string * pyval))
    (k : string) :
  is_Some (foldl (fun m x => <[ep_instr_id x := (ep_scan x, ep_path x, dict_get (ep_objId x))]> m)
             m d !! k)
  <-> is_Some (m !! k) \/ exists x, x ∈ d /\ ep_instr_id x = k.
Proof.
  revert m. induction d as [|x d IH]; intros m; simpl.
  - split; [auto|]. intros [H | (x & Hx & _)]; [exact H|]. apply elem_of_nil in Hx. contradiction.
  - rewrite IH. rewrite lookup_insert_is_Some. split.
    + intros [[Heq | [Hne H]] | (y & Hy & Hk)].
      * right. exists x. split; [left | exact Heq].
      * left. exact H.
      * right. exists y. split; [right; exact Hy | exact Hk].
    + intros [H | (y & Hy & Hk)].
      * left. destruct (decide (ep_instr_id x = k)) as [Heq|Hne]; [left | right]; auto.
      * apply elem_of_cons in Hy. destruct Hy as [-> | Hy].
        -- left. left. exact Hk.
        -- right. exists y. auto.
Qed.

(** X2. [_get_gt_trajs] returns an empty dict in real-world mode; otherwise
    its keys are exactly the instruction ids of the data, and under an id it
    holds the scan, path and object id of the last record with that id. *)
Theorem gt_trajs_last_record_wins (d : list episode) :
  _get_gt_trajs true d = ∅ /\
  (forall k, is_Some (_get_gt_trajs false d !! k) <-> exists x, x ∈ d /\ ep_instr_id x = k) /\
  (forall d1 x d2,
     d = d1 ++ x :: d2 ->
     (forall y, y ∈ d2 -> ep_instr_id y <> ep_instr_id x) ->
     _get_gt_trajs false d !! ep_instr_id x = Some (gt_entry x)).
Proof.
  split; [reflexivity|]. split.
  - intros k. unfold _get_gt_trajs. rewrite gt_fold_present. split.
    + intros [H | H]; [|exact H]. rewrite lookup_empty in H. destruct H as [? [=]].
    + auto.
  - intros d1 x d2 -> Hlast. unfold _get_gt_trajs.
    rewrite foldl_app. simpl.
    rewrite gt_fold_absent by exact Hlast.
    apply lookup_insert_eq.
Qed.

(** ** Validation splits *)

Lemma py_slice_from {A} (l : list A) (i : Z) :
  0 <= i <= Z.of_nat (length l) -> py_slice l (Some i) None = drop (Z.to_nat i) l.
Proof.
  intros Hi. unfold py_slice, slice_bound.
  replace (i <? 0) with false by (symmetry; apply Z.ltb_ge; lia).
  cbv iota zeta.
  replace (Z.max 0 (Z.min (Z.of_nat (length l)) i)) with i by lia.
  apply take_ge. rewrite length_drop. lia.
Qed.

Lemma traverse_ok_fmap {A B} (f : A -> result B) (g : A -> B) (l : list A) :
  (forall x, x ∈ l -> f x = Ok (g x)) -> traverse f l = Ok (g <$> l).
Proof.
  induction l as [|x l IH]; intros H; simpl; [reflexivity|].
  rewrite (H x) by left. simpl.
  rewrite IH by (intros y Hy; apply H; right; exact Hy). reflexivity.
Qed.

(** [m] chunks of [q] records are the first [q * m] records. *)
Lemma chunks_concat {A} (d : list A) (q m : nat) :
  concat ((fun t => take q (drop (q * t) d)) <$> seq 0 m) = take (q * m) d.
Proof.
  induction m as [|m IH].
  - rewrite Nat.mul_0_r. reflexivity.
  - rewrite seq_S, fmap_app, concat_app, IH. simpl.
    rewrite app_nil_r, take_take_drop. f_equal. lia.
Qed.

(** The split [t_split] of [n_splits]: a chunk of [len // n_splits]
    records, the last split taking what is left. *)
Lemma split_data_chunk (d : list episode) (t n : Z) :
  0 < n -> 0 <= t < n ->
  split_data d (Some (t, n))
  = Ok (if t =? n - 1
        then drop (Z.to_nat (Z.of_nat (length d) / n) * Z.to_nat t) d
        else take (Z.to_nat (Z.of_nat (length d) / n))
               (drop (Z.to_nat (Z.of_nat (length d) / n) * Z.to_nat t) d)).
Proof.
  intros Hn Ht. unfold split_data.
  replace (n =? 0) with false by (symmetry; apply Z.eqb_neq; lia).
  set (q := Z.of_nat (length d) / n).
  assert (Hq : 0 <= q) by (apply Z.div_pos; lia).
  assert (Hqn : q * n <= Z.of_nat (length d)) by (rewrite Z.mul_comm; apply Z.mul_div_le; lia).
  assert (Hqt : 0 <= q * t <= Z.of_nat (length d)) by nia.
  assert (Hnat : Z.to_nat (q * t) = (Z.to_nat q * Z.to_nat t)%nat) by (apply Z2Nat.inj_mul; lia).
  f_equal. destruct (t =? n - 1).
  - rewrite py_slice_from by exact Hqt. rewrite Hnat. reflexivity.
  - rewrite py_slice_window by lia. rewrite Hnat. reflexivity.
Qed.

(** X3. For [n_splits > 0] the validation splits [0 .. n_splits - 1] that
    [__init__] cuts partition the dataset: concatenated in order they give
    the dataset back, every split but the last has [len // n_splits] records
    and the last one has the remainder as well. *)
Theorem splits_partition_dataset (d : list episode) (n : Z) :
  0 < n ->
  exists parts,
    all_splits d n = Ok parts /\
    length parts = Z.to_nat n /\
    concat parts = d /\
    (forall (t : nat) part,
       (t < Z.to_nat n - 1)%nat -> parts !! t = Some part ->
       Z.of_nat (length part) = Z.of_nat (length d) / n) /\
    (forall part,
       parts !! (Z.to_nat n - 1)%nat = Some part ->
       Z.of_nat (length part)
       = Z.of_nat (length d) - (Z.of_nat (length d) / n) * (n - 1)).
Proof.
  intros Hn.
  set (q := Z.to_nat (Z.of_nat (length d) / n)).
  assert (Hq : Z.of_nat q = Z.of_nat (length d) / n)
    by (subst q; apply Z2Nat.id, Z.div_pos; lia).
  assert (Hqn : Z.of_nat (length d) / n * n <= Z.of_nat (length d))
    by (rewrite Z.mul_comm; apply Z.mul_div_le; lia).
  set (chunk := fun t : Z =>
         if t =? n - 1 then drop (q * Z.to_nat t) d
         else take q (drop (q * Z.to_nat t) d)).
  assert (Hall : all_splits d n = Ok (chunk <$> py_range n)).
  { unfold all_splits. apply traverse_ok_fmap. intros t Ht.
    apply split_data_chunk; [exact Hn|].
    unfold py_range in Ht. apply list_elem_of_fmap in Ht. destruct Ht as (k & -> & Hk).
    apply elem_of_seq in Hk. lia. }
  exists (chunk <$> py_range n). split; [exact Hall|].
  destruct (Z.to_nat n) as [|m] eqn:Hm; [lia|].
  assert (Hparts : chunk <$> py_range n
                   = ((fun t => take q (drop (q * t) d)) <$> seq 0 m) ++ [drop (q * m) d]).
  { unfold py_range. rewrite Hm, seq_S, !fmap_app. simpl. f_equal.
    - rewrite <- list_fmap_compose. apply list_fmap_ext.
      intros i t Ht. apply lookup_seq in Ht. simpl. unfold chunk.
      replace (Z.of_nat t =? n - 1) with false by (symmetry; apply Z.eqb_neq; lia).
      rewrite Nat2Z.id. reflexivity.
    - unfold chunk. replace (Z.of_nat m =? n - 1) with true by (symmetry; apply Z.eqb_eq; lia).
      rewrite Nat2Z.id. reflexivity. }
  rewrite Hparts. split; [|split; [|split]].
  - rewrite length_app, length_fmap, length_seq. simpl. lia.
  - rewrite concat_app, chunks_concat. simpl. rewrite app_nil_r. apply take_drop.
  - intros t part Ht Hpart. rewrite lookup_app_l in Hpart
      by (rewrite length_fmap, length_seq; lia).
    rewrite list_lookup_fmap in Hpart.
    destruct (seq 0 m !! t) as [t'|] eqn:Hseq; [|discriminate].
    apply lookup_seq in Hseq. injection Hpart as <-.
    rewrite length_take, length_drop. nia.
  - intros part Hpart. replace (S m - 1)%nat with m in Hpart by lia.
    rewrite lookup_app_r in Hpart by (rewrite length_fmap, length_seq; lia).
    rewrite length_fmap, length_seq, Nat.sub_diag in Hpart. injection Hpart as <-.
    rewrite length_drop. nia.
Qed.

(** ** Simulator slots *)

Lemma py_index_nat {A} (l : list A) (k : nat) (x : A) :
  py_index l (Z.of_nat k) = Ok x <-> l !! k = Some x.
Proof.
  unfold py_index.
  replace (Z.of_nat k <? 0) with false by (symmetry; apply Z.ltb_ge; lia).
  rewrite Nat2Z.id. split.
  - destruct ((0 <=? _) && _); [|discriminate].
    destruct (l !! k); [intros [= ->]; reflexivity | discriminate].
  - intros H. pose proof (lookup_lt_Some _ _ _ H) as Hlt.
    replace ((0 <=? Z.of_nat k) && (Z.of_nat k <? Z.of_nat (length l))) with true
      by (symmetry; apply andb_true_iff; split; [apply Z.leb_le | apply Z.ltb_lt]; lia).
    rewrite H. reflexivity.
Qed.

Lemma py_index_in_range {A} (l : list A) (i : Z) :
  (exists x, py_index l i = Ok x) <-> index_in_range l i.
Proof.
  unfold py_index, index_in_range. split.
  - intros [x H].
    destruct ((0 <=? _) && _) eqn:Hc; [|discriminate].
    apply andb_true_iff in Hc. destruct Hc as [H0 Hn].
    apply Z.leb_le in H0. apply Z.ltb_lt in Hn.
    destruct (i <? 0) eqn:Hi; [apply Z.ltb_lt in Hi | apply Z.ltb_ge in Hi]; lia.
  - intros Hr.
    set (j := if i <? 0 then i + Z.of_nat (length l) else i).
    assert (Hj : 0 <= j < Z.of_nat (length l)).
    { subst j. destruct (i <? 0) eqn:Hi; [apply Z.ltb_lt in Hi | apply Z.ltb_ge in Hi]; lia. }
    replace ((0 <=? j) && (j <? Z.of_nat (length l))) with true
      by (symmetry; apply andb_true_iff; split; [apply Z.leb_le | apply Z.ltb_lt]; lia).
    destruct (lookup_lt_is_Some_2 l (Z.to_nat j)) as [x Hx]; [lia|].
    rewrite Hx. eauto.
Qed.

Lemma py_index_raises_IndexError {A} (l : list A) (i : Z) (e : pyerr) :
  py_index l i = Raise e -> e = IndexError.
Proof.
  unfold py_index. destruct ((0 <=? _) && _); [|intros [= <-]; reflexivity].
  destruct (l !! _); [discriminate | intros [= <-]; reflexivity].
Qed.

Lemma for_each_ext {A S} (f g : S -> A -> result S) (l : list A) (acc : S) :
  (forall s x, f s x = g s x) -> for_each f l acc = for_each g l acc.
Proof.
  intros Hfg. revert acc. induction l as [|x l IH]; intros acc; simpl; [reflexivity|].
  rewrite Hfg. destruct (g acc x); simpl; auto.
Qed.

Lemma enumerate_seq {A} (l : list A) :
  enumerate l = zip (Z.of_nat <$> seq 0 (length l)) l.
Proof. unfold enumerate, py_range. rewrite Nat2Z.id. reflexivity. Qed.

Lemma enumerate_lookup {A} (l : list A) (i : nat) (x : A) :
  l !! i = Some x -> enumerate l !! i = Some (Z.of_nat i, x).
Proof.
  intros H. rewrite enumerate_seq. apply lookup_zip_with_Some.
  exists (Z.of_nat i), x. split; [reflexivity|]. split; [|exact H].
  rewrite list_lookup_fmap.
  pose proof (lookup_lt_Some _ _ _ H) as Hlt.
  rewrite (proj2 (lookup_seq 0 (length l) i i)) by (split; [reflexivity | exact Hlt]).
  reflexivity.
Qed.

Section Slots.
Context {W : Collaborators}.

Lemma on_sim_ok (s s1 : list Simulator) (k : nat) (method : Simulator -> outcome Simulator) :
  on_sim s (Z.of_nat k) method = Ok s1 <->
  exists sim sim', s !! k = Some sim /\ method sim = Done sim' /\ s1 = <[k := sim']> s.
Proof.
  unfold on_sim. split.
  - intros H. apply rbind_ok in H. destruct H as (sim & Hsim & H).
    apply rbind_ok in H. destruct H as (sim' & Hm & H). injection H as <-.
    apply py_index_nat in Hsim. apply call_ok in Hm. rewrite Nat2Z.id. eauto.
  - intros (sim & sim' & Hsim & Hm & ->).
    apply py_index_nat in Hsim. rewrite Hsim. simpl. rewrite Hm. simpl.
    rewrite Nat2Z.id. reflexivity.
Qed.

(** A loop that calls [method item] on the simulator of slot [k], [k + 1],
    ... for the successive items: each slot gets its own item, the other
    slots are left as they were. *)
Lemma for_each_on_sim {I} (method : I -> Simulator -> outcome Simulator) (items : list I) :
  forall (k : nat) (s s' : list Simulator),
    for_each (fun s (it : Z * I) => on_sim s (fst it) (method (snd it)))
      (zip (Z.of_nat <$> seq k (length items)) items) s = Ok s' ->
    length s' = length s /\
    (items <> [] -> (k + length items <= length s)%nat) /\
    (forall j item, items !! j = Some item ->
       exists sim sim', s !! (k + j)%nat = Some sim /\ method item sim = Done sim' /\
                        s' !! (k + j)%nat = Some sim') /\
    (forall i, (i < k \/ k + length items <= i)%nat -> s' !! i = s !! i).
Proof.
  induction items as [|item items IH]; intros k s s' H.
  - simpl in H. injection H as <-. repeat split; try congruence.
    intros j item Hj. discriminate.
  - simpl in H. apply rbind_ok in H. destruct H as (s1 & Hs1 & H).
    simpl in Hs1. apply on_sim_ok in Hs1. destruct Hs1 as (sim & sim' & Hsim & Hm & ->).
    pose proof (lookup_lt_Some _ _ _ Hsim) as Hk.
    destruct (IH (S k) _ _ H) as (Hlen & Hfit & Hslots & Hrest).
    rewrite length_insert in Hlen, Hfit.
    split; [exact Hlen|]. split; [|split].
    + intros _. simpl. destruct items as [|it items']; [simpl; lia|].
      assert (S k + length (it :: items') <= length s)%nat by (apply Hfit; discriminate).
      lia.
    + intros [|j] it Hit; simpl in Hit.
      * injection Hit as <-. rewrite Nat.add_0_r. exists sim, sim'.
        split; [exact Hsim|]. split; [exact Hm|].
        rewrite Hrest by lia. apply list_lookup_insert_eq. exact Hk.
      * destruct (Hslots j it Hit) as (sm & sm' & Hsm & Hmm & Hsm').
        replace (k + S j)%nat with (S k + j)%nat by lia.
        rewrite list_lookup_insert_ne in Hsm by lia. eauto.
    + intros i Hi. simpl in Hi.
      rewrite Hrest by lia. apply list_lookup_insert_ne. lia.
Qed.

End Slots.

Section SlotCount.
Context {W : Collaborators}.

(** A loop over [on_sim] keeps the number of simulators. *)
Lemma for_each_on_sim_length {I} (body : list Simulator -> Z * I -> result (list Simulator))
    (method : I -> Simulator -> outcome Simulator) (items : list (Z * I)) :
  (forall s it, body s it = on_sim s (fst it) (method (snd it))) ->
  forall s s', for_each body items s = Ok s' -> length s' = length s.
Proof.
  intros Hbody. induction items as [|it items IH]; intros s s' H; simpl in H.
  - injection H as <-. reflexivity.
  - apply rbind_ok in H. destruct H as (s1 & Hs1 & H).
    rewrite Hbody in Hs1. unfold on_sim in Hs1.
    apply rbind_ok in Hs1. destruct Hs1 as (sim & _ & Hs1).
    apply rbind_ok in Hs1. destruct Hs1 as (sim' & _ & Hs1). injection Hs1 as <-.
    rewrite (IH _ _ H). apply length_insert.
Qed.

Lemma newEpisodes_slots (e e' : EnvBatch) (scanIds viewpointIds : list string)
    (headings : list Q) :
  newEpisodes e scanIds viewpointIds headings = Ok e' ->
  feat_db e' = feat_db e /\ length (sims e') = length (sims e).
Proof.
  unfold newEpisodes. intros H.
  apply rbind_ok in H. destruct H as (s' & Hloop & H). injection H as <-. simpl.
  split; [reflexivity|].
  eapply (for_each_on_sim_length _
            (fun (x : string * (string * Q)) sim =>
               sim_newEpisode sim (fst x) (fst (snd x)) (snd (snd x)))); [|exact Hloop].
  intros s [i [scan [vp heading]]]. reflexivity.
Qed.

Lemma makeActions_slots (e e' : EnvBatch) (actions : list (Z * Q * Q)) :
  makeActions e actions = Ok e' ->
  feat_db e' = feat_db e /\ length (sims e') = length (sims e).
Proof.
  unfold makeActions. intros H.
  apply rbind_ok in H. destruct H as (s' & Hloop & H). injection H as <-. simpl.
  split; [reflexivity|].
  eapply (for_each_on_sim_length _
            (fun (x : Z * Q * Q) sim =>
               sim_makeAction sim (fst (fst x)) (snd (fst x)) (snd x))); [|exact Hloop].
  intros s [i [[index heading] elevation]]. reflexivity.
Qed.

End SlotCount.

(** The loop of [newEpisodes] over the zipped lists. *)
Lemma newEpisodes_run {W : Collaborators} (e e' : EnvBatch)
    (scanIds viewpointIds : list string) (headings : list Q) :
  newEpisodes e scanIds viewpointIds headings = Ok e' ->
  length (sims e') = length (sims e) /\
  (length (zip scanIds (zip viewpointIds headings)) <= length (sims e))%nat /\
  (forall j item, zip scanIds (zip viewpointIds headings) !! j = Some item ->
     exists sim sim',
       sims e !! j = Some sim /\
       sim_newEpisode sim (fst item) (fst (snd item)) (snd (snd item)) = Done sim' /\
       sims e' !! j = Some sim') /\
  (forall i, (length (zip scanIds (zip viewpointIds headings)) <= i)%nat ->
     sims e' !! i = sims e !! i).
Proof.
  unfold newEpisodes. intros H.
  apply rbind_ok in H. destruct H as (s' & Hloop & H). injection H as <-. simpl.
  set (items := zip scanIds (zip viewpointIds headings)) in *.
  rewrite enumerate_seq in Hloop.
  rewrite (for_each_ext _ (fun s (it : Z * (string * (string * Q))) =>
             on_sim s (fst it)
               ((fun (x : string * (string * Q)) sim =>
                   sim_newEpisode sim (fst x) (fst (snd x)) (snd (snd x))) (snd it))))
    in Hloop by (intros s [i [scan [vp heading]]]; reflexivity).
  destruct (for_each_on_sim
              (fun (x : string * (string * Q)) sim =>
                 sim_newEpisode sim (fst x) (fst (snd x)) (snd (snd x)))
              items 0%nat _ _ Hloop) as (Hlen & Hfit & Hslots & Hrest).
  split; [exact Hlen|]. split; [|split].
  - destruct items as [|it items'] eqn:Hit; [simpl; lia|].
    assert (0 + length (it :: items') <= length (sims e))%nat by (apply Hfit; discriminate).
    lia.
  - intros j item Hj. destruct (Hslots j item Hj) as (sim & sim' & Hsim & Hm & Hsim').
    simpl in Hsim, Hsim'. eauto.
  - intros i Hi. apply Hrest. right. simpl. lia.
Qed.

(** The loop of [makeActions]. *)
Lemma makeActions_run {W : Collaborators} (e e' : EnvBatch) (actions : list (Z * Q * Q)) :
  makeActions e actions = Ok e' ->
  length (sims e') = length (sims e) /\
  (length actions <= length (sims e))%nat /\
  (forall i index heading elevation,
     actions !! i = Some (index, heading, elevation) ->
     exists sim sim',
       sims e !! i = Some sim /\ sim_makeAction sim index heading elevation = Done sim' /\
       sims e' !! i = Some sim') /\
  (forall i, (length actions <= i)%nat -> sims e' !! i = sims e !! i).
Proof.
  unfold makeActions. intros H.
  apply rbind_ok in H. destruct H as (s' & Hloop & H). injection H as <-. simpl.
  rewrite enumerate_seq in Hloop.
  rewrite (for_each_ext _ (fun s (it : Z * (Z * Q * Q)) =>
             on_sim s (fst it)
               ((fun (x : Z * Q * Q) sim =>
                   sim_makeAction sim (fst (fst x)) (snd (fst x)) (snd x)) (snd it))))
    in Hloop by (intros s [i [[index heading] elevation]]; reflexivity).
  destruct (for_each_on_sim
              (fun (x : Z * Q * Q) sim =>
                 sim_makeAction sim (fst (fst x)) (snd (fst x)) (snd x))
              actions 0%nat _ _ Hloop) as (Hlen & Hfit & Hslots & Hrest).
  split; [exact Hlen|]. split; [|split].
  - destruct actions as [|a actions'] eqn:Ha; [simpl; lia|].
    assert (0 + length (a :: actions') <= length (sims e))%nat by (apply Hfit; discriminate).
    lia.
  - intros i index heading elevation Hi.
    destruct (Hslots i _ Hi) as (sim & sim' & Hsim & Hm & Hsim').
    simpl in Hsim, Hsim', Hm. eauto.
  - intros i Hi. apply Hrest. right. simpl. lia.
Qed.

(** X4. [newEpisodes] starts the episode of slot [i] on the simulator of
    slot [i] and on no other: with as many simulators as before, the feature
    store unchanged and the simulators past the shortest of the three lists
    untouched.  It returns only when there are at least as many simulators
    as episodes. *)
Theorem newEpisodes_slotwise {W : Collaborators} (e e' : EnvBatch)
    (scanIds viewpointIds : list string) (headings : list Q) :
  newEpisodes e scanIds viewpointIds headings = Ok e' ->
  feat_db e' = feat_db e /\
  length (sims e') = length (sims e) /\
  (forall i scan vp heading,
     scanIds !! i = Some scan -> viewpointIds !! i = Some vp -> headings !! i = Some heading ->
     exists sim sim',
       sims e !! i = Some sim /\ sim_newEpisode sim scan vp heading = Done sim' /\
       sims e' !! i = Some sim') /\
  (forall i,
     (length scanIds `min` (length viewpointIds `min` length headings) <= i)%nat ->
     sims e' !! i = sims e !! i) /\
  (length scanIds `min` (length viewpointIds `min` length headings) <= length (sims e))%nat.
Proof.
  intros H.
  destruct (newEpisodes_run _ _ _ _ _ H) as (Hlen & Hfit & Hslots & Hrest).
  rewrite !length_zip_with in Hfit, Hrest.
  split; [apply (newEpisodes_slots _ _ _ _ _ H)|]. split; [exact Hlen|].
  split; [|split; [exact Hrest | exact Hfit]].
  intros i scan vp heading Hs Hv Hh.
  destruct (Hslots i (scan, (vp, heading))) as (sim & sim' & Hsim & Hm & Hsim').
  { apply lookup_zip_with_Some. exists scan, (vp, heading).
    split; [reflexivity|]. split; [exact Hs|].
    apply lookup_zip_with_Some. exists vp, heading. auto. }
  eauto.
Qed.

(** X5. [makeActions] applies the action of slot [i] to the simulator of
    slot [i] and to no other; it returns only when there are at least as
    many simulators as actions. *)
Theorem makeActions_slotwise {W : Collaborators} (e e' : EnvBatch)
    (actions : list (Z * Q * Q)) :
  makeActions e actions = Ok e' ->
  feat_db e' = feat_db e /\
  length (sims e') = length (sims e) /\
  (length actions <= length (sims e))%nat /\
  (forall i index heading elevation,
     actions !! i = Some (index, heading, elevation) ->
     exists sim sim',
       sims e !! i = Some sim /\ sim_makeAction sim index heading elevation = Done sim' /\
       sims e' !! i = Some sim') /\
  (forall i, (length actions <= i)%nat -> sims e' !! i = sims e !! i).
Proof.
  intros H. split; [apply (makeActions_slots _ _ _ H)|].
  exact (makeActions_run _ _ _ H).
Qed.

(** ** Minibatches of any size *)

Lemma py_slice_subset {A} (l : list A) (start stop : option Z) (x : A) :
  x ∈ py_slice l start stop -> x ∈ l.
Proof.
  unfold py_slice. intros H.
  apply (subseteq_drop (Z.to_nat (slice_bound (Z.of_nat (length l)) 0 start)) l).
  eapply subseteq_take. exact H.
Qed.

Section AnyBatch.
Context {W : Collaborators}.

(** The two ways [_next_minibatch] ends. *)
Lemma next_minibatch_cases g (self : R2RNavBatch) requested g' self' :
  _next_minibatch g self requested = Ok (g', self') ->
  exists i, ix self = Some i /\
    ((Z.of_nat (length (py_slice (data self) (Some i)
                          (Some (i + effective_batch_size self requested))))
      < effective_batch_size self requested /\
      g' = fst (random_shuffle g (data self)) /\
      self' = set_batch
                (set_cursor self (snd (random_shuffle g (data self)))
                   (effective_batch_size self requested
                    - Z.of_nat (length (py_slice (data self) (Some i)
                                          (Some (i + effective_batch_size self requested))))))
                (py_slice (data self) (Some i) (Some (i + effective_batch_size self requested))
                 ++ py_slice (snd (random_shuffle g (data self))) None
                      (Some (effective_batch_size self requested
                             - Z.of_nat (length (py_slice (data self) (Some i)
                                  (Some (i + effective_batch_size self requested)))))))) \/
     (effective_batch_size self requested
      <= Z.of_nat (length (py_slice (data self) (Some i)
                             (Some (i + effective_batch_size self requested)))) /\
      g' = g /\
      self' = set_batch (set_cursor self (data self) (i + effective_batch_size self requested))
                (py_slice (data self) (Some i)
                   (Some (i + effective_batch_size self requested))))).
Proof.
  unfold _next_minibatch.
  change (if real_world self then 1
          else match requested with Some b => b | None => batch_size self end)
    with (effective_batch_size self requested).
  intros H. apply rbind_ok in H. destruct H as (i & Hi & H).
  apply getattr_ok in Hi. exists i. split; [exact Hi|].
  destruct (_ <? _) eqn:Hlt; injection H as <- <-.
  - left. apply Z.ltb_lt in Hlt. auto.
  - right. apply Z.ltb_ge in Hlt. auto.
Qed.

Lemma reset_ok g (self : R2RNavBatch) requested g' self' obs :
  reset g self requested = Ok (g', self', obs) ->
  exists self1 e,
    _next_minibatch g self requested = Ok (g', self1) /\
    (exists b vps, batch self1 = Some b /\
       newEpisodes (env self1) (ep_scan <$> b) vps (ep_heading <$> b) = Ok e) /\
    self' = set_env self1 e /\
    _get_obs self' = Ok obs.
Proof.
  unfold reset. intros H.
  apply rbind_ok in H. destruct H as ([g1 self1] & Hnext & H).
  apply rbind_ok in H. destruct H as (b & Hb & H).
  apply rbind_ok in H. destruct H as (vps & _ & H).
  apply rbind_ok in H. destruct H as (e & He & H).
  apply rbind_ok in H. destruct H as (o & Ho & H).
  injection H as <- <- <-. simpl in *.
  apply getattr_ok in Hb. exists self1, e. eauto 10.
Qed.

Lemma step_ok (self : R2RNavBatch) actions self' obs :
  step self actions = Ok (self', obs) ->
  exists e, makeActions (env self) actions = Ok e /\ self' = set_env self e /\
            _get_obs self' = Ok obs.
Proof.
  unfold step. intros H.
  apply rbind_ok in H. destruct H as (e & He & H).
  apply rbind_ok in H. destruct H as (o & Ho & H).
  injection H as <- <-. eauto.
Qed.

End AnyBatch.

(** X6. For any batch size, a batch [_next_minibatch] stores holds records
    of the dataset only, and the dataset is kept up to its order.  With the
    cursor [i] within a dataset of [n] records and a batch size [bs >= 0],
    the batch has [min(bs, 2n - i)] items: a single wrap-around adds at most
    one copy of the dataset to the records left past the cursor. *)
Theorem minibatch_records_and_length {W : Collaborators} g (self : R2RNavBatch)
    requested g' self' :
  shuffle_permutes ->
  _next_minibatch g self requested = Ok (g', self') ->
  exists i b,
    ix self = Some i /\ batch self' = Some b /\
    (forall x, x ∈ b -> x ∈ data self) /\
    data self' ≡ₚ data self /\
    (0 <= i <= Z.of_nat (length (data self)) ->
     0 <= effective_batch_size self requested ->
     Z.of_nat (length b)
     = Z.min (effective_batch_size self requested) (2 * Z.of_nat (length (data self)) - i)).
Proof.
  intros Hperm H.
  destruct (next_minibatch_cases _ _ _ _ _ H) as (i & Hi & Hcase).
  set (bs := effective_batch_size self requested) in *.
  pose proof (Hperm g (data self)) as Hp.
  destruct Hcase as [(Hlt & -> & ->) | (Hge & -> & ->)]; simpl.
  - eexists i, _. split; [exact Hi|]. split; [reflexivity|]. split; [|split].
    + intros x Hx. apply elem_of_app in Hx. destruct Hx as [Hx | Hx].
      * eapply py_slice_subset; eauto.
      * apply py_slice_subset in Hx. rewrite Hp in Hx. exact Hx.
    + exact Hp.
    + intros Hin Hbs.
      rewrite (py_slice_window (data self) i bs) in Hlt |- * by lia.
      rewrite length_take, length_drop in Hlt.
      rewrite py_slice_prefix by (rewrite length_take, length_drop; lia).
      rewrite length_app, !length_take, length_drop, (Permutation_length Hp). lia.
  - eexists i, _. split; [exact Hi|]. split; [reflexivity|]. split; [|split].
    + intros x Hx. eapply py_slice_subset; eauto.
    + reflexivity.
    + intros Hin Hbs.
      rewrite (py_slice_window (data self) i bs) in Hge |- * by lia.
      rewrite length_take, length_drop in Hge |- *. lia.
Qed.

(** ** What the public methods keep *)

(** X7. Whatever [_next_minibatch], [reset_epoch], [reset] and [step] calls
    are made on an instance, its dataset stays a permutation of what it was
    (so [size()] is constant), the ground-truth trajectories, the distance
    tables, the candidate dictionary, the mode, the configured batch size,
    the feature store and [obj2vps] stay as they were, and the simulator
    batch keeps its number of slots. *)
Theorem calls_keep_dataset_and_tables {W : Collaborators} (self0 self : R2RNavBatch) :
  shuffle_permutes ->
  calls self0 self ->
  data self ≡ₚ data self0 /\
  R2RNavBatch_size self = R2RNavBatch_size self0 /\
  gt_trajs self = gt_trajs self0 /\
  shortest_distances self = shortest_distances self0 /\
  candidates_dict self = candidates_dict self0 /\
  real_world self = real_world self0 /\
  batch_size self = batch_size self0 /\
  obj2vps self = obj2vps self0 /\
  feat_db (env self) = feat_db (env self0) /\
  length (sims (env self)) = length (sims (env self0)).
Proof.
  intros Hperm Hcalls.
  assert (Hinv : data self ≡ₚ data self0 /\
                 gt_trajs self = gt_trajs self0 /\
                 shortest_distances self = shortest_distances self0 /\
                 candidates_dict self = candidates_dict self0 /\
                 real_world self = real_world self0 /\
                 batch_size self = batch_size self0 /\
                 obj2vps self = obj2vps self0 /\
                 feat_db (env self) = feat_db (env self0) /\
                 length (sims (env self)) = length (sims (env self0))).
  { assert (Hnext : forall g s requested g' s',
              _next_minibatch g s requested = Ok (g', s') ->
              data s' ≡ₚ data s /\ gt_trajs s' = gt_trajs s /\
              shortest_distances s' = shortest_distances s /\
              candidates_dict s' = candidates_dict s /\ real_world s' = real_world s /\
              batch_size s' = batch_size s /\ obj2vps s' = obj2vps s /\ env s' = env s).
    { intros g s requested g' s' H.
      destruct (next_minibatch_cases _ _ _ _ _ H) as (i & _ & [(_ & _ & ->) | (_ & _ & ->)]);
        simpl; repeat split; try reflexivity. apply Hperm. }
    induction Hcalls as [ self
                        | g self0 self requested g' self' _ IH H
                        | g self0 self shuffle _ IH
                        | g self0 self requested g' self' obs _ IH H
                        | self0 self actions self' obs _ IH H ].
    - repeat split; reflexivity.
    - destruct IH as (Hd & Hg & Hs & Hc & Hr & Hb & Ho & Hf & Hl).
      destruct (Hnext _ _ _ _ _ H) as (Hd' & Hg' & Hs' & Hc' & Hr' & Hb' & Ho' & He').
      rewrite Hd', Hg', Hs', Hc', Hr', Hb', Ho', He'. repeat split; assumption.
    - destruct IH as (Hd & Hg & Hs & Hc & Hr & Hb & Ho & Hf & Hl).
      unfold reset_epoch. simpl. repeat split; try assumption.
      destruct shuffle; simpl; [etransitivity; [apply Hperm | exact Hd] | exact Hd].
    - destruct IH as (Hd & Hg & Hs & Hc & Hr & Hb & Ho & Hf & Hl).
      destruct (reset_ok _ _ _ _ _ _ H) as (s1 & e & Hn & (b & vps & _ & He) & -> & _).
      destruct (Hnext _ _ _ _ _ Hn) as (Hd' & Hg' & Hs' & Hc' & Hr' & Hb' & Ho' & He').
      apply newEpisodes_slots in He. destruct He as [Hfe Hle].
      simpl. rewrite Hd', Hg', Hs', Hc', Hr', Hb', Ho', Hfe, Hle, He'.
      repeat split; assumption.
    - destruct IH as (Hd & Hg & Hs & Hc & Hr & Hb & Ho & Hf & Hl).
      destruct (step_ok _ _ _ _ H) as (e & He & -> & _).
      apply makeActions_slots in He. destruct He as [Hfe Hle].
      simpl. rewrite Hfe, Hle. repeat split; assumption. }
  destruct Hinv as (Hd & Hrest). split; [exact Hd|]. split; [|exact Hrest].
  unfold R2RNavBatch_size. rewrite (Permutation_length Hd). reflexivity.
Qed.

(** X8. [reset_epoch] rewinds the cursor to 0 and touches neither the batch
    nor the simulators; it keeps the dataset as it is, or reshuffles it when
    asked to.  The next minibatch of a size within the dataset is then the
    first [batch_size] records, without another shuffle. *)
Theorem reset_epoch_replays_from_start {W : Collaborators} g (self : R2RNavBatch)
    (shuffle : bool) (requested : option Z) :
  shuffle_permutes ->
  0 <= effective_batch_size self requested <= Z.of_nat (length (data self)) ->
  ix (snd (reset_epoch g self shuffle)) = Some 0 /\
  batch (snd (reset_epoch g self shuffle)) = batch self /\
  env (snd (reset_epoch g self shuffle)) = env self /\
  reset_epoch g self shuffle
  = (if shuffle then fst (random_shuffle g (data self)) else g,
     set_cursor self (if shuffle then snd (random_shuffle g (data self)) else data self) 0) /\
  forall g1, exists self2,
    _next_minibatch g1 (snd (reset_epoch g self shuffle)) requested = Ok (g1, self2) /\
    batch self2
    = Some (take (Z.to_nat (effective_batch_size self requested))
              (data (snd (reset_epoch g self shuffle)))) /\
    ix self2 = Some (effective_batch_size self requested) /\
    data self2 = data (snd (reset_epoch g self shuffle)).
Proof.
  intros Hperm Hbs.
  split; [reflexivity|]. split; [reflexivity|]. split; [reflexivity|].
  split; [destruct shuffle; reflexivity|].
  intros g1.
  set (s1 := snd (reset_epoch g self shuffle)).
  assert (Hlen : length (data s1) = length (data self)).
  { subst s1. unfold reset_epoch. destruct shuffle; simpl; [|reflexivity].
    apply Permutation_length, Hperm. }
  assert (Heff : effective_batch_size s1 requested = effective_batch_size self requested)
    by reflexivity.
  destruct (next_minibatch_spec g1 s1 requested 0 Hperm eq_refl)
    as (g2 & s2 & b & i' & Hrun & Hb & _ & Hix & _ & _ & _ & _ & Hcase);
    [rewrite Hlen; lia | rewrite Heff, Hlen; exact Hbs |].
  rewrite Heff, Hlen in Hcase.
  destruct (decide _) as [_|Hbad] in Hcase; [|exfalso; lia].
  destruct Hcase as (-> & Hd & -> & ->).
  exists s2. rewrite Hrun, Hb, Hix, Hd. repeat split; reflexivity.
Qed.

(** ** Observations *)

Section Observations.
Context {W : Collaborators}.

(** What one observation is made of. *)
Lemma get_ob_ok (self : R2RNavBatch) (i : Z) (feature : list fvec) (state : sim_state)
    (ob : observation) :
  get_ob self i feature state = Ok ob ->
  exists b item cands trajs d,
    batch self = Some b /\ py_index b i = Ok item /\
    make_candidate self feature (scanId state) (viewpointId (st_location state))
      (viewIndex state) = Ok cands /\
    gt_trajs self = Some trajs /\
    match trajs !! ep_instr_id item with
    | Some _ =>
        exists all sd row goal,
          shortest_distances self = Some all /\ all !! scanId state = Some sd /\
          sd !! viewpointId (st_location state) = Some row /\
          last (ep_path item) = Some goal /\ row !! goal = Some d
    | None => d = 0%Q
    end /\
    ob = {| ob_instr_id := ep_instr_id item;
            ob_scan := scanId state;
            ob_viewpoint := viewpointId (st_location state);
            ob_viewIndex := viewIndex state;
            ob_position := (loc_x (st_location state), loc_y (st_location state),
                            loc_z (st_location state));
            ob_heading := st_heading state;
            ob_elevation := st_elevation state;
            ob_feature := feature;
            ob_candidate := cands;
            ob_navigableLocations := navigableLocations state;
            ob_instruction := ep_instruction item;
            ob_gt_path := ep_path item;
            ob_path_id := dict_get (ep_path_id item);
            ob_distance := d |}.
Proof.
  unfold get_ob. intros H.
  apply rbind_ok in H. destruct H as (b & Hb & H).
  apply rbind_ok in H. destruct H as (item & Hitem & H).
  apply rbind_ok in H. destruct H as (cands & Hcands & H).
  apply rbind_ok in H. destruct H as (trajs & Htrajs & H).
  apply rbind_ok in H. destruct H as (d & Hd & H).
  injection H as <-.
  apply getattr_ok in Hb, Htrajs.
  exists b, item, cands, trajs, d.
  split; [exact Hb|]. split; [exact Hitem|]. split; [exact Hcands|]. split; [exact Htrajs|].
  split; [|reflexivity].
  destruct (trajs !! ep_instr_id item) as [t|] eqn:Ht.
  - rewrite bool_decide_eq_true_2 in Hd by eauto.
    apply rbind_ok in Hd. destruct Hd as (all & Hall & Hd).
    apply rbind_ok in Hd. destruct Hd as (sd & Hsd & Hd).
    apply rbind_ok in Hd. destruct Hd as (row & Hrow & Hd).
    apply rbind_ok in Hd. destruct Hd as (goal & Hgoal & Hd).
    apply getattr_ok in Hall. apply getitem_ok in Hsd, Hrow, Hd.
    apply py_index_last in Hgoal. eauto 10.
  - rewrite bool_decide_eq_false_2 in Hd by (intros [? [=]]).
    injection Hd as <-. reflexivity.
Qed.

(** The observations are built slot by slot. *)
Lemma get_obs_slots (self : R2RNavBatch) (obs : list observation) :
  _get_obs self = Ok obs ->
  real_world self = false /\
  length obs = length (sims (env self)) /\
  forall i sim, sims (env self) !! i = Some sim ->
    exists state feature ob,
      sim_getState sim = Done state /\
      feat_db (env self) (scanId state) (viewpointId (st_location state)) = Done feature /\
      obs !! i = Some ob /\
      get_ob self (Z.of_nat i) feature state = Ok ob.
Proof.
  unfold _get_obs. intros H.
  destruct (real_world self) eqn:Hrw; [discriminate|]. simpl in H.
  apply rbind_ok in H. destruct H as (states & Hstates & H).
  unfold getStates in Hstates.
  split; [reflexivity|]. split.
  - rewrite (traverse_length _ _ _ H).
    unfold enumerate. rewrite length_zip_with, py_range_length, Nat2Z.id.
    rewrite (traverse_length _ _ _ Hstates). lia.
  - intros i sim Hsim.
    destruct (traverse_lookup _ _ _ _ _ Hstates Hsim) as ([feature state] & Hst & Hf).
    apply rbind_ok in Hf. destruct Hf as (state' & Hstate & Hf).
    apply rbind_ok in Hf. destruct Hf as (feature' & Hfeat & Hf).
    injection Hf as <- <-. apply call_ok in Hstate, Hfeat.
    destruct (traverse_lookup _ _ _ _ _ H (enumerate_lookup _ _ _ Hst)) as (ob & Hob & Hget).
    simpl in Hget. eauto 10.
Qed.

End Observations.

(** X9. When [_get_obs] returns, the instance is not in real-world mode and
    there is one observation per simulator, in slot order: observation [i]
    pairs the pose and features of simulator [i] with record [i] of the
    batch (its id, instruction, reference path and path id), its candidates
    are those of [make_candidate] at that pose, and its distance is the table
    distance from the current viewpoint to the end of the reference path
    when the record's id has a ground-truth trajectory, 0 otherwise. *)
Theorem get_obs_pairs_slot_with_record {W : Collaborators} (self : R2RNavBatch)
    (obs : list observation) :
  _get_obs self = Ok obs ->
  real_world self = false /\
  length obs = length (sims (env self)) /\
  forall i sim, sims (env self) !! i = Some sim ->
    exists state feature b item trajs ob,
      sim_getState sim = Done state /\
      feat_db (env self) (scanId state) (viewpointId (st_location state)) = Done feature /\
      batch self = Some b /\ b !! i = Some item /\ gt_trajs self = Some trajs /\
      obs !! i = Some ob /\
      ob_instr_id ob = ep_instr_id item /\ ob_instruction ob = ep_instruction item /\
      ob_gt_path ob = ep_path item /\ ob_path_id ob = dict_get (ep_path_id item) /\
      ob_scan ob = scanId state /\ ob_viewpoint ob = viewpointId (st_location state) /\
      ob_viewIndex ob = viewIndex state /\ ob_heading ob = st_heading state /\
      ob_elevation ob = st_elevation state /\
      ob_navigableLocations ob = navigableLocations state /\
      ob_feature ob = feature /\
      make_candidate self feature (scanId state) (viewpointId (st_location state))
        (viewIndex state) = Ok (ob_candidate ob) /\
      match trajs !! ep_instr_id item with
      | Some _ =>
          exists all sd row goal,
            shortest_distances self = Some all /\ all !! ob_scan ob = Some sd /\
            sd !! ob_viewpoint ob = Some row /\
            last (ob_gt_path ob) = Some goal /\ row !! goal = Some (ob_distance ob)
      | None => ob_distance ob = 0%Q
      end.
Proof.
  intros H. destruct (get_obs_slots _ _ H) as (Hrw & Hlen & Hslots).
  split; [exact Hrw|]. split; [exact Hlen|].
  intros i sim Hsim.
  destruct (Hslots i sim Hsim) as (state & feature & ob & Hstate & Hfeat & Hob & Hget).
  destruct (get_ob_ok _ _ _ _ _ Hget)
    as (b & item & cands & trajs & d & Hb & Hitem & Hcands & Htrajs & Hd & ->).
  apply py_index_nat in Hitem.
  exists state, feature, b, item, trajs. eexists.
  split; [exact Hstate|]. split; [exact Hfeat|]. split; [exact Hb|]. split; [exact Hitem|].
  split; [exact Htrajs|]. split; [exact Hob|]. simpl.
  repeat (split; [reflexivity|]).
  split; [exact Hcands | exact Hd].
Qed.

(** ** Every record has its ground truth *)

Lemma split_data_subset (d d' : list episode) (sel : option (Z * Z)) (x : episode) :
  split_data d sel = Ok d' -> x ∈ d' -> x ∈ d.
Proof.
  unfold split_data. destruct sel as [[t n]|].
  - destruct (n =? 0); [discriminate|]. intros [= <-]. apply py_slice_subset.
  - intros [= <-]. auto.
Qed.

Section IdsKnown.
Context {W : Collaborators}.

Lemma load_nav_graphs_records (self self' : R2RNavBatch) :
  _load_nav_graphs self = Ok self' ->
  data self' = data self /\ batch self' = batch self /\ gt_trajs self' = gt_trajs self.
Proof.
  unfold _load_nav_graphs. destruct (real_world self).
  - intros [= <-]. auto.
  - intros H. apply rbind_ok in H. destruct H as (g & _ & H). injection H as <-. auto.
Qed.

Lemma ids_known_same (self self' : R2RNavBatch) :
  data self' = data self -> batch self' = batch self -> gt_trajs self' = gt_trajs self ->
  ids_known self -> ids_known self'.
Proof. unfold ids_known. intros -> -> ->. auto. Qed.

Lemma init_ids_known g view_db instr_data conn cand bsize afs sd nm sel rw sp g' self :
  shuffle_permutes ->
  init g view_db instr_data conn cand bsize afs sd nm sel rw sp = Ok (g', self) ->
  ids_known self.
Proof.
  intros Hperm. unfold init. intros H.
  apply rbind_ok in H. destruct H as (e & _ & H).
  destruct rw; simpl in H.
  - injection H as _ <-. intros trajs [=].
  - apply rbind_ok in H. destruct H as (d & Hd & H).
    apply rbind_ok in H. destruct H as (self2 & Hload & H).
    apply rbind_ok in H. destruct H as (c & _ & H).
    injection H as _ <-.
    destruct (load_nav_graphs_records _ _ Hload) as (Hdata & Hbatch & Htrajs).
    simpl in Hdata, Hbatch, Htrajs.
    intros trajs Ht. simpl in Ht. rewrite Htrajs in Ht. injection Ht as <-.
    simpl. rewrite Hdata, Hbatch. split.
    + intros x Hx. rewrite (Hperm _ d) in Hx.
      apply (split_data_subset _ _ _ _ Hd) in Hx.
      unfold _get_gt_trajs. apply gt_fold_present. right. eauto.
    + intros b x [=].
Qed.

Lemma next_minibatch_ids_known g (self : R2RNavBatch) requested g' self' :
  shuffle_permutes ->
  _next_minibatch g self requested = Ok (g', self') -> ids_known self -> ids_known self'.
Proof.
  intros Hperm H Hknown trajs Ht.
  destruct (next_minibatch_cases _ _ _ _ _ H) as (i & _ & [(_ & _ & ->) | (_ & _ & ->)]);
    simpl in *; destruct (Hknown trajs Ht) as [Hdata _]; split.
  - intros x Hx. apply Hdata. rewrite (Hperm g (data self)) in Hx. exact Hx.
  - intros b x [= <-] Hx. apply Hdata.
    apply elem_of_app in Hx. destruct Hx as [Hx | Hx].
    + eapply py_slice_subset; eauto.
    + apply py_slice_subset in Hx. rewrite (Hperm g (data self)) in Hx. exact Hx.
  - exact Hdata.
  - intros b x [= <-] Hx. apply Hdata. eapply py_slice_subset; eauto.
Qed.

(** On every instance the methods of the class can bring about, the records
    of the dataset and of the batch have their ground truth stored. *)
Lemma reachable_ids_known (self : R2RNavBatch) :
  shuffle_permutes -> reachable self -> ids_known self.
Proof.
  intros Hperm.
  induction 1 as [ ? ? ? ? ? ? ? ? ? ? ? ? ? ? Hinit
                 | ? ? ? IH Hload
                 | ? ? ? ? ? ? IH Hnext
                 | g self shuffle ? IH
                 | ? ? ? ? ? ? ? IH Hreset
                 | ? ? ? ? ? IH Hstep ].
  - eapply init_ids_known; eauto.
  - destruct (load_nav_graphs_records _ _ Hload) as (Hd & Hb & Ht).
    eapply ids_known_same; eauto.
  - eapply next_minibatch_ids_known; eauto.
  - intros trajs Ht. destruct (IH trajs Ht) as [Hdata Hbatch]. split.
    + intros x Hx. apply Hdata. unfold reset_epoch in Hx.
      destruct shuffle; simpl in Hx; [rewrite (Hperm g (data self)) in Hx|]; exact Hx.
    + intros b x Hb Hx. eapply Hbatch; eauto.
  - destruct (reset_ok _ _ _ _ _ _ Hreset) as (s1 & e & Hn & _ & -> & _).
    apply (ids_known_same s1); try reflexivity.
    eapply next_minibatch_ids_known; eauto.
  - destruct (step_ok _ _ _ _ Hstep) as (e & _ & -> & _).
    apply (ids_known_same self); try reflexivity. exact IH.
Qed.

End IdsKnown.

(** X10. On an instance built by [__init__] and acted on by the methods of
    the class only, every observation [_get_obs] returns has the id of a
    stored ground-truth trajectory, and its distance is the table distance
    from its viewpoint to the last viewpoint of its reference path: the
    default 0 of the other branch is never what is reported. *)
Theorem observed_distance_is_table_distance {W : Collaborators} (self : R2RNavBatch)
    (obs : list observation) :
  shuffle_permutes ->
  reachable self ->
  _get_obs self = Ok obs ->
  forall ob, ob ∈ obs ->
    exists trajs all sd row goal,
      gt_trajs self = Some trajs /\ is_Some (trajs !! ob_instr_id ob) /\
      shortest_distances self = Some all /\ all !! ob_scan ob = Some sd /\
      sd !! ob_viewpoint ob = Some row /\
      last (ob_gt_path ob) = Some goal /\ row !! goal = Some (ob_distance ob).
Proof.
  intros Hperm Hreach H ob Hob.
  pose proof (reachable_ids_known self Hperm Hreach) as Hknown.
  destruct (get_obs_slots _ _ H) as (_ & Hlen & Hslots).
  apply list_elem_of_lookup in Hob. destruct Hob as [i Hi].
  destruct (lookup_lt_is_Some_2 (sims (env self)) i) as [sim Hsim];
    [rewrite <- Hlen; eapply lookup_lt_Some; eauto|].
  destruct (Hslots i sim Hsim) as (state & feature & ob' & _ & _ & Hob' & Hget).
  rewrite Hi in Hob'. injection Hob' as <-.
  destruct (get_ob_ok _ _ _ _ _ Hget)
    as (b & item & cands & trajs & d & Hb & Hitem & _ & Htrajs & Hd & ->).
  destruct (Hknown trajs Htrajs) as [_ Hbatch].
  assert (Hid : is_Some (trajs !! ep_instr_id item))
    by (eapply Hbatch; [exact Hb | eapply py_index_elem; exact Hitem]).
  destruct Hid as [t Ht]. rewrite Ht in Hd.
  destruct Hd as (all & sd & row & goal & Hall & Hsd & Hrow & Hgoal & Hdist).
  exists trajs, all, sd, row, goal. simpl. rewrite Ht. eauto 10.
Qed.

(** ** The oracle scores against the final ones *)

Lemma nearest_loop_defined (sd : dist_table) (goal : string) (rest : list string)
    (near_id : string) (near_d : Q) (v : string) :
  nearest_loop sd goal rest near_id near_d = Ok v ->
  forall x, x ∈ rest -> exists d, dist sd x goal = Ok d.
Proof.
  revert near_id near_d. induction rest as [|item rest IH]; intros near_id near_d H x Hx.
  - apply elem_of_nil in Hx. contradiction.
  - simpl in H. apply rbind_ok in H. destruct H as (d & Hd & H).
    apply elem_of_cons in Hx. destruct Hx as [-> | Hx]; [eauto|].
    destruct (Qltb d near_d); eapply IH; eauto.
Qed.

(** Whenever [_get_nearest] returns, its result is a point of the path whose
    distance to the goal no point of the path undercuts. *)
Lemma get_nearest_minimal (sd : dist_table) (goal : string) (path : list string) (v : string) :
  _get_nearest sd goal path = Ok v ->
  v ∈ path /\
  exists dv, dist sd v goal = Ok dv /\
    forall x dx, x ∈ path -> dist sd x goal = Ok dx -> (dv <= dx)%Q.
Proof.
  unfold _get_nearest. intros H.
  apply rbind_ok in H. destruct H as (p0 & Hp0 & H).
  apply rbind_ok in H. destruct H as (d0 & Hd0 & H).
  pose proof (nearest_loop_defined _ _ _ _ _ _ H) as Hdef.
  apply py_index_first in Hp0.
  destruct (nearest_loop_spec sd goal path [] p0 d0 0%nat)
    as (i & v' & dv & Hrun & Hi & Hdv & Hmin); auto.
  - simpl. destruct path; [discriminate|]. simpl in Hp0. injection Hp0 as ->. reflexivity.
  - intros j x dx Hj. simpl in Hj. lia.
  - simpl in Hrun, Hi, Hmin. rewrite H in Hrun. injection Hrun as <-.
    split; [eapply list_elem_of_lookup_2; exact Hi|].
    exists dv. split; [exact Hdv|].
    intros x dx Hx Hdx. apply list_elem_of_lookup in Hx. destruct Hx as [j Hj].
    destruct (Hmin j x dx) as [Hle _]; auto.
    eapply lookup_lt_Some; eauto.
Qed.

Lemma last_elem_of {A} (l : list A) (x : A) : last l = Some x -> x ∈ l.
Proof.
  intros H. apply last_Some in H. destruct H as [l' ->].
  apply elem_of_app. right. left.
Qed.

Lemma float_of_bool_flag (b : bool) : float_of_bool b = 1%Q \/ float_of_bool b = 0%Q.
Proof. destruct b; auto. Qed.

(** The four scores of an evaluated item that the policies decide. *)
Lemma eval_item_oracle {W : Collaborators} (self : R2RNavBatch)
    (scan : string) (pred_path : list (list string)) (gt_path : list string)
    (gt_objid : pyval) (scores : gmap string Q) :
  dtw_keys_fresh ->
  _eval_item self scan pred_path gt_path gt_objid = Ok scores ->
  exists nav orc success oracle_success,
    scores !! "nav_error" = Some nav /\
    scores !! "oracle_error" = Some orc /\
    scores !! "success" = Some success /\
    scores !! "oracle_success" = Some oracle_success /\
    (orc <= nav)%Q /\
    (success = 1%Q -> oracle_success = 1%Q) /\
    (oracle_success = 0%Q -> success = 0%Q) /\
    (success = 1%Q \/ success = 0%Q) /\
    (oracle_success = 1%Q \/ oracle_success = 0%Q).
Proof.
  intros Hfresh H.
  destruct (eval_item_ok _ _ _ _ _ _ H)
    as (pe & sc & s & tl & dtw & cls & Hpe & Hsc & Hs & Htl & Hdtw & Hcls & ->).
  destruct (distance_scores_ok _ _ _ _ _ Hpe)
    as (all & start & goal & near & l & nav & orc & tl' & Hall & Hsd & Hpath & Hg0 & Hp0
        & Hgoal & Hl & Hnear & Hdnav & Hdorc & Htl' & Hgl & Hscores).
  destruct (get_nearest_minimal _ _ _ _ Hnear) as (Hin & dv & Hdv & Hmin).
  rewrite Hdorc in Hdv. injection Hdv as <-.
  assert (Hle : (orc <= nav)%Q) by (apply (Hmin l nav); [apply last_elem_of|]; assumption).
  rewrite !(own_key_kept _ _ _ _ _ _ _ _ _ Hfresh Hdtw) by own_key.
  destruct (obj2vps self) as [[table|]|] eqn:Hpol.
  - destruct (success_scores_multi _ _ _ _ _ _ _ Hpol Hsc) as (vps & lv & _ & _ & Hlv & ->).
    rewrite Hpath in Hlv. rewrite Hl in Hlv. injection Hlv as <-.
    rewrite Hscores. map_lookup. do 4 eexists. repeat split; try reflexivity; auto using float_of_bool_flag.
    + rewrite goal_flag_one, any_goal_flag_one. intros Hg.
      exists l. split; [rewrite Hpath; apply last_elem_of; exact Hl | exact Hg].
    + rewrite goal_flag_zero, any_goal_flag_zero. intros Hno. apply Hno.
      rewrite Hpath. apply last_elem_of. exact Hl.
  - destruct (success_scores_single _ _ _ _ _ _ Hpol Hsc) as (nav' & orc' & Hnav' & Horc' & ->).
    rewrite Hscores in Hnav', Horc'. map_lookup_in Hnav'. map_lookup_in Horc'.
    injection Hnav' as <-. injection Horc' as <-.
    rewrite Hscores. map_lookup. do 4 eexists. repeat split; try reflexivity; auto using float_of_bool_flag.
    + rewrite !float_of_bool_one, !Qltb_lt. intros Hlt. eapply Qle_lt_trans; eauto.
    + rewrite !float_of_bool_zero, !Qltb_ge. intros Hge. eapply Qle_trans; eauto.
  - rewrite (success_scores_unassigned _ _ _ _ _ Hpol) in Hsc. discriminate.
Qed.

(** X11. In every evaluated item, under either success policy, the oracle
    scores are at least as good as the final ones: [oracle_error] is at most
    [nav_error], and a successful item is also an oracle success. *)
Theorem oracle_never_worse_than_final {W : Collaborators} (self : R2RNavBatch)
    (scan : string) (pred_path : list (list string)) (gt_path : list string)
    (gt_objid : pyval) (scores : gmap string Q) :
  dtw_keys_fresh ->
  _eval_item self scan pred_path gt_path gt_objid = Ok scores ->
  exists nav orc success oracle_success,
    scores !! "nav_error" = Some nav /\
    scores !! "oracle_error" = Some orc /\
    scores !! "success" = Some success /\
    scores !! "oracle_success" = Some oracle_success /\
    (orc <= nav)%Q /\
    (success = 1%Q -> oracle_success = 1%Q) /\
    (oracle_success = 0%Q -> success = 0%Q).
Proof.
  intros Hfresh H.
  destruct (eval_item_oracle _ _ _ _ _ _ Hfresh H)
    as (nav & orc & s & os & Hnav & Horc & Hs & Hos & Hle & Hso & Hos0 & _ & _).
  exists nav, orc, s, os. auto 10.
Qed.

(** ** The values [spl] takes *)

Lemma spl_denominator_reference (tl gl : Q) :
  (tl <= gl)%Q -> ((1 # 100) <= gl)%Q -> (py_max (py_max tl gl) (1 # 100) == gl)%Q.
Proof.
  intros Hle Hmin. rewrite py_max_Qmax.
  assert (Hin : (py_max tl gl == gl)%Q) by (rewrite py_max_Qmax; apply Q.max_r; exact Hle).
  rewrite Hin. apply Q.max_l. exact Hmin.
Qed.

Lemma spl_denominator_predicted (tl gl : Q) :
  (gl <= tl)%Q -> ((1 # 100) <= tl)%Q -> (py_max (py_max tl gl) (1 # 100) == tl)%Q.
Proof.
  intros Hle Hmin. rewrite py_max_Qmax.
  assert (Hin : (py_max tl gl == tl)%Q) by (rewrite py_max_Qmax; apply Q.max_l; exact Hle).
  rewrite Hin. apply Q.max_l. exact Hmin.
Qed.

Lemma spl_of_zero (s tl gl : Q) :
  s = 1%Q \/ s = 0%Q ->
  (spl_of s tl gl == 0)%Q <-> s = 0%Q \/ (gl == 0)%Q.
Proof.
  intros Hs. unfold spl_of.
  destruct (spl_denominator tl gl) as (_ & Hpos & _ & _).
  set (m := py_max (py_max tl gl) (1 # 100)) in *.
  assert (Hm : ~ (m == 0)%Q) by (intros Hz; rewrite Hz in Hpos; discriminate).
  split.
  - intros H. destruct Hs as [-> | ->]; [right | left; reflexivity].
    assert (Hg : (1 * gl / m * m == 0 * m)%Q) by (rewrite H; reflexivity).
    rewrite Qmult_0_l, Qmult_1_l in Hg. rewrite Qmult_comm, Qmult_div_r in Hg by exact Hm.
    exact Hg.
  - intros [-> | Hg].
    + unfold Qdiv. rewrite !Qmult_0_l. reflexivity.
    + rewrite Hg. unfold Qdiv. rewrite Qmult_0_r, Qmult_0_l. reflexivity.
Qed.

(** X12. The value of [spl] of an evaluated item, by cases: it is 0 exactly
    when the item is no success or the reference path has length 0 (so a
    reference path of a single viewpoint gives [spl] 0 even on success); a
    successful item whose path is no longer than a reference of length at
    least 0.01 has [spl] 1; a successful item whose path is at least as long
    as the reference, and at least 0.01 long, has the ratio of the two
    lengths. *)
Theorem spl_by_cases {W : Collaborators} (self : R2RNavBatch)
    (scan : string) (pred_path : list (list string)) (gt_path : list string)
    (gt_objid : pyval) (scores : gmap string Q) :
  dtw_keys_fresh ->
  _eval_item self scan pred_path gt_path gt_objid = Ok scores ->
  exists all sd success tl gl spl,
    shortest_distances self = Some all /\ all !! scan = Some sd /\
    consecutive_sum sd (concat pred_path) = Ok tl /\
    consecutive_sum sd gt_path = Ok gl /\
    scores !! "success" = Some success /\
    scores !! "spl" = Some spl /\
    ((spl == 0)%Q <-> success = 0%Q \/ (gl == 0)%Q) /\
    (length gt_path = 1%nat -> (spl == 0)%Q) /\
    (success = 1%Q -> (tl <= gl)%Q -> ((1 # 100) <= gl)%Q -> (spl == 1)%Q) /\
    (success = 1%Q -> (gl <= tl)%Q -> ((1 # 100) <= tl)%Q -> (spl == gl / tl)%Q).
Proof.
  intros Hfresh H.
  destruct (eval_item_spl _ _ _ _ _ _ Hfresh H)
    as (all & sd & s & tl & gl & Hall & Hsd & Htl & Hgl & Hs & _ & Hspl & Hflag).
  exists all, sd, s, tl, gl, (spl_of s tl gl).
  repeat split; auto.
  - apply spl_of_zero; exact Hflag.
  - apply spl_of_zero; exact Hflag.
  - intros Hlen. apply spl_of_zero; [exact Hflag|]. right.
    rewrite (consecutive_sum_short sd gt_path gl) by (lia || exact Hgl). reflexivity.
  - intros -> Hle Hmin. unfold spl_of.
    rewrite (spl_denominator_reference _ _ Hle Hmin), Qmult_1_l.
    apply Qmult_inv_r. intros Hz. rewrite Hz in Hmin.
    exact (Qlt_not_le 0 (1 # 100) eq_refl Hmin).
  - intros -> Hle Hmin. unfold spl_of.
    rewrite (spl_denominator_predicted _ _ Hle Hmin), Qmult_1_l. reflexivity.
Qed.

(** ** When [make_candidate] returns *)

Lemma traverse_project {A B C} (f : A -> result B) (g : B -> C) (h : A -> C)
    (l : list A) (ys : list B) :
  (forall x y, f x = Ok y -> g y = h x) -> traverse f l = Ok ys -> g <$> ys = h <$> l.
Proof.
  intros Hgh. revert ys. induction l as [|x l IH]; simpl; intros ys H.
  - injection H as <-. reflexivity.
  - apply rbind_ok in H. destruct H as (y & Hy & H).
    apply rbind_ok in H. destruct H as (ys' & Hys & H).
    injection H as <-. simpl. f_equal; auto.
Qed.

(** X13. [make_candidate] returns exactly when the candidate table is
    loaded, has an entry for the viewpoint's key and every feature index of
    that entry is an index Python accepts on the feature batch (negative
    ones counting from the end); the view index plays no part in it.  The
    list returned has one candidate per entry of the table, in the table's
    order, each with the scan of the call; and the only exceptions are the
    AttributeError of the unassigned table, the KeyError of the key and the
    IndexError of a feature index. *)
Theorem make_candidate_returns_iff {W : Collaborators} (self : R2RNavBatch)
    (feature : list fvec) (scan vp : string) (viewId : Z) :
  ((exists cs, make_candidate self feature scan vp viewId = Ok cs) <->
   (exists cd table,
      candidates_dict self = Some cd /\ cd !! (scan +:+ "_" +:+ vp) = Some table /\
      forall kv, kv ∈ table -> index_in_range feature (v_featureId (snd kv)))) /\
  (forall cs cd table,
     make_candidate self feature scan vp viewId = Ok cs ->
     candidates_dict self = Some cd -> cd !! (scan +:+ "_" +:+ vp) = Some table ->
     c_viewpointId <$> cs = fst <$> table /\
     c_pointId <$> cs = (fun kv => v_pointId (snd kv)) <$> table /\
     forall c, c ∈ cs -> c_scanId c = scan) /\
  (forall e, make_candidate self feature scan vp viewId = Raise e ->
     e = AttributeError "candidates_dict" \/ e = KeyError (scan +:+ "_" +:+ vp) \/
     e = IndexError).
Proof.
  split; [split|split].
  - intros [cs H]. destruct (make_candidate_ok _ _ _ _ _ _ H) as (cd & table & Hcd & Ht & Hrun).
    exists cd, table. split; [exact Hcd|]. split; [exact Ht|].
    intros kv Hkv. apply py_index_in_range.
    apply list_elem_of_lookup in Hkv. destruct Hkv as [i Hi].
    destruct (traverse_lookup _ _ _ _ _ Hrun Hi) as (c & _ & Hc).
    unfold c_new in Hc. apply rbind_ok in Hc. destruct Hc as (f & Hf & _). eauto.
  - intros (cd & table & Hcd & Ht & Hidx).
    eapply make_candidate_total; eauto.
    intros kv Hkv. apply py_index_in_range. auto.
  - intros cs cd table H Hcd Ht.
    destruct (make_candidate_ok _ _ _ _ _ _ H) as (cd' & table' & Hcd' & Ht' & Hrun).
    rewrite Hcd in Hcd'. injection Hcd' as <-. rewrite Ht in Ht'. injection Ht' as <-.
    repeat split.
    + eapply traverse_project; [|exact Hrun].
      intros kv c Hc. unfold c_new in Hc. apply rbind_ok in Hc.
      destruct Hc as (f & _ & Hc). injection Hc as <-. reflexivity.
    + eapply traverse_project; [|exact Hrun].
      intros kv c Hc. unfold c_new in Hc. apply rbind_ok in Hc.
      destruct Hc as (f & _ & Hc). injection Hc as <-. reflexivity.
    + intros c Hc. apply list_elem_of_lookup in Hc. destruct Hc as [i Hi].
      assert (Hlen : (i < length table)%nat)
        by (rewrite <- (traverse_length _ _ _ Hrun); eapply lookup_lt_Some; eauto).
      destruct (lookup_lt_is_Some_2 table i Hlen) as [kv Hkv].
      destruct (traverse_lookup _ _ _ _ _ Hrun Hkv) as (c' & Hc' & Hnew).
      rewrite Hi in Hc'. injection Hc' as <-.
      unfold c_new in Hnew. apply rbind_ok in Hnew.
      destruct Hnew as (f & _ & Hnew). injection Hnew as <-. reflexivity.
  - intros e H. unfold make_candidate in H.
    apply rbind_raise in H. destruct H as [H | (cd & _ & H)].
    { left. destruct (candidates_dict self); simpl in H; [discriminate | congruence]. }
    apply rbind_raise in H. destruct H as [H | (table & _ & H)].
    { right. left. unfold getitem in H. destruct (cd !! _); [discriminate | congruence]. }
    right. right. unfold candidate_loop in H.
    apply traverse_raise in H. destruct H as (kv & _ & H).
    unfold c_new in H. apply rbind_raise in H. destruct H as [H | (f & _ & H)]; [|discriminate].
    eapply py_index_raises_IndexError; eauto.
Qed.

(** ** The lists [eval_metrics] accumulates *)

Lemma append_scores_lookup (metrics : gmap string (list Q)) (scores : gmap string Q)
    (k : string) :
  default [] (append_scores metrics scores !! k)
  = default [] (metrics !! k) ++ option_list (scores !! k).
Proof.
  unfold append_scores. rewrite lookup_merge.
  destruct (metrics !! k), (scores !! k); simpl; rewrite ?app_nil_r; reflexivity.
Qed.

Section Metrics.
Context {W : Collaborators}.

(** Every item [_eval_item] scores has the eight keys of its own and [CLS]. *)
Lemma eval_item_keys (self : R2RNavBatch) (scan : string) (pred_path : list (list string))
    (gt_path : list string) (gt_objid : pyval) (scores : gmap string Q) (k : string) :
  _eval_item self scan pred_path gt_path gt_objid = Ok scores ->
  k ∈ own_keys ++ ["CLS"] -> is_Some (scores !! k).
Proof.
  intros H Hk.
  destruct (eval_item_ok _ _ _ _ _ _ H)
    as (pe & sc & s & tl & dtw & cls & Hpe & Hsc & Hs & Htl & Hdtw & Hcls & ->).
  destruct (distance_scores_ok _ _ _ _ _ Hpe)
    as (all & start & goal & near & l & nav & orc & tl' & _ & _ & _ & _ & _
        & _ & _ & _ & _ & _ & _ & _ & Hscores).
  assert (Hsc' : exists a b, sc = <["oracle_success" := a]> (<["success" := b]> (pe_scores pe))).
  { destruct (obj2vps self) as [[table|]|] eqn:Hpol.
    - destruct (success_scores_multi _ _ _ _ _ _ _ Hpol Hsc) as (vps & lv & _ & _ & _ & ->).
      eauto.
    - destruct (success_scores_single _ _ _ _ _ _ Hpol Hsc) as (nav' & orc' & _ & _ & ->).
      eauto.
    - rewrite (success_scores_unassigned _ _ _ _ _ Hpol) in Hsc. discriminate. }
  destruct Hsc' as (a & b & ->). rewrite Hscores. clear Hs Htl Hsc Hscores.
  unfold own_keys in Hk. simpl in Hk.
  repeat (apply elem_of_cons in Hk; destruct Hk as [-> | Hk]);
    try (apply elem_of_nil in Hk; contradiction);
    try (rewrite lookup_insert_eq; eauto; fail);
    (rewrite lookup_insert_ne by discriminate; apply lookup_union_is_Some; right;
     map_lookup; eauto).
Qed.

(** The loop of [eval_metrics], from any accumulator: the ids are appended
    in order, and under every key the values the items have under it. *)
Lemma eval_loop_from (self : R2RNavBatch) (preds : list prediction)
    (acc acc' : gmap string (list Q) * list string) :
  for_each (fun (acc : gmap string (list Q) * list string) item =>
              trajs <- getattr "gt_trajs" (gt_trajs self) ;;
              gt <- getitem trajs (pr_instr_id item) ;;
              let '(scan, gt_traj, gt_objid) := gt in
              traj_scores <- _eval_item self scan (pr_trajectory item) gt_traj gt_objid ;;
              Ok (append_scores (fst acc) traj_scores, snd acc ++ [pr_instr_id item]))
           preds acc = Ok acc' ->
  snd acc' = snd acc ++ (pr_instr_id <$> preds) /\
  exists ss : list (gmap string Q),
    Forall2 (fun item sc =>
               exists trajs scan gt_traj gt_objid,
                 gt_trajs self = Some trajs /\
                 trajs !! pr_instr_id item = Some (scan, gt_traj, gt_objid) /\
                 _eval_item self scan (pr_trajectory item) gt_traj gt_objid = Ok sc)
            preds ss /\
    forall k, default [] (fst acc' !! k)
              = default [] (fst acc !! k) ++ omap (fun sc : gmap string Q => sc !! k) ss.
Proof.
  revert acc. induction preds as [|item preds IH]; intros acc H.
  - simpl in H. injection H as <-. split; [rewrite app_nil_r; reflexivity|].
    exists []. split; [constructor|]. intros k. rewrite app_nil_r. reflexivity.
  - simpl in H. apply rbind_ok in H. destruct H as (acc1 & Hstep & H).
    apply rbind_ok in Hstep. destruct Hstep as (trajs & Htrajs & Hstep).
    apply rbind_ok in Hstep. destruct Hstep as ([[scan gt_traj] gt_objid] & Hgt & Hstep).
    apply rbind_ok in Hstep. destruct Hstep as (sc & Hsc & Hstep).
    injection Hstep as <-.
    destruct (IH _ H) as (Hids & ss & Hall & Hlists). simpl in Hids, Hlists.
    split; [rewrite Hids, <- app_assoc; reflexivity|].
    exists (sc :: ss). split.
    + constructor; [|exact Hall].
      apply getattr_ok in Htrajs. apply getitem_ok in Hgt.
      exists trajs, scan, gt_traj, gt_objid. auto.
    + intros k. rewrite Hlists, append_scores_lookup, <- app_assoc. f_equal.
      simpl. destruct (sc !! k); reflexivity.
Qed.

End Metrics.

(** X14. When [eval_metrics] returns, the ['instr_id'] list holds the ids of
    the predictions in their order; every prediction has been scored by
    [_eval_item] against the ground truth stored under its id; the list kept
    under any key holds, in the order of the predictions, the values the
    items have under that key; and the lists of the eight keys [_eval_item]
    writes itself and of [CLS] have one entry per prediction. *)
Theorem eval_metrics_lists_follow_predictions {W : Collaborators} (self : R2RNavBatch)
    (preds : list prediction) (avg : gmap string (option Q))
    (metrics : gmap string (list Q)) (ids : list string) :
  eval_metrics self preds = Ok (avg, (metrics, ids)) ->
  ids = pr_instr_id <$> preds /\
  exists ss : list (gmap string Q),
    Forall2 (fun item sc =>
               exists trajs scan gt_traj gt_objid,
                 gt_trajs self = Some trajs /\
                 trajs !! pr_instr_id item = Some (scan, gt_traj, gt_objid) /\
                 _eval_item self scan (pr_trajectory item) gt_traj gt_objid = Ok sc)
            preds ss /\
    (forall k, default [] (metrics !! k) = omap (fun sc : gmap string Q => sc !! k) ss) /\
    (forall k, k ∈ own_keys ++ ["CLS"] ->
       length (default [] (metrics !! k)) = length preds).
Proof.
  unfold eval_metrics. intros H.
  apply rbind_ok in H. destruct H as ([m ids'] & Hloop & H).
  injection H as _ <- <-.
  unfold eval_loop in Hloop.
  destruct (eval_loop_from _ _ _ _ Hloop) as (Hids & ss & Hall & Hlists).
  simpl in Hids, Hlists. split; [exact Hids|].
  exists ss. split; [exact Hall|]. split.
  - intros k. rewrite Hlists, lookup_empty. reflexivity.
  - intros k Hk. rewrite Hlists, lookup_empty. simpl.
    clear Hlists Hloop Hids. induction Hall as [|item sc preds' ss' Hitem _ IH]; [reflexivity|].
    destruct Hitem as (trajs & scan & gt_traj & gt_objid & _ & _ & Hsc).
    destruct (eval_item_keys _ _ _ _ _ _ _ Hsc Hk) as [v Hv].
    simpl. rewrite Hv. simpl. f_equal. exact IH.
Qed.

(** ** The rates [eval_metrics] reports *)

Lemma np_sum_flags (l1 l2 : list Q) :
  Forall2 (fun a b => (0 <= a)%Q /\ (a <= b)%Q /\ (b <= 1)%Q) l1 l2 ->
  (0 <= np_sum l1)%Q /\ (np_sum l1 <= np_sum l2)%Q /\
  (np_sum l2 <= inject_Z (Z.of_nat (length l2)))%Q.
Proof.
  induction 1 as [|a b l1 l2 (H0 & Hab & H1) _ (IH0 & IHab & IH1)].
  - simpl. repeat split; apply Qle_refl.
  - cbn [np_sum foldr length]. repeat split.
    + change 0%Q with (0 + 0)%Q. apply Qplus_le_compat; assumption.
    + apply Qplus_le_compat; assumption.
    + rewrite Nat2Z.inj_succ, <- Z.add_1_l, inject_Z_plus.
      apply Qplus_le_compat; assumption.
Qed.

Lemma rates_ordered (s1 s2 n : Q) :
  (0 < n)%Q -> (0 <= s1)%Q -> (s1 <= s2)%Q -> (s2 <= n)%Q ->
  (0 <= s1 / n * 100)%Q /\ (s1 / n * 100 <= s2 / n * 100)%Q /\ (s2 / n * 100 <= 100)%Q.
Proof.
  intros Hn H0 H12 H2n.
  assert (Hinv : (0 <= / n)%Q) by (apply Qinv_le_0_compat, Qlt_le_weak; exact Hn).
  repeat split.
  - apply Qmult_le_0_compat; [|discriminate].
    apply Qle_shift_div_l; [exact Hn|]. rewrite Qmult_0_l. exact H0.
  - apply Qmult_le_compat_r; [|discriminate].
    unfold Qdiv. apply Qmult_le_compat_r; assumption.
  - apply Qle_trans with (1 * 100)%Q; [|rewrite Qmult_1_l; apply Qle_refl].
    apply Qmult_le_compat_r; [|discriminate].
    apply Qle_shift_div_r; [exact Hn|]. rewrite Qmult_1_l. exact H2n.
Qed.

Lemma means_ordered (l1 l2 : list Q) :
  l1 <> [] ->
  Forall2 (fun a b => (0 <= a)%Q /\ (a <= b)%Q /\ (b <= 1)%Q) l1 l2 ->
  exists r1 r2,
    (fun m => (m * 100)%Q) <$> np_mean l1 = Some r1 /\
    (fun m => (m * 100)%Q) <$> np_mean l2 = Some r2 /\
    (0 <= r1)%Q /\ (r1 <= r2)%Q /\ (r2 <= 100)%Q.
Proof.
  intros Hne Hall.
  pose proof (Forall2_length _ _ _ Hall) as Hlen.
  destruct (np_sum_flags _ _ Hall) as (H0 & H12 & H2).
  destruct l1 as [|a l1]; [congruence|]. destruct l2 as [|b l2]; [discriminate|].
  unfold np_mean. cbn [fmap option_fmap option_map].
  do 2 eexists. split; [reflexivity|]. split; [reflexivity|].
  rewrite Hlen. apply rates_ordered; auto.
  change 0%Q with (inject_Z 0). rewrite <- Zlt_Qlt. simpl length. lia.
Qed.

(** X15. Over a non-empty list of predictions, the success rate [sr] and
    the oracle success rate [oracle_sr] that [eval_metrics] reports are
    percentages, and the oracle rate is at least the success rate; over an
    empty list both are the mean of an empty list. *)
Theorem oracle_rate_at_least_success_rate {W : Collaborators} (self : R2RNavBatch)
    (preds : list prediction) (avg : gmap string (option Q))
    (metrics : gmap string (list Q) * list string) :
  dtw_keys_fresh ->
  eval_metrics self preds = Ok (avg, metrics) ->
  (preds = [] -> avg !! "sr" = Some None /\ avg !! "oracle_sr" = Some None) /\
  (preds <> [] ->
   exists sr oracle_sr,
     avg !! "sr" = Some (Some sr) /\ avg !! "oracle_sr" = Some (Some oracle_sr) /\
     (0 <= sr)%Q /\ (sr <= oracle_sr)%Q /\ (oracle_sr <= 100)%Q).
Proof.
  intros Hfresh H. unfold eval_metrics in H.
  apply rbind_ok in H. destruct H as ([m ids] & Hloop & H).
  injection H as <- <-. cbn [fst].
  unfold eval_loop in Hloop.
  destruct (eval_loop_from _ _ _ _ Hloop) as (_ & ss & Hall & Hlists).
  cbn [fst] in Hlists. map_lookup. unfold rate_of, mean_of.
  rewrite !Hlists, !lookup_empty. cbn [default app].
  split.
  - intros ->. inversion Hall; subst. split; reflexivity.
  - intros Hne.
    assert (Hflags : Forall2 (fun a b => (0 <= a)%Q /\ (a <= b)%Q /\ (b <= 1)%Q)
                       (omap (fun sc : gmap string Q => sc !! "success") ss)
                       (omap (fun sc : gmap string Q => sc !! "oracle_success") ss)).
    { clear Hlists Hloop Hne.
      induction Hall as [|item sc preds' ss' Hitem _ IH]; [constructor|].
      destruct Hitem as (trajs & scan & gt_traj & gt_objid & _ & _ & Hsc).
      destruct (eval_item_oracle _ _ _ _ _ _ Hfresh Hsc)
        as (nav & orc & s & os & _ & _ & Hs & Hos & _ & Hso & _ & Hfs & Hfos).
      simpl. rewrite Hs, Hos. constructor; [|exact IH].
      destruct Hfs as [-> | ->].
      - rewrite (Hso eq_refl). repeat split; discriminate.
      - destruct Hfos as [-> | ->]; repeat split; discriminate. }
    assert (Hne' : omap (fun sc : gmap string Q => sc !! "success") ss <> []).
    { destruct Hall as [|item sc preds' ss' Hitem _]; [congruence|].
      destruct Hitem as (trajs & scan & gt_traj & gt_objid & _ & _ & Hsc).
      destruct (eval_item_oracle _ _ _ _ _ _ Hfresh Hsc)
        as (nav & orc & s & os & _ & _ & Hs & _).
      simpl. rewrite Hs. discriminate. }
    destruct (means_ordered _ _ Hne' Hflags) as (r1 & r2 & Hr1 & Hr2 & Hb).
    exists r1, r2. rewrite Hr1, Hr2. auto.
Qed.

(** ** One call of [reset] and of [step] *)

Section Calls.
Context {W : Collaborators}.

Lemma next_minibatch_env g (self : R2RNavBatch) requested g' self' :
  _next_minibatch g self requested = Ok (g', self') -> env self' = env self.
Proof.
  intros H.
  destruct (next_minibatch_cases _ _ _ _ _ H) as (i & _ & [(_ & _ & ->) | (_ & _ & ->)]);
    reflexivity.
Qed.

(** [_get_obs] reads one record of the batch per simulator. *)
Lemma get_obs_needs_records (self : R2RNavBatch) (obs : list observation)
    (b : list episode) :
  _get_obs self = Ok obs -> batch self = Some b ->
  (length (sims (env self)) <= length b)%nat.
Proof.
  intros H Hb. destruct (get_obs_slots _ _ H) as (_ & _ & Hslots).
  destruct (le_lt_dec (length (sims (env self))) (length b)) as [Hle | Hlt]; [exact Hle|].
  destruct (lookup_lt_is_Some_2 (sims (env self)) (length b) Hlt) as [sim Hsim].
  destruct (Hslots _ _ Hsim) as (state & feature & ob & _ & _ & _ & Hget).
  destruct (get_ob_ok _ _ _ _ _ Hget) as (b' & item & _ & _ & _ & Hb' & Hitem & _).
  rewrite Hb in Hb'. injection Hb' as <-.
  apply py_index_nat in Hitem. apply lookup_lt_Some in Hitem. lia.
Qed.

End Calls.

(** X16. A call of [reset] that returns has drawn a batch with exactly one
    record per simulator, whatever batch size was asked for, and returns one
    observation per record: on the simulator of slot [i] it has started an
    episode at the scan, first path viewpoint and heading of record [i], and
    observation [i] reports the state of that simulator under the id of
    record [i]. *)
Theorem reset_starts_every_slot {W : Collaborators} g (self : R2RNavBatch)
    requested g' self' (obs : list observation) :
  reset g self requested = Ok (g', self', obs) ->
  exists self1 b,
    _next_minibatch g self requested = Ok (g', self1) /\
    batch self1 = Some b /\ batch self' = Some b /\
    length b = length (sims (env self)) /\
    length (sims (env self')) = length (sims (env self)) /\
    length obs = length b /\
    forall i item, b !! i = Some item ->
      exists start sim sim' state ob,
        head (ep_path item) = Some start /\
        sims (env self) !! i = Some sim /\
        sim_newEpisode sim (ep_scan item) start (ep_heading item) = Done sim' /\
        sims (env self') !! i = Some sim' /\
        sim_getState sim' = Done state /\
        obs !! i = Some ob /\
        ob_instr_id ob = ep_instr_id item /\ ob_gt_path ob = ep_path item /\
        ob_scan ob = scanId state /\ ob_viewpoint ob = viewpointId (st_location state) /\
        ob_heading ob = st_heading state.
Proof.
  unfold reset. intros H.
  apply rbind_ok in H. destruct H as ([g1 self1] & Hnext & H).
  apply rbind_ok in H. destruct H as (b & Hb & H).
  apply rbind_ok in H. destruct H as (vps & Hvps & H).
  apply rbind_ok in H. destruct H as (e & He & H).
  apply rbind_ok in H. destruct H as (o & Ho & H).
  injection H as <- <- <-. cbn [fst snd] in *.
  apply getattr_ok in Hb.
  pose proof (next_minibatch_env _ _ _ _ _ Hnext) as Henv.
  pose proof (traverse_length _ _ _ Hvps) as Hlv.
  destruct (newEpisodes_run _ _ _ _ _ He) as (Hlen & Hfit & Hslots & _).
  rewrite !length_zip_with, !length_fmap, Hlv, Henv in Hfit.
  rewrite Henv in Hlen, Hslots.
  pose proof (get_obs_needs_records (set_env self1 e) o b Ho Hb) as Hneed. cbn [env set_env] in Hneed.
  destruct (get_obs_slots _ _ Ho) as (_ & Hobs & Hstates). cbn [env set_env] in Hobs, Hstates.
  exists self1, b.
  split; [exact Hnext|]. split; [exact Hb|]. split; [exact Hb|].
  split; [lia|]. split; [exact Hlen|]. split; [lia|].
  intros i item Hi.
  destruct (traverse_lookup _ _ _ _ _ Hvps Hi) as (start & Hstart & Hfirst).
  apply py_index_first in Hfirst.
  destruct (Hslots i (ep_scan item, (start, ep_heading item)))
    as (sim & sim' & Hsim & Hnew & Hsim').
  { apply lookup_zip_with_Some. exists (ep_scan item), (start, ep_heading item).
    split; [reflexivity|]. split; [rewrite list_lookup_fmap, Hi; reflexivity|].
    apply lookup_zip_with_Some. exists start, (ep_heading item).
    split; [reflexivity|]. split; [exact Hstart|].
    rewrite list_lookup_fmap, Hi. reflexivity. }
  cbn [fst snd] in Hnew.
  destruct (Hstates i sim' Hsim') as (state & feature & ob & Hstate & _ & Hob & Hget).
  destruct (get_ob_ok _ _ _ _ _ Hget) as (b' & item' & cands & trajs & d & Hb' & Hitem' & _ & _ & _ & ->).
  cbn [batch set_env] in Hb'. rewrite Hb in Hb'. injection Hb' as <-.
  apply py_index_nat in Hitem'. rewrite Hi in Hitem'. injection Hitem' as <-.
  exists start, sim, sim', state. eexists.
  split; [exact Hfirst|]. split; [exact Hsim|]. split; [exact Hnew|].
  split; [exact Hsim'|]. split; [exact Hstate|]. split; [exact Hob|].
  simpl. auto 10.
Qed.

(** X17. A call of [step] that returns has applied the action of slot [i]
    to the simulator of slot [i], left the simulators past the last action
    as they were, kept the batch, and returns one observation per
    simulator, each reporting the state of its simulator after the call. *)
Theorem step_moves_acted_slots {W : Collaborators} (self self' : R2RNavBatch)
    (actions : list (Z * Q * Q)) (obs : list observation) :
  step self actions = Ok (self', obs) ->
  batch self' = batch self /\ data self' = data self /\ ix self' = ix self /\
  (length actions <= length (sims (env self)))%nat /\
  length (sims (env self')) = length (sims (env self)) /\
  length obs = length (sims (env self)) /\
  (forall i index heading elevation,
     actions !! i = Some (index, heading, elevation) ->
     exists sim sim',
       sims (env self) !! i = Some sim /\
       sim_makeAction sim index heading elevation = Done sim' /\
       sims (env self') !! i = Some sim') /\
  (forall i, (length actions <= i)%nat -> sims (env self') !! i = sims (env self) !! i) /\
  (forall i sim', sims (env self') !! i = Some sim' ->
     exists state ob,
       sim_getState sim' = Done state /\ obs !! i = Some ob /\
       ob_scan ob = scanId state /\ ob_viewpoint ob = viewpointId (st_location state) /\
       ob_viewIndex ob = viewIndex state /\ ob_heading ob = st_heading state /\
       ob_elevation ob = st_elevation state).
Proof.
  intros H. destruct (step_ok _ _ _ _ H) as (e & He & -> & Ho).
  destruct (makeActions_run _ _ _ He) as (Hlen & Hfit & Hslots & Hrest).
  destruct (get_obs_slots _ _ Ho) as (_ & Hobs & Hstates). cbn [env set_env] in Hobs, Hstates.
  cbn [env batch data ix set_env].
  split; [reflexivity|]. split; [reflexivity|]. split; [reflexivity|].
  split; [exact Hfit|]. split; [exact Hlen|]. split; [lia|].
  split; [exact Hslots|]. split; [exact Hrest|].
  intros i sim' Hsim'.
  destruct (Hstates i sim' Hsim') as (state & feature & ob & Hstate & _ & Hob & Hget).
  destruct (get_ob_ok _ _ _ _ _ Hget) as (b & item & cands & trajs & d & _ & _ & _ & _ & _ & ->).
  exists state. eexists. split; [exact Hstate|]. split; [exact Hob|]. simpl. auto.
Qed.

(** ** One observation per slot of the constructor *)

Section SlotsOfConstructor.
Context {W : Collaborators}.

Lemma load_nav_graphs_slots (self self' : R2RNavBatch) :
  _load_nav_graphs self = Ok self' ->
  env self' = env self /\ batch_size self' = batch_size self.
Proof.
  unfold _load_nav_graphs. destruct (real_world self).
  - intros [= <-]. auto.
  - intros H. apply rbind_ok in H. destruct H as (g & _ & H). injection H as <-. auto.
Qed.

Lemma init_slots g view_db instr_data conn cand bsize afs sd nm sel rw sp g' self :
  init g view_db instr_data conn cand bsize afs sd nm sel rw sp = Ok (g', self) ->
  length (sims (env self)) = Z.to_nat bsize /\ batch_size self = bsize.
Proof.
  unfold init. intros H.
  apply rbind_ok in H. destruct H as (e & He & H).
  assert (Hsims : length (sims e) = Z.to_nat bsize).
  { unfold EnvBatch_init in He. apply rbind_ok in He. destruct He as (s & Hs & He).
    injection He as <-. simpl.
    rewrite (traverse_length _ _ _ Hs). apply py_range_length. }
  destruct rw; simpl in H.
  - injection H as _ <-. auto.
  - apply rbind_ok in H. destruct H as (d & _ & H).
    apply rbind_ok in H. destruct H as (self2 & Hload & H).
    apply rbind_ok in H. destruct H as (c & _ & H).
    injection H as _ <-. simpl.
    destruct (load_nav_graphs_slots _ _ Hload) as [-> ->]. auto.
Qed.

Lemma next_minibatch_slots g (self : R2RNavBatch) requested g' self' :
  _next_minibatch g self requested = Ok (g', self') ->
  env self' = env self /\ batch_size self' = batch_size self.
Proof.
  intros H.
  destruct (next_minibatch_cases _ _ _ _ _ H) as (i & _ & [(_ & _ & ->) | (_ & _ & ->)]);
    auto.
Qed.

(** [reset] returns only when the batch drawn fills the simulators exactly. *)
Lemma reset_counts g (self : R2RNavBatch) requested g' self' (obs : list observation) :
  reset g self requested = Ok (g', self', obs) ->
  batch_size self' = batch_size self /\
  length (sims (env self')) = length (sims (env self)) /\
  length obs = length (sims (env self)) /\
  exists b, batch self' = Some b /\ length b = length (sims (env self)).
Proof.
  unfold reset. intros H.
  apply rbind_ok in H. destruct H as ([g1 self1] & Hnext & H).
  apply rbind_ok in H. destruct H as (b & Hb & H).
  apply rbind_ok in H. destruct H as (vps & Hvps & H).
  apply rbind_ok in H. destruct H as (e & He & H).
  apply rbind_ok in H. destruct H as (o & Ho & H).
  injection H as <- <- <-. cbn [fst snd] in *.
  apply getattr_ok in Hb.
  destruct (next_minibatch_slots _ _ _ _ _ Hnext) as [Henv Hbs].
  pose proof (traverse_length _ _ _ Hvps) as Hlv.
  destruct (newEpisodes_run _ _ _ _ _ He) as (Hlen & Hfit & _).
  rewrite !length_zip_with, !length_fmap, Hlv, Henv in Hfit. rewrite Henv in Hlen.
  pose proof (get_obs_needs_records (set_env self1 e) o b Ho Hb) as Hneed.
  destruct (get_obs_slots _ _ Ho) as (_ & Hobs & _).
  cbn [env set_env] in Hneed, Hobs.
  split; [exact Hbs|]. split; [exact Hlen|]. split; [lia|].
  exists b. split; [exact Hb | lia].
Qed.

Lemma step_counts (self self' : R2RNavBatch) (actions : list (Z * Q * Q))
    (obs : list observation) :
  step self actions = Ok (self', obs) ->
  batch_size self' = batch_size self /\
  length (sims (env self')) = length (sims (env self)) /\
  length obs = length (sims (env self)).
Proof.
  intros H. destruct (step_ok _ _ _ _ H) as (e & He & -> & Ho).
  destruct (makeActions_run _ _ _ He) as (Hlen & _).
  destruct (get_obs_slots _ _ Ho) as (_ & Hobs & _). cbn [env set_env] in Hobs.
  split; [reflexivity|]. split; [exact Hlen | lia].
Qed.

(** An instance has as many simulators as the batch size of its
    construction says, whatever has been called on it since. *)
Lemma reachable_slots (self : R2RNavBatch) :
  reachable self -> length (sims (env self)) = Z.to_nat (batch_size self).
Proof.
  induction 1 as [ ? ? ? ? ? ? ? ? ? ? ? ? ? ? Hinit
                 | ? ? ? IH Hload
                 | ? ? ? ? ? ? IH Hnext
                 | g self shuffle ? IH
                 | ? ? ? ? ? ? ? IH Hreset
                 | ? ? ? ? ? IH Hstep ].
  - destruct (init_slots _ _ _ _ _ _ _ _ _ _ _ _ _ _ Hinit) as [-> ->]. reflexivity.
  - destruct (load_nav_graphs_slots _ _ Hload) as [-> ->]. exact IH.
  - destruct (next_minibatch_slots _ _ _ _ _ Hnext) as [-> ->]. exact IH.
  - exact IH.
  - destruct (reset_counts _ _ _ _ _ _ Hreset) as (-> & -> & _). exact IH.
  - destruct (step_counts _ _ _ _ Hstep) as (-> & -> & _). exact IH.
Qed.

End SlotsOfConstructor.

(** X18. On an instance built by [__init__] with batch size [B] and acted on
    by the methods of the class only, there are [max(B, 0)] simulators at
    every moment; every [reset] that returns has drawn exactly that many
    records and returns that many observations, whatever batch size it was
    called with, and every [step] that returns gives that many observations
    too. *)
Theorem observations_one_per_constructed_slot {W : Collaborators} (self : R2RNavBatch) :
  reachable self ->
  length (sims (env self)) = Z.to_nat (batch_size self) /\
  (forall g requested g' self' obs,
     reset g self requested = Ok (g', self', obs) ->
     length obs = Z.to_nat (batch_size self) /\
     exists b, batch self' = Some b /\ length b = Z.to_nat (batch_size self)) /\
  (forall actions self' obs,
     step self actions = Ok (self', obs) -> length obs = Z.to_nat (batch_size self)).
Proof.
  intros Hreach. pose proof (reachable_slots self Hreach) as Hslots.
  split; [exact Hslots|]. split.
  - intros g requested g' self' obs H.
    destruct (reset_counts _ _ _ _ _ _ H) as (_ & _ & Hobs & b & Hb & Hlen).
    rewrite <- Hslots. split; [exact Hobs|]. exists b. auto.
  - intros actions self' obs H.
    destruct (step_counts _ _ _ _ H) as (_ & _ & Hobs). rewrite <- Hslots. exact Hobs.
Qed.

(** ** Facts about the small world *)


Lemma ok_value {A} (d : A) (r : result A) : is_ok r = true -> r = Ok (value d r).
Proof. destruct r; simpl; [reflexivity | discriminate]. Qed.

Lemma nonneg_table_sound (sd : dist_table) :
  nonneg_table sd = true ->
  forall a row b d, sd !! a = Some row -> row !! b = Some d -> (0 <= d)%Q.
Proof.
  unfold nonneg_table. intros H a row b d Ha Hb.
  rewrite forallb_forall in H.
  apply elem_of_map_to_list, list_elem_of_In in Ha. specialize (H _ Ha). simpl in H.
  rewrite forallb_forall in H.
  apply elem_of_map_to_list, list_elem_of_In in Hb. specialize (H _ Hb). simpl in H.
  apply Qle_bool_iff. exact H.
Qed.

Lemma demo_dtw_keys_fresh : dtw_keys_fresh (W := Demo.demo_world).
Proof.
  intros sd p g s t m k Hm Hk. simpl in Hm. injection Hm as <-.
  unfold own_keys in Hk.
  repeat (apply elem_of_cons in Hk; destruct Hk as [->|Hk]; [reflexivity|]).
  apply elem_of_nil in Hk. contradiction.
Qed.

Lemma demo_shuffle_permutes : shuffle_permutes (W := Demo.demo_world).
Proof. intros g l. simpl. symmetry. apply Permutation_rev. Qed.

Lemma built_is_constructed (d : list episode) (bsize : Z) (rw : bool) :
  is_ok (Demo.construct d bsize rw) = true ->
  Demo.construct d bsize rw = Ok (tt, Run.built d bsize rw).
Proof.
  unfold Run.built. destruct (Demo.construct d bsize rw) as [[[] s]|e]; simpl.
  - reflexivity.
  - discriminate.
Qed.

Lemma fresh_is_constructed : Demo.construct Demo.dataset 2 false = Ok (tt, Run.fresh).
Proof. apply built_is_constructed. vm_compute. reflexivity. Qed.

Lemma fresh_reachable : reachable Run.fresh.
Proof. eapply reach_init. exact fresh_is_constructed. Qed.

Lemma demo_nonneg (scan : string) : nonneg_distances Run.single_goal scan.
Proof.
  intros all sd a row b d Hall Hsd. injection Hall as <-.
  apply (nonneg_table_sound sd).
  rewrite lookup_fmap in Hsd.
  destruct (Demo.tables !! scan) as [t|] eqn:Ht; [|discriminate].
  injection Hsd as <-.
  apply elem_of_map_to_list in Ht.
  assert (Hall : forallb (fun st : string * dist_table => nonneg_table (snd st))
                   (map_to_list Demo.tables) = true) by (vm_compute; reflexivity).
  rewrite forallb_forall in Hall. apply list_elem_of_In in Ht. exact (Hall (scan, t) Ht).
Qed.

(** ** The theorems at concrete inputs *)

#[local] Existing Instance Demo.demo_world.

Lemma scores_of_evaluated {W : Collaborators} (self : R2RNavBatch) (scan : string)
    (pred_path : list (list string)) (gt_path : list string) (gt_objid : pyval) :
  is_ok (_eval_item self scan pred_path gt_path gt_objid) = true ->
  _eval_item self scan pred_path gt_path gt_objid
  = Ok (value ∅ (_eval_item self scan pred_path gt_path gt_objid)).
Proof. apply ok_value. Qed.

Lemma far_evaluated :
  _eval_item Run.single_goal "S2" [["A"]] ["A"; "B"] PyNone
  = Ok (Run.scores_of Run.single_goal "S2" [["A"]] ["A"; "B"] PyNone).
Proof. apply scores_of_evaluated. vm_compute. reflexivity. Qed.

Lemma line_evaluated :
  _eval_item Run.single_goal "S1" [["A"]; ["B"; "C"]] ["A"; "B"; "C"] PyNone
  = Ok (Run.scores_of Run.single_goal "S1" [["A"]; ["B"; "C"]] ["A"; "B"; "C"] PyNone).
Proof. apply scores_of_evaluated. vm_compute. reflexivity. Qed.

Lemma line_goal_evaluated :
  _eval_item Run.multi_goal "S1" [["A"]; ["B"; "C"]] ["A"; "B"; "C"] (PyInt 7)
  = Ok (Run.scores_of Run.multi_goal "S1" [["A"]; ["B"; "C"]] ["A"; "B"; "C"] (PyInt 7)).
Proof. apply scores_of_evaluated. vm_compute. reflexivity. Qed.

Lemma line_distances_scored (self : R2RNavBatch) :
  is_ok (distance_scores self "S1" [["A"]; ["B"; "C"]] ["A"; "B"; "C"]) = true ->
  distance_scores self "S1" [["A"]; ["B"; "C"]] ["A"; "B"; "C"]
  = Ok (value {| pe_sd := ∅; pe_path := []; pe_scores := ∅; pe_gt_lengths := 0 |}
          (distance_scores self "S1" [["A"]; ["B"; "C"]] ["A"; "B"; "C"])).
Proof. apply ok_value. Qed.

(** On the line A - B - C with goal B, the path A, C, B, B has its nearest
    point at B, first met at position 2. *)
Lemma get_nearest_on_line :
  exists i v dv,
    _get_nearest Demo.line "B" ["A"; "C"; "B"; "B"] = Ok v /\
    ["A"; "C"; "B"; "B"] !! i = Some v /\
    dist Demo.line v "B" = Ok dv /\
    forall j x dx, ["A"; "C"; "B"; "B"] !! j = Some x -> dist Demo.line x "B" = Ok dx ->
      (dv <= dx)%Q /\ ((j < i)%nat -> (dv < dx)%Q).
Proof.
  apply get_nearest_first_minimum.
  - discriminate.
  - intros x Hx.
    repeat (apply elem_of_cons in Hx; destruct Hx as [->|Hx]; [eexists; reflexivity|]).
    apply elem_of_nil in Hx. contradiction.
Defined.

(** Scan S2, the agent never leaves A and the goal B is 3.0 away:
    [success] is 0.0. *)
Lemma single_goal_at_margin :
  exists nav success,
    Run.scores_of Run.single_goal "S2" [["A"]] ["A"; "B"] PyNone !! "nav_error" = Some nav /\
    (nav == 3)%Q /\
    Run.scores_of Run.single_goal "S2" [["A"]] ["A"; "B"] PyNone !! "success" = Some success /\
    success = 0%Q.
Proof.
  destruct (single_goal_success_iff_below_margin (W := Demo.demo_world)
              Run.single_goal "S2" [["A"]] ["A"; "B"] PyNone
              (Run.scores_of Run.single_goal "S2" [["A"]] ["A"; "B"] PyNone)
              demo_dtw_keys_fresh eq_refl far_evaluated)
    as (all & sd & l & goal & near & nav & orc & s & os & _ & _ & _ & _ & _ & _ & _
        & Hnav & _ & Hs & _ & _ & _ & _ & _ & Hb).
  assert (Hthree : (nav == 3)%Q).
  { assert (Hc : Run.scores_of Run.single_goal "S2" [["A"]] ["A"; "B"] PyNone !! "nav_error"
                 = Some 3%Q) by (vm_compute; reflexivity).
    rewrite Hc in Hnav. injection Hnav as <-. reflexivity. }
  exists nav, s. auto.
Defined.

(** Goal viewpoints C and D for object 7 of scan S1: a path ending at C
    succeeds; for the object [None], whose goal list is empty, evaluation
    stops at the assertion. *)
Lemma multi_goal_on_line :
  (exists success,
     Run.scores_of Run.multi_goal "S1" [["A"]; ["B"; "C"]] ["A"; "B"; "C"] (PyInt 7)
       !! "success" = Some success /\ success = 1%Q) /\
  _eval_item Run.multi_goal "S1" [["A"]; ["B"; "C"]] ["A"; "B"; "C"] PyNone
  = Raise (AssertionError "S1_None").
Proof.
  split.
  - destruct (multi_goal_success_iff_goal_member (W := Demo.demo_world)
                Run.multi_goal "S1" [["A"]; ["B"; "C"]] ["A"; "B"; "C"] (PyInt 7) Run.goals
                demo_dtw_keys_fresh eq_refl) as [Hok _].
    destruct (Hok _ line_goal_evaluated)
      as (vps & l & s & os & Hvps & _ & Hl & Hs & _ & Hone & _).
    exists s. split; [exact Hs|]. apply Hone.
    assert (Hv : vps = ["C"; "D"]) by (vm_compute in Hvps; congruence).
    assert (Hc : l = "C") by (vm_compute in Hl; congruence).
    subst. left.
  - destruct (multi_goal_success_iff_goal_member (W := Demo.demo_world)
                Run.multi_goal "S1" [["A"]; ["B"; "C"]] ["A"; "B"; "C"] PyNone Run.goals
                demo_dtw_keys_fresh eq_refl) as [_ Hempty].
    apply (Hempty _ (line_distances_scored Run.multi_goal ltac:(vm_compute; reflexivity))).
    vm_compute. reflexivity.
Defined.

(** The design document's first scenario: A - B - C followed exactly has
    [spl] 1.0. *)
Lemma spl_on_line :
  exists spl,
    Run.scores_of Run.single_goal "S1" [["A"]; ["B"; "C"]] ["A"; "B"; "C"] PyNone !! "spl"
    = Some spl /\ (spl == 1)%Q.
Proof.
  destruct (spl_is_success_weighted_length_ratio (W := Demo.demo_world)
              Run.single_goal "S1" [["A"]; ["B"; "C"]] ["A"; "B"; "C"] PyNone _
              demo_dtw_keys_fresh line_evaluated)
    as (all & sd & s & tl & gl & spl & _ & _ & _ & _ & _ & _ & Hspl & _).
  exists spl. split; [exact Hspl|].
  assert (Hc : Run.scores_of Run.single_goal "S1" [["A"]; ["B"; "C"]] ["A"; "B"; "C"] PyNone
               !! "spl" = Some (2 # 2)%Q) by (vm_compute; reflexivity).
  rewrite Hc in Hspl. injection Hspl as <-. reflexivity.
Defined.

(** The same scenario has [spl] within [0, 1]. *)
Lemma spl_bounds_on_line :
  exists spl,
    Run.scores_of Run.single_goal "S1" [["A"]; ["B"; "C"]] ["A"; "B"; "C"] PyNone !! "spl"
    = Some spl /\ (0 <= spl)%Q /\ (spl <= 1)%Q.
Proof.
  destruct (spl_in_unit_interval (W := Demo.demo_world)
              Run.single_goal "S1" [["A"]; ["B"; "C"]] ["A"; "B"; "C"] PyNone _
              demo_dtw_keys_fresh (demo_nonneg "S1") line_evaluated)
    as (all & sd & s & tl & gl & spl & _ & _ & _ & _ & _ & _ & Hspl & _ & Hlo & Hhi & _).
  exists spl. auto.
Defined.

(** C7 as stated fails. Scan S3, one edge of weight 0.005: the predicted
    path A, B is the reference path, both are non-degenerate two-point paths
    of the same length 0.005, [success] is 1.0 and [spl] is 0.5. *)
Lemma spl_half_on_equal_short_paths :
  is_ok (_eval_item Run.single_goal "S3" [["A"; "B"]] ["A"; "B"] PyNone) = true /\
  consecutive_sum Demo.close (concat [["A"; "B"]]) = consecutive_sum Demo.close ["A"; "B"] /\
  Run.scores_of Run.single_goal "S3" [["A"; "B"]] ["A"; "B"] PyNone !! "trajectory_lengths"
  = Some (1 # 200)%Q /\
  Run.scores_of Run.single_goal "S3" [["A"; "B"]] ["A"; "B"] PyNone !! "success" = Some 1%Q /\
  Run.scores_of Run.single_goal "S3" [["A"; "B"]] ["A"; "B"] PyNone !! "spl"
  = Some (100 # 200)%Q /\
  ~ (100 # 200 == 1)%Q.
Proof.
  split; [vm_compute; reflexivity|].
  split; [reflexivity|].
  split; [vm_compute; reflexivity|].
  split; [vm_compute; reflexivity|].
  split; [vm_compute; reflexivity|].
  intros H. discriminate H.
Qed.

(** On the fresh instance the first scenario stops at [obj2vps]. *)
Lemma fresh_instance_stops_at_obj2vps :
  obj2vps Run.fresh = None /\
  _eval_item Run.fresh "S1" [["A"]; ["B"; "C"]] ["A"; "B"; "C"] PyNone
  = Raise (AttributeError "obj2vps") /\
  eval_metrics Run.fresh [{| pr_instr_id := "r1"; pr_trajectory := [["A"]; ["B"; "C"]] |}]
  = Raise (AttributeError "obj2vps").
Proof.
  destruct (unassigned_obj2vps_stops_evaluation (W := Demo.demo_world) Run.fresh fresh_reachable)
    as (Hnone & Hitem & _ & Hmetrics).
  split; [exact Hnone|]. split.
  - destruct (Hitem "S1" [["A"]; ["B"; "C"]] ["A"; "B"; "C"] PyNone) as [_ Hattr].
    apply (Hattr _ (line_distances_scored Run.fresh ltac:(vm_compute; reflexivity))).
  - eapply (Hmetrics {| pr_instr_id := "r1"; pr_trajectory := [["A"]; ["B"; "C"]] |} []
              _ "S1" ["A"; "B"; "C"] PyNone).
    + reflexivity.
    + vm_compute. reflexivity.
    + apply (line_distances_scored Run.fresh). vm_compute. reflexivity.
Defined.

(** C2 as stated fails. On the freshly constructed instance, [eval_metrics]
    returns for an empty list of predictions, and for a prediction that
    starts at B where the reference starts at A it fails with the start
    assertion, not with an attribute error. *)
Lemma eval_metrics_other_outcomes :
  Demo.construct Demo.dataset 2 false = Ok (tt, Run.fresh) /\
  is_ok (eval_metrics Run.fresh []) = true /\
  eval_metrics Run.fresh [{| pr_instr_id := "r1"; pr_trajectory := [["B"]; ["C"]] |}]
  = Raise (AssertionError start_msg) /\
  AssertionError start_msg <> AttributeError "obj2vps".
Proof.
  split; [exact fresh_is_constructed|].
  split; [vm_compute; reflexivity|].
  split; [vm_compute; reflexivity|].
  discriminate.
Qed.

Lemma ten_is_constructed : Demo.construct Run.ten 4 false = Ok (tt, Run.built Run.ten 4 false).
Proof. apply built_is_constructed. vm_compute. reflexivity. Qed.

(** Ten records, batches of four: three draws take twelve slots. *)
Lemma three_draws_of_four_from_ten :
  exists g' self' b1 b2 b3,
    draw 3 tt (Run.built Run.ten 4 false) (Some 4) = Ok (g', self', [b1; b2; b3]) /\
    length (b1 ++ b2 ++ b3) = 12%nat /\
    length b1 = 4%nat /\ length b2 = 4%nat /\ length b3 = 4%nat /\
    b3 = drop 8 (data (Run.built Run.ten 4 false)) ++ take 2 (data self') /\
    ix self' = Some 2.
Proof.
  assert (Hlen : length (data (Run.built Run.ten 4 false)) = 10%nat)
    by (vm_compute; reflexivity).
  assert (Hbs : effective_batch_size (Run.built Run.ten 4 false) (Some 4) = 4)
    by (vm_compute; reflexivity).
  destruct (minibatch_has_batch_size (W := Demo.demo_world) tt (Run.built Run.ten 4 false)
              (Some 4) 0 demo_shuffle_permutes) as (_ & _ & Hthree).
  - vm_compute. reflexivity.
  - rewrite Hlen. lia.
  - rewrite Hbs, Hlen. lia.
  - apply Hthree; [exact Hlen | vm_compute; reflexivity | reflexivity].
Defined.

(** The same through [reset]: four observations each time, the cursor at 2
    after the third call. *)
Example three_resets_of_four_from_ten :
  Run.three_resets (Run.built Run.ten 4 false) = Ok ([4; 4; 4]%nat, Some 2).
Proof. vm_compute. reflexivity. Qed.

(** C4 as stated fails. Three records and a batch size of ten: the batch
    [_next_minibatch] stores has six items, the three left and three more
    after the reshuffle, and [reset] then fails at the seventh slot. *)
Lemma batch_shorter_than_batch_size :
  Demo.construct Demo.dataset 10 false = Ok (tt, Run.built Demo.dataset 10 false) /\
  batch_size (Run.built Demo.dataset 10 false) = 10 /\
  length (data (Run.built Demo.dataset 10 false)) = 3%nat /\
  (length <$> batch (snd (value (tt, Run.blank)
                            (_next_minibatch tt (Run.built Demo.dataset 10 false) None))))
  = Some 6%nat /\
  is_ok (_next_minibatch tt (Run.built Demo.dataset 10 false) None) = true /\
  reset tt (Run.built Demo.dataset 10 false) None = Raise IndexError.
Proof.
  split; [apply built_is_constructed; vm_compute; reflexivity|].
  repeat split; vm_compute; reflexivity.
Qed.

Lemma real_world_is_constructed :
  init tt Demo.view_db Demo.dataset "connectivity" "candidates.json" 2 4 0 PyNone None true PyNone
  = Ok (tt, Run.built Demo.dataset 2 true).
Proof. apply (built_is_constructed Demo.dataset 2 true). vm_compute. reflexivity. Qed.

(** C1 at a concrete input: the three-record dataset in real-world mode. *)
Lemma real_world_instance_raises :
  shortest_distances (Run.built Demo.dataset 2 true) = None /\
  length (sims (env (Run.built Demo.dataset 2 true))) = 2%nat /\
  reset tt (Run.built Demo.dataset 2 true) None = Raise (AttributeError "ix") /\
  step (Run.built Demo.dataset 2 true) [(0, 0%Q, 0%Q)] = Raise (NameError "passf").
Proof.
  destruct (real_world_reset_and_step_raise (W := Demo.demo_world) _ _ _ _ _ _ _ _ _ _ _ _ _
              real_world_is_constructed)
    as (_ & _ & _ & Hsd & _ & _ & Hsims & _ & Hreset & _ & _ & Hstep).
  split; [exact Hsd|]. split; [exact Hsims|]. split; [apply Hreset|].
  apply (Hstep _ (value (env Run.blank)
                    (makeActions (env (Run.built Demo.dataset 2 true)) [(0, 0%Q, 0%Q)]))).
  apply ok_value. vm_compute. reflexivity.
Defined.

Lemma candidates_at_B :
  make_candidate Run.fresh [100; 101; 102] "S1" "B" 13
  = Ok (value [] (make_candidate Run.fresh [100; 101; 102] "S1" "B" 13)).
Proof. apply ok_value. vm_compute. reflexivity. Qed.

(** At viewpoint B of scan S1, looking along view 13, the second candidate
    is C with feature 100; its relative angles add back to the stored ones. *)
Lemma candidates_of_B_at_view_13 :
  exists c,
    value [] (make_candidate Run.fresh [100; 101; 102] "S1" "B" 13) !! 1%nat = Some c /\
    c_viewpointId c = "C" /\ c_feature c = 100 /\
    (c_heading c + base_heading (arith := Q_arith) 13 == 1 # 10)%Q /\
    (c_elevation c + base_elevation (arith := Q_arith) 13 == 1 # 5)%Q.
Proof.
  destruct (candidate_angles_relative_to_view (W := Demo.demo_world) Run.fresh
              [100; 101; 102] "S1" "B" 13 _ candidates_at_B)
    as (cd & table & Hcd & Htable & _ & Hall).
  assert (Ht : table !! 1%nat = Some ("C", Demo.entry 13 0 (1 # 10)%Q (1 # 5)%Q)).
  { injection Hcd as <-. vm_compute in Htable. injection Htable as <-. reflexivity. }
  destruct (Hall 1%nat _ _ Ht)
    as (c & Hc & Hkey & _ & _ & _ & _ & _ & Hnh & Hne & Hh & He & Hf).
  exists c. split; [exact Hc|]. split; [exact Hkey|].
  split; [change (Ok 100 = Ok (c_feature c)) in Hf; injection Hf as Hf; symmetry; exact Hf|].
  rewrite Hh, He, Hnh, Hne. split; reflexivity.
Defined.

(** C10 as stated fails in the code's arithmetic. In binary64, at view
    index 1, the stored heading 0.1 and elevation 0.5 are carried unchanged
    as the normalized values, but the relative values plus the base offsets
    differ from them in the last place. *)
Lemma binary64_round_trip_is_inexact :
  exists c,
    c_new (arith := binary64_arith) [tt] "S1" 1 "B" Run.float_entry = Ok c /\
    c_normalized_heading c = v_heading Run.float_entry /\
    c_normalized_elevation c = v_elevation Run.float_entry /\
    PrimFloat.eqb (PrimFloat.add (c_heading c) (base_heading (arith := binary64_arith) 1))
                  (c_normalized_heading c) = false /\
    PrimFloat.eqb (PrimFloat.add (c_elevation c) (base_elevation (arith := binary64_arith) 1))
                  (c_normalized_elevation c) = false.
Proof.
  eexists. split; [reflexivity|]. simpl.
  repeat split; vm_compute; reflexivity.
Qed.

(** ** The further properties at concrete inputs *)

Lemma triple_eta {A B C} (p : A * B * C) : (fst (fst p), snd (fst p), snd p) = p.
Proof. destruct p as [[a b] c]. reflexivity. Qed.

Lemma first_reset_returns :
  reset tt Run.fresh None = Ok (fst (fst Play.first_reset), Play.after_reset, Play.first_obs).
Proof.
  unfold Play.after_reset, Play.first_obs, Play.first_reset.
  rewrite (triple_eta (value (tt, Run.blank, [])
                         (reset (W := Demo.demo_world) tt Run.fresh None))).
  apply ok_value. vm_compute. reflexivity.
Qed.

Lemma after_reset_reachable : reachable Play.after_reset.
Proof. eapply reach_reset; [exact fresh_reachable | exact first_reset_returns]. Qed.

Lemma first_obs_observed : _get_obs Play.after_reset = Ok Play.first_obs.
Proof.
  destruct (reset_ok _ _ _ _ _ _ first_reset_returns) as (s1 & e & _ & _ & _ & H). exact H.
Qed.

(** The id of viewpoint A of scan S1. *)
Lemma make_id_of_S1_A :
  has_char underscore "S1" = false /\ "S1" = "S1" /\ "A" = "A".
Proof.
  split; [reflexivity|].
  apply (make_id_determines_pair "S1" "A" "S1" "A"); reflexivity.
Defined.

(** The three-record dataset in two splits: one record, then two. *)
Lemma splits_of_three_in_two :
  exists parts,
    all_splits Demo.dataset 2 = Ok parts /\ length parts = 2%nat /\
    concat parts = Demo.dataset.
Proof.
  destruct (splits_partition_dataset Demo.dataset 2 ltac:(lia))
    as (parts & Hrun & Hlen & Hcat & _).
  exists parts. auto.
Defined.

(** Two episodes on two idle simulators: slot 1 is at A of scan S2. *)
Lemma newEpisodes_on_two_slots :
  exists e',
    newEpisodes Play.slots ["S1"; "S2"] ["A"; "A"] [0%Q; 0%Q] = Ok e' /\
    length (sims e') = 2%nat /\
    sims e' !! 1%nat = Some (Demo.pose "S2" "A" 0).
Proof.
  assert (H : newEpisodes Play.slots ["S1"; "S2"] ["A"; "A"] [0%Q; 0%Q]
              = Ok (value Play.slots
                      (newEpisodes Play.slots ["S1"; "S2"] ["A"; "A"] [0%Q; 0%Q])))
    by (apply ok_value; vm_compute; reflexivity).
  destruct (newEpisodes_slotwise _ _ _ _ _ H) as (_ & Hlen & Hslot & _).
  eexists. split; [exact H|]. split; [exact Hlen|].
  destruct (Hslot 1%nat "S2" "A" 0%Q eq_refl eq_refl eq_refl) as (sim & sim' & _ & Hnew & Hs').
  simpl in Hnew. injection Hnew as <-. exact Hs'.
Defined.

(** One action on two simulators: slot 1 is left as it was. *)
Lemma makeActions_on_first_of_two_slots :
  exists e',
    makeActions Play.slots [(1, 0%Q, 0%Q)] = Ok e' /\
    length (sims e') = 2%nat /\
    sims e' !! 1%nat = sims Play.slots !! 1%nat.
Proof.
  assert (H : makeActions Play.slots [(1, 0%Q, 0%Q)]
              = Ok (value Play.slots (makeActions Play.slots [(1, 0%Q, 0%Q)])))
    by (apply ok_value; vm_compute; reflexivity).
  destruct (makeActions_slotwise _ _ _ H) as (_ & Hlen & _ & _ & Hrest).
  eexists. split; [exact H|]. split; [exact Hlen|].
  apply Hrest. simpl. lia.
Defined.

(** The first minibatch of the fresh instance: two of its three records. *)
Lemma first_minibatch_of_fresh :
  exists g' self' b,
    _next_minibatch tt Run.fresh None = Ok (g', self') /\
    batch self' = Some b /\ length b = 2%nat /\ data self' ≡ₚ data Run.fresh.
Proof.
  assert (H : _next_minibatch (W := Demo.demo_world) tt Run.fresh None
              = Ok (fst (value (tt, Run.blank) (_next_minibatch tt Run.fresh None)),
                    snd (value (tt, Run.blank) (_next_minibatch tt Run.fresh None)))).
  { rewrite <- surjective_pairing. apply ok_value. vm_compute. reflexivity. }
  destruct (minibatch_records_and_length _ _ _ _ _ demo_shuffle_permutes H)
    as (i & b & Hi & Hb & _ & Hdata & Hlen).
  do 2 eexists. exists b. split; [exact H|]. split; [exact Hb|]. split; [|exact Hdata].
  assert (Hi0 : i = 0) by (vm_compute in Hi; congruence). subst i.
  assert (H2 : Z.of_nat (length b) = 2).
  { rewrite Hlen; [vm_compute; reflexivity | vm_compute; split; discriminate
                  | vm_compute; discriminate]. }
  lia.
Defined.

(** After its first [reset] the fresh instance still has its three records,
    two simulators and the tables of its construction. *)
Lemma first_reset_keeps_dataset_and_tables :
  R2RNavBatch_size Play.after_reset = R2RNavBatch_size Run.fresh /\
  shortest_distances Play.after_reset = shortest_distances Run.fresh /\
  length (sims (env Play.after_reset)) = length (sims (env Run.fresh)).
Proof.
  destruct (calls_keep_dataset_and_tables Run.fresh Play.after_reset demo_shuffle_permutes
              (calls_reset _ _ _ _ _ _ _ (calls_none Run.fresh) first_reset_returns))
    as (_ & Hsize & _ & Hsd & _ & _ & _ & _ & _ & Hsims).
  auto.
Defined.

(** After the first [reset] the cursor is at 2; [reset_epoch] puts it back
    to 0 and the next minibatch is made of the first two records. *)
Lemma reset_epoch_after_first_reset :
  ix (snd (reset_epoch tt Play.after_reset false)) = Some 0 /\
  exists self2,
    _next_minibatch tt (snd (reset_epoch tt Play.after_reset false)) None = Ok (tt, self2) /\
    ix self2 = Some (effective_batch_size Play.after_reset None).
Proof.
  destruct (reset_epoch_replays_from_start (W := Demo.demo_world) tt Play.after_reset false None
              demo_shuffle_permutes)
    as (Hix & _ & _ & _ & Hnext).
  - vm_compute. split; discriminate.
  - split; [exact Hix|].
    destruct (Hnext tt) as (self2 & Hrun & _ & Hix2 & _). exists self2. auto.
Defined.

(** The observations of the first [reset]: one per simulator, the first one
    under the id of the first record of the batch. *)
Lemma first_observations_pair_slots :
  length Play.first_obs = length (sims (env Play.after_reset)) /\
  exists b item ob,
    batch Play.after_reset = Some b /\ b !! 0%nat = Some item /\
    Play.first_obs !! 0%nat = Some ob /\ ob_instr_id ob = ep_instr_id item.
Proof.
  destruct (get_obs_pairs_slot_with_record Play.after_reset Play.first_obs first_obs_observed)
    as (_ & Hlen & Hslots).
  split; [exact Hlen|].
  assert (Hn : length (sims (env Play.after_reset)) = 2%nat) by (vm_compute; reflexivity).
  destruct (lookup_lt_is_Some_2 (sims (env Play.after_reset)) 0%nat) as [sim Hsim];
    [rewrite Hn; lia|].
  destruct (Hslots 0%nat sim Hsim)
    as (state & feature & b & item & trajs & ob & _ & _ & Hb & Hitem & _ & Hob & Hid & _).
  exists b, item, ob. auto.
Defined.

(** The first observation of the first [reset] reports a table distance. *)
Lemma first_observation_distance :
  exists ob (row : gmap string Q) goal,
    Play.first_obs !! 0%nat = Some ob /\
    last (ob_gt_path ob) = Some goal /\ row !! goal = Some (ob_distance ob).
Proof.
  assert (Hn : length Play.first_obs = 2%nat) by (vm_compute; reflexivity).
  destruct (lookup_lt_is_Some_2 Play.first_obs 0%nat) as [ob Hob]; [rewrite Hn; lia|].
  destruct (observed_distance_is_table_distance Play.after_reset Play.first_obs
              demo_shuffle_permutes after_reset_reachable first_obs_observed ob
              (list_elem_of_lookup_2 _ _ _ Hob))
    as (trajs & all & sd & row & goal & _ & _ & _ & _ & _ & Hgoal & Hdist).
  exists ob, row, goal. auto.
Defined.

(** Scan S2, the agent staying at A: the oracle error is no more than the
    final error. *)
Lemma oracle_scores_on_far :
  exists nav orc,
    Run.scores_of Run.single_goal "S2" [["A"]] ["A"; "B"] PyNone !! "nav_error" = Some nav /\
    Run.scores_of Run.single_goal "S2" [["A"]] ["A"; "B"] PyNone !! "oracle_error"
    = Some orc /\
    (orc <= nav)%Q.
Proof.
  destruct (oracle_never_worse_than_final (W := Demo.demo_world)
              Run.single_goal "S2" [["A"]] ["A"; "B"] PyNone _
              demo_dtw_keys_fresh far_evaluated)
    as (nav & orc & s & os & Hnav & Horc & _ & _ & Hle & _).
  exists nav, orc. auto.
Defined.

(** The reference path of scan S1 followed exactly: [spl] is not 0, as the
    item is a success over a reference of length 2. *)
Lemma spl_cases_on_line :
  exists success gl spl,
    Run.scores_of Run.single_goal "S1" [["A"]; ["B"; "C"]] ["A"; "B"; "C"] PyNone !! "success"
    = Some success /\
    Run.scores_of Run.single_goal "S1" [["A"]; ["B"; "C"]] ["A"; "B"; "C"] PyNone !! "spl"
    = Some spl /\
    ((spl == 0)%Q <-> success = 0%Q \/ (gl == 0)%Q).
Proof.
  destruct (spl_by_cases (W := Demo.demo_world)
              Run.single_goal "S1" [["A"]; ["B"; "C"]] ["A"; "B"; "C"] PyNone _
              demo_dtw_keys_fresh line_evaluated)
    as (all & sd & s & tl & gl & spl & _ & _ & _ & _ & Hs & Hspl & Hzero & _).
  exists s, gl, spl. auto.
Defined.

Lemma preds_evaluated :
  eval_metrics Run.single_goal Play.preds
  = Ok (fst (value (∅, (∅, [])) (eval_metrics Run.single_goal Play.preds)),
        (fst (snd (value (∅, (∅, [])) (eval_metrics Run.single_goal Play.preds))),
         snd (snd (value (∅, (∅, [])) (eval_metrics Run.single_goal Play.preds))))).
Proof.
  rewrite <- (surjective_pairing (snd _)), <- surjective_pairing.
  apply ok_value. vm_compute. reflexivity.
Qed.

(** Two predictions evaluated: the ids in order and two values of [spl]. *)
Lemma metrics_lists_of_two_predictions :
  exists avg metrics ids,
    eval_metrics Run.single_goal Play.preds = Ok (avg, (metrics, ids)) /\
    ids = ["r1"; "r2"] /\ length (default [] (metrics !! "spl")) = 2%nat.
Proof.
  destruct (eval_metrics_lists_follow_predictions _ _ _ _ _ preds_evaluated)
    as (Hids & ss & _ & _ & Hlen).
  do 3 eexists. split; [exact preds_evaluated|]. split; [exact Hids|].
  apply (Hlen "spl"). unfold own_keys. simpl. repeat constructor.
Defined.

(** The same two predictions: the two rates are percentages in order. *)
Lemma rates_of_two_predictions :
  exists avg metrics sr oracle_sr,
    eval_metrics Run.single_goal Play.preds = Ok (avg, metrics) /\
    avg !! "sr" = Some (Some sr) /\ avg !! "oracle_sr" = Some (Some oracle_sr) /\
    (0 <= sr)%Q /\ (sr <= oracle_sr)%Q /\ (oracle_sr <= 100)%Q.
Proof.
  destruct (oracle_rate_at_least_success_rate _ _ _ _ demo_dtw_keys_fresh preds_evaluated)
    as [_ Hrates].
  destruct Hrates as (sr & osr & Hsr & Hosr & Hb); [discriminate|].
  do 2 eexists. exists sr, osr. split; [exact preds_evaluated|]. auto.
Defined.

(** The first [reset] of the fresh instance: two records for two simulators. *)
Lemma first_reset_fills_two_slots :
  exists b,
    batch Play.after_reset = Some b /\ length b = 2%nat /\
    length Play.first_obs = length b.
Proof.
  destruct (reset_starts_every_slot _ _ _ _ _ _ first_reset_returns)
    as (self1 & b & _ & _ & Hb & Hlen & _ & Hobs & _).
  exists b. split; [exact Hb|]. split; [|exact Hobs].
  rewrite Hlen. vm_compute. reflexivity.
Defined.

Lemma first_step_returns :
  step Play.after_reset [(0, 0%Q, 0%Q)]
  = Ok (fst (value (Run.blank, []) (step Play.after_reset [(0, 0%Q, 0%Q)])),
        snd (value (Run.blank, []) (step Play.after_reset [(0, 0%Q, 0%Q)]))).
Proof. rewrite <- surjective_pairing. apply ok_value. vm_compute. reflexivity. Qed.

(** One action after the first [reset]: the batch is kept and both
    simulators are observed. *)
Lemma first_step_observes_two_slots :
  exists self' obs,
    step Play.after_reset [(0, 0%Q, 0%Q)] = Ok (self', obs) /\
    batch self' = batch Play.after_reset /\
    length obs = length (sims (env Play.after_reset)).
Proof.
  destruct (step_moves_acted_slots _ _ _ _ first_step_returns)
    as (Hb & _ & _ & _ & _ & Hobs & _).
  do 2 eexists. split; [exact first_step_returns|]. auto.
Defined.

(** The fresh instance, built with batch size 2, has two simulators. *)
Lemma fresh_has_constructed_slots :
  length (sims (env Run.fresh)) = Z.to_nat (batch_size Run.fresh).
Proof.
  exact (proj1 (observations_one_per_constructed_slot Run.fresh fresh_reachable)).
Defined.
